(** * md2googleslides: style resolver, image helpers and request generator

    A shallow embedding of the TypeScript sources of md2googleslides:

    - [Css]       : the style resolver (colour parsing, style-sheet parsing,
                    [updateStyleDefinition]);
    - [Upload]    : the local image uploader ([uploadLocalImage]);
    - [RemoteSvg] : the remote SVG converter ([convertRemoteSVG]);
    - [Layout]    : the request generator exercised by
                    test/generic_layout.spec.ts;
    - [Svg]       : the SVG renderers ([renderSVG], [getBrowser]);
    - [Auth]      : the user authorizer ([getUserCredentials]);
    - [Math]      : the math renderer ([renderMath], [addOrMergeStyles]).

    JavaScript exceptions and promise rejections are modelled by the
    [completion] type below; JavaScript objects used as ordered maps by
    [JsObj]. *)

From Stdlib Require Import String Ascii List Bool Arith NArith ZArith QArith Lia.
From Stdlib Require Import Permutation.
From Stdlib Require DecimalString.
Import ListNotations.

Local Close Scope Q_scope.
Local Open Scope string_scope.
Local Open Scope list_scope.

(* ====================================================================== *)
(** * JavaScript control flow: normal and abrupt completion *)
(* ====================================================================== *)

Module Js.

(** The value carried by a [throw] (or by a rejected promise). *)
Inductive exn : Type :=
| Error (message : string).

(** The result of running a piece of JavaScript: it returns a value or
    throws.  For an [async] function, [Return] is a promise that resolves
    and [Throw] a promise that rejects. *)
Inductive completion (A : Type) : Type :=
| Return (a : A)
| Throw (e : exn).

Arguments Return {A} a.
Arguments Throw {A} e.

Definition bind {A B} (m : completion A) (k : A -> completion B) : completion B :=
  match m with
  | Return a => k a
  | Throw e => Throw e
  end.

(** [try { m } catch (err) { h err }] *)
Definition try_catch {A} (m : completion A) (h : exn -> completion A) : completion A :=
  match m with
  | Return a => Return a
  | Throw e => h e
  end.

Definition resolves {A} (m : completion A) : Prop := exists a, m = Return a.

End Js.

Notation "x <- m ;; k" := (Js.bind m (fun x => k))
  (at level 61, m at next level, right associativity).

(* ====================================================================== *)
(** * Strings *)
(* ====================================================================== *)

Module Str.

Definition is_digit (c : ascii) : bool :=
  let n := nat_of_ascii c in (48 <=? n)%nat && (n <=? 57)%nat.

Definition is_upper (c : ascii) : bool :=
  let n := nat_of_ascii c in (65 <=? n)%nat && (n <=? 90)%nat.

(** [String.prototype.toLowerCase], on the ASCII letters.  Strings are
    byte strings here; bytes above 127 are left alone. *)
Definition lower_char (c : ascii) : ascii :=
  if is_upper c then ascii_of_nat (nat_of_ascii c + 32) else c.

Fixpoint toLowerCase (s : string) : string :=
  match s with
  | EmptyString => EmptyString
  | String c s' => String (lower_char c) (toLowerCase s')
  end.

(** [s.startsWith(p)] *)
Definition startsWith (s p : string) : bool := String.prefix p s.

(** [s.slice(n)] *)
Fixpoint drop (n : nat) (s : string) : string :=
  match n, s with
  | O, _ => s
  | S n', EmptyString => EmptyString
  | S n', String _ s' => drop n' s'
  end.

(** [s.endsWith(p)] *)
Definition endsWith (s p : string) : bool :=
  (String.length p <=? String.length s)%nat
  && String.eqb (drop (String.length s - String.length p) s) p.

(** [s.includes(p)] *)
Fixpoint includes (s p : string) : bool :=
  String.prefix p s
  || match s with
     | EmptyString => false
     | String _ s' => includes s' p
     end.

(** White space removed by [String.prototype.trim] (ASCII part). *)
Definition is_space (c : ascii) : bool :=
  let n := nat_of_ascii c in
  (n =? 32)%nat || ((9 <=? n)%nat && (n <=? 13)%nat).

Fixpoint trimStart (s : string) : string :=
  match s with
  | EmptyString => EmptyString
  | String c s' => if is_space c then trimStart s' else s
  end.

Fixpoint rev_string (s : string) (acc : string) : string :=
  match s with
  | EmptyString => acc
  | String c s' => rev_string s' (String c acc)
  end.

Definition trimEnd (s : string) : string :=
  rev_string (trimStart (rev_string s EmptyString)) EmptyString.

Definition trim (s : string) : string := trimEnd (trimStart s).

(** JavaScript truthiness of a string: only the empty string is falsy. *)
Definition truthy (s : string) : bool :=
  match s with EmptyString => false | String _ _ => true end.

End Str.

(* ====================================================================== *)
(** * JavaScript objects used as maps *)
(* ====================================================================== *)

Module JsObj.

(** Own enumerable string-keyed properties, kept in insertion order.
    Keys are unique. *)
Definition t (V : Type) : Type := list (string * V).

Definition empty {V} : t V := [].

(** [o[k]] *)
Fixpoint get {V} (o : t V) (k : string) : option V :=
  match o with
  | [] => None
  | (k', v) :: o' => if String.eqb k' k then Some v else get o' k
  end.

(** [o[k] = v]: an existing property keeps its position, a new one is
    added last. *)
Fixpoint set {V} (o : t V) (k : string) (v : V) : t V :=
  match o with
  | [] => [(k, v)]
  | (k', v') :: o' =>
      if String.eqb k' k then (k', v) :: o' else (k', v') :: set o' k v
  end.

Definition keys {V} (o : t V) : list string := map fst o.

(** Decimal value of a string of digits. *)
Fixpoint digits_value (s : string) (acc : N) : N :=
  match s with
  | EmptyString => acc
  | String c s' =>
      digits_value s' (acc * 10 + N.of_nat (nat_of_ascii c - 48))%N
  end.

Fixpoint all_digits (s : string) : bool :=
  match s with
  | EmptyString => true
  | String c s' => Str.is_digit c && all_digits s'
  end.

(** A key is an array index when it is the canonical decimal form of an
    integer below 2^32 - 1. *)
Definition is_array_index (k : string) : bool :=
  match k with
  | EmptyString => false
  | String c rest =>
      all_digits k
      && (negb (Ascii.eqb c "0") || String.eqb rest EmptyString)
      && (digits_value k 0 <? 4294967295)%N
  end.

Fixpoint insert_index {V} (e : string * V) (l : list (string * V)) : list (string * V) :=
  match l with
  | [] => [e]
  | e' :: l' =>
      if (digits_value (fst e) 0 <=? digits_value (fst e') 0)%N
      then e :: l
      else e' :: insert_index e l'
  end.

Definition sort_index {V} (l : list (string * V)) : list (string * V) :=
  fold_right insert_index [] l.

(** [Object.entries(o)]: array-index keys in ascending numeric order,
    then the other keys in insertion order. *)
Definition entries {V} (o : t V) : list (string * V) :=
  sort_index (filter (fun e => is_array_index (fst e)) o)
  ++ filter (fun e => negb (is_array_index (fst e))) o.

End JsObj.

(* ====================================================================== *)
(** * The style resolver *)
(* ====================================================================== *)

Module Css.

(** ** Numbers and colours *)

(** A JavaScript number.  Finite values are kept as exact rationals: the
    rounding of a quotient to the nearest double is not modelled, and
    neither is the sign of zero. *)
Inductive number : Type :=
| Num (q : Q)
| NaN
| PosInfinity
| NegInfinity.

(** [x / 255], where [x] is an array element that may be missing
    ([undefined / 255] is [NaN]). *)
Definition div255 (x : option number) : number :=
  match x with
  | Some (Num q) => Num (q / 255)%Q
  | Some NaN => NaN
  | Some PosInfinity => PosInfinity
  | Some NegInfinity => NegInfinity
  | None => NaN
  end.

Record RgbColor : Type := { red : number; green : number; blue : number }.
Record OpaqueColor : Type := { rgbColor : RgbColor }.
Record Color : Type := { opaqueColor : OpaqueColor }.

(** The part of the result of the [parse-color] package that the code
    reads: [rgba] is an array when the string resolves to RGB and
    [undefined] otherwise. *)
Record ParsedColor : Type := { rgba : option (list number) }.

Record FontSize : Type := { magnitude : number; unit : string }.

(** The fields of [StyleDefinition] written by [updateStyleDefinition];
    [None] is an absent ([undefined]) field. *)
Record StyleDefinition : Type := {
  bold : option bool;
  italic : option bool;
  underline : option bool;
  strikethrough : option bool;
  smallCaps : option bool;
  fontFamily : option string;
  fontSize : option FontSize;
  foregroundColor : option Color;
  backgroundColor : option Color
}.

Definition emptyStyle : StyleDefinition :=
  {| bold := None; italic := None; underline := None; strikethrough := None;
     smallCaps := None; fontFamily := None; fontSize := None;
     foregroundColor := None; backgroundColor := None |}.

Definition CssRule : Type := JsObj.t string.
Definition Stylesheet : Type := JsObj.t CssRule.

(** ** The font-size pattern [/(\d+)(?:pt)?/] *)

(** Longest prefix made of digits. *)
Fixpoint take_digits (s : string) : string :=
  match s with
  | EmptyString => EmptyString
  | String c s' => if Str.is_digit c then String c (take_digits s') else EmptyString
  end.

(** [value.match(/(\d+)(?:pt)?/)]: the pattern is not anchored, so the
    match starts at the first digit of [value]; the result is capture
    group 1, the longest run of digits from there, and [None] when the
    string has no digit. *)
Fixpoint match_fontSize (value : string) : option string :=
  match value with
  | EmptyString => None
  | String c s' =>
      if Str.is_digit c then Some (String c (take_digits s'))
      else match_fontSize s'
  end.

(** The natural that the double nearest to [v] holds, were the exponent
    not bounded.  Below 2^53 it is [v]; from there on [v] is cut to its
    53 leading bits, and goes up to the next such number when what is cut
    is more than half of the last place kept, or is that half and the last
    bit kept is 1. *)
Definition round53 (v : N) : N :=
  if (v <? 2 ^ 53)%N then v
  else
    let e := (N.log2 v - 52)%N in
    let kept := (v / 2 ^ e)%N in
    let cut := (v mod 2 ^ e)%N in
    let half := (2 ^ (e - 1))%N in
    let up := (half <? cut)%N || ((cut =? half)%N && N.odd kept) in
    ((if up then kept + 1 else kept) * 2 ^ e)%N.

(** The double that holds the natural [m]: [Infinity] from 2^1024 on. *)
Definition double_of (m : N) : number :=
  if (m <? 2 ^ 1024)%N then Num (inject_Z (Z.of_N m)) else PosInfinity.

(** [Number.parseInt] on a string of decimal digits: the double nearest
    to the number written. *)
Definition parseInt (digits : string) : number :=
  double_of (round53 (JsObj.digits_value digits 0)).

(** ** Parsed CSS, as returned by the [css] package *)

Record Declaration : Type := {
  decl_type : string;
  property : option string;
  value : option string
}.

Record Rule : Type := {
  rule_type : string;
  selectors : option (list string);
  declarations : option (list Declaration)
}.

Record StyleSheetNode : Type := { rules : option (list Rule) }.
Record ParsedCss : Type := { stylesheet : option StyleSheetNode }.

Section Resolver.

(** External packages: [parse-color], lodash's [camelCase],
    [css.parse] (which throws on malformed input) and
    [inline-styles-parse]'s [declarationsToRule], which wraps a
    declaration list into a rule text. *)
Variable parseColor : string -> ParsedColor.
Variable camelCase : string -> string.
Variable css_parse : string -> Js.completion ParsedCss.
Variable declarationsToRule : string -> string.

Definition parseColorString (hexString : string) : option Color :=
  let c := parseColor hexString in
  match rgba c with
  | None => None
  | Some arr =>
      Some {| opaqueColor := {| rgbColor := {|
        red := div255 (nth_error arr 0);
        green := div255 (nth_error arr 1);
        blue := div255 (nth_error arr 2) |} |} |}
  end.

(** [_.mapKeys(css, (value, key) => _.camelCase(key))]: the properties
    are visited in enumeration order and assigned to a fresh object. *)
Definition normalizeKeys (css : CssRule) : CssRule :=
  fold_left (fun result e => JsObj.set result (camelCase (fst e)) (snd e))
            (JsObj.entries css) JsObj.empty.

(** [declarations[p] = v], for a string [v] and an object made by [{}]:
    the assignment to [__proto__] of a value that is not an object stores
    nothing; every other name becomes a property of the object. *)
Definition assign (declarations : CssRule) (p v : string) : CssRule :=
  if String.eqb p "__proto__" then declarations else JsObj.set declarations p v.

(** The declarations of one rule, collected into an object. *)
Definition collectDeclarations (decls : list Declaration) : CssRule :=
  fold_left
    (fun (acc : CssRule) d =>
       match property d, value d with
       | Some p, Some v =>
           if String.eqb (decl_type d) "declaration" && Str.truthy p
           then assign acc p v
           else acc
       | _, _ => acc
       end)
    decls JsObj.empty.

(** One rule node of the loop.  [result[selector] = declarations] is read
    back by [result[selector]] for every selector; for the selector
    [__proto__] what is set is the prototype of [result], which the entry
    stands for here. *)
Definition addRule (result : Stylesheet) (rule : Rule) : Stylesheet :=
  match selectors rule, declarations rule with
  | Some sels, Some decls =>
      if String.eqb (rule_type rule) "rule"
      then fold_left
             (fun res selector => JsObj.set res selector (collectDeclarations decls))
             sels result
      else result
  | _, _ => result
  end.

Definition convertCssToObject (cssString : string) : Js.completion Stylesheet :=
  if negb (Str.truthy cssString) || String.eqb (Str.trim cssString) ""
  then Js.Return JsObj.empty
  else
    Js.try_catch
      (parsed <- css_parse cssString ;;
       match stylesheet parsed with
       | None => Js.Return JsObj.empty
       | Some sheet =>
           match rules sheet with
           | None => Js.Return JsObj.empty
           | Some rs => Js.Return (fold_left addRule rs JsObj.empty)
           end
       end)
      (fun err => Js.Return JsObj.empty).

(** [stylesheet] is [None] for [undefined]. *)
Definition parseStyleSheet (stylesheet : option string) : Js.completion Stylesheet :=
  match stylesheet with
  | None => Js.Return JsObj.empty
  | Some s =>
      if negb (Str.truthy s) then Js.Return JsObj.empty
      else convertCssToObject s
  end.

Definition orElse {A} (a b : option A) : option A :=
  match a with Some _ => a | None => b end.

Definition parseInlineStyle (inlineStyle : string) : Js.completion CssRule :=
  let dummyRule := declarationsToRule inlineStyle in
  converted <- convertCssToObject dummyRule ;;
  Js.Return
    match orElse (JsObj.get converted ".dummy") (JsObj.get converted "dummy") with
    | Some rule => rule
    | None => JsObj.empty
    end.

(** ** [updateStyleDefinition] *)

Definition recognized (key : string) : bool :=
  String.eqb key "color" || String.eqb key "backgroundColor"
  || String.eqb key "fontWeight" || String.eqb key "fontStyle"
  || String.eqb key "fontFamily" || String.eqb key "fontVariant"
  || String.eqb key "fontSize".

Definition set_foregroundColor (s : StyleDefinition) (c : option Color) :=
  {| bold := bold s; italic := italic s; underline := underline s;
     strikethrough := strikethrough s; smallCaps := smallCaps s;
     fontFamily := fontFamily s; fontSize := fontSize s;
     foregroundColor := c; backgroundColor := backgroundColor s |}.

Definition set_backgroundColor (s : StyleDefinition) (c : option Color) :=
  {| bold := bold s; italic := italic s; underline := underline s;
     strikethrough := strikethrough s; smallCaps := smallCaps s;
     fontFamily := fontFamily s; fontSize := fontSize s;
     foregroundColor := foregroundColor s; backgroundColor := c |}.

Definition set_bold (s : StyleDefinition) :=
  {| bold := Some true; italic := italic s; underline := underline s;
     strikethrough := strikethrough s; smallCaps := smallCaps s;
     fontFamily := fontFamily s; fontSize := fontSize s;
     foregroundColor := foregroundColor s; backgroundColor := backgroundColor s |}.

Definition set_italic (s : StyleDefinition) :=
  {| bold := bold s; italic := Some true; underline := underline s;
     strikethrough := strikethrough s; smallCaps := smallCaps s;
     fontFamily := fontFamily s; fontSize := fontSize s;
     foregroundColor := foregroundColor s; backgroundColor := backgroundColor s |}.

Definition set_underline (s : StyleDefinition) :=
  {| bold := bold s; italic := italic s; underline := Some true;
     strikethrough := strikethrough s; smallCaps := smallCaps s;
     fontFamily := fontFamily s; fontSize := fontSize s;
     foregroundColor := foregroundColor s; backgroundColor := backgroundColor s |}.

Definition set_strikethrough (s : StyleDefinition) :=
  {| bold := bold s; italic := italic s; underline := underline s;
     strikethrough := Some true; smallCaps := smallCaps s;
     fontFamily := fontFamily s; fontSize := fontSize s;
     foregroundColor := foregroundColor s; backgroundColor := backgroundColor s |}.

Definition set_smallCaps (s : StyleDefinition) :=
  {| bold := bold s; italic := italic s; underline := underline s;
     strikethrough := strikethrough s; smallCaps := Some true;
     fontFamily := fontFamily s; fontSize := fontSize s;
     foregroundColor := foregroundColor s; backgroundColor := backgroundColor s |}.

Definition set_fontFamily (s : StyleDefinition) (f : string) :=
  {| bold := bold s; italic := italic s; underline := underline s;
     strikethrough := strikethrough s; smallCaps := smallCaps s;
     fontFamily := Some f; fontSize := fontSize s;
     foregroundColor := foregroundColor s; backgroundColor := backgroundColor s |}.

Definition set_fontSize (s : StyleDefinition) (f : FontSize) :=
  {| bold := bold s; italic := italic s; underline := underline s;
     strikethrough := strikethrough s; smallCaps := smallCaps s;
     fontFamily := fontFamily s; fontSize := Some f;
     foregroundColor := foregroundColor s; backgroundColor := backgroundColor s |}.

(** One iteration of the loop: the [switch] on the normalized key. *)
Definition updateStep (style : StyleDefinition) (e : string * string) : StyleDefinition :=
  let (key, value) := e in
  if String.eqb key "color" then
    set_foregroundColor style (parseColorString value)
  else if String.eqb key "backgroundColor" then
    set_backgroundColor style (parseColorString value)
  else if String.eqb key "fontWeight" then
    if String.eqb value "bold" then set_bold style else style
  else if String.eqb key "fontStyle" then
    if String.eqb value "italic" then set_italic style
    else if String.eqb value "underline" then set_underline style
    else if String.eqb value "line-through" then set_strikethrough style
    else style
  else if String.eqb key "fontFamily" then
    set_fontFamily style value
  else if String.eqb key "fontVariant" then
    if String.eqb value "small-caps" then set_smallCaps style else style
  else if String.eqb key "fontSize" then
    match match_fontSize value with
    | None => style
    | Some digits =>
        set_fontSize style {| magnitude := parseInt digits; unit := "PT" |}
    end
  else style.

Definition updateStyleDefinition (css : CssRule) (style : StyleDefinition) : StyleDefinition :=
  let normalizedCss := normalizeKeys css in
  fold_left updateStep (JsObj.entries normalizedCss) style.

End Resolver.

(** ** Vocabulary for the properties *)



(** How far two naturals are from each other. *)
Definition distance (a b : N) : N := ((a - b) + (b - a))%N.

(** [m] is the nearest to [v] of the naturals that a double can hold, the
    bound on the exponent left aside.  Below 2^53 a double holds every
    natural.  From there on, with e + 53 the number of bits of [v], the
    doubles around [v] are the multiples of 2^e, so [m] is a multiple of
    2^e at most half of 2^e away from [v], and the even multiple when [v]
    is half way between two. *)
Definition nearest_double (v m : N) : Prop :=
  ((v < 2 ^ 53)%N -> m = v)
  /\ ((2 ^ 53 <= v)%N ->
      exists k,
        m = (k * 2 ^ (N.log2 v - 52))%N
        /\ (2 * distance v m <= 2 ^ (N.log2 v - 52))%N
        /\ ((2 * distance v m = 2 ^ (N.log2 v - 52))%N -> N.even k = true)).


(** The font-size pattern, read declaratively: the text before the match
    has no digit, and the text after the captured run does not start
    with one. *)
Fixpoint has_digit (s : string) : bool :=
  match s with
  | EmptyString => false
  | String c s' => Str.is_digit c || has_digit s'
  end.

Definition starts_with_digit (s : string) : bool :=
  match s with
  | EmptyString => false
  | String c _ => Str.is_digit c
  end.

(** ** Sample packages, for the examples *)

Definition sampleParseColor (s : string) : ParsedColor :=
  if String.eqb s "#ff0080"
  then {| rgba := Some [Num 255; Num 0; Num 128; Num 1] |}
  else {| rgba := None |}.


Definition sampleCamelCase (s : string) : string :=
  if String.eqb s "font-size" then "fontSize"
  else if String.eqb s "background-color" then "backgroundColor"
  else s.

Definition failingCssParse (s : string) : Js.completion ParsedCss :=
  Js.Throw (Js.Error "missing '}'").

Definition sampleDeclarationsToRule (s : string) : string :=
  ".dummy{" ++ s ++ "}".

End Css.

(* ====================================================================== *)
(** * Uploading a local image *)
(* ====================================================================== *)

Module Upload.

(** The JSON body answered by the hosting service, as far as the code
    reads it: [status] and [data.url].  [None] is an absent field. *)
Record ResponseData : Type := { url : option string }.
Record UploadResponse : Type := {
  status : option string;
  data : option ResponseData
}.

(** The read stream opened on the file. *)
Record Stream : Type := { destroyed : bool }.

Definition createReadStream (filePath : string) : Stream := {| destroyed := false |}.
Definition destroy (s : Stream) : Stream := {| destroyed := true |}.

(** [responseData.data?.url] *)
Definition data_url (r : UploadResponse) : option string :=
  match data r with
  | None => None
  | Some d => url d
  end.

(** Truthiness of [responseData.data?.url]. *)
Definition has_url (r : UploadResponse) : bool :=
  match data_url r with
  | None => false
  | Some u => Str.truthy u
  end.

Definition status_is_success (r : UploadResponse) : bool :=
  match status r with
  | None => false
  | Some s => String.eqb s "success"
  end.

(** [uploadUrl.replace(/^https?:\/\/tmpfiles\.org\//, 'https://tmpfiles.org/dl/')] *)
Definition toDownloadUrl (uploadUrl : string) : string :=
  if Str.startsWith uploadUrl "https://tmpfiles.org/"
  then "https://tmpfiles.org/dl/" ++ Str.drop 21 uploadUrl
  else if Str.startsWith uploadUrl "http://tmpfiles.org/"
  then "https://tmpfiles.org/dl/" ++ Str.drop 20 uploadUrl
  else uploadUrl.

Section Uploader.

(** [axios.post] to the upload end point, giving [res.data] or
    rejecting, and [JSON.stringify]. *)
Variable axios_post : string -> Js.completion UploadResponse.
Variable JSON_stringify : UploadResponse -> string.

(** The body of the [try] block. *)
Definition upload_body (filePath : string) : Js.completion string :=
  responseData <- axios_post filePath ;;
  if negb (status_is_success responseData) || negb (has_url responseData)
  then Js.Throw (Js.Error (JSON_stringify responseData))
  else
    match data_url responseData with
    | Some uploadUrl => Js.Return (toDownloadUrl uploadUrl)
    | None => Js.Throw (Js.Error (JSON_stringify responseData))
    end.

(** The outcome of the promise together with the final state of the
    stream, which the [finally] block destroys. *)
Definition uploadLocalImage (filePath : string) : Js.completion string * Stream :=
  let stream := createReadStream filePath in
  (upload_body filePath, destroy stream).

End Uploader.

(** ** Vocabulary for the properties *)

(** The response has no usable [data.url]: the field is absent or empty. *)
Definition lacks_url (r : UploadResponse) : Prop :=
  data_url r = None \/ data_url r = Some EmptyString.

Definition sampleStringify (r : UploadResponse) : string := "{...}".



End Upload.

(* ====================================================================== *)
(** * Converting a remote SVG *)
(* ====================================================================== *)

Module RemoteSvg.

(** [ImageDefinition]; [None] is an absent field. *)
Record ImageDefinition : Type := {
  url : option string;
  source : option string;
  type : option string;
  width : Z;
  height : Z;
  padding : Z;
  offsetX : Z;
  offsetY : Z
}.

(** [response.data]: a string, or any other value. *)
Inductive ResponseBody : Type :=
| TextBody (text : string)
| OtherBody.

(** [{...image, source: svgContent, type: 'svg'}] *)
Definition withSource (image : ImageDefinition) (svgContent : string) : ImageDefinition :=
  {| url := url image; source := Some svgContent; type := Some "svg";
     width := width image; height := height image; padding := padding image;
     offsetX := offsetX image; offsetY := offsetY image |}.

(** [image.url = u] *)
Definition set_url (image : ImageDefinition) (u : string) : ImageDefinition :=
  {| url := Some u; source := source image; type := type image;
     width := width image; height := height image; padding := padding image;
     offsetX := offsetX image; offsetY := offsetY image |}.

Section Converter.

(** [axios.get(url, ...)] giving [response.data] or rejecting, and the
    SVG renderer, which gives the path of the PNG or rejects. *)
Variable axios_get : string -> Js.completion ResponseBody.
Variable renderSVG : ImageDefinition -> Js.completion string.

(** The body of the [try] block. *)
Definition download_and_convert (image : ImageDefinition) (u : string)
  : Js.completion ImageDefinition :=
  svgContent <- axios_get u ;;
  match svgContent with
  | OtherBody => Js.Return image
  | TextBody content =>
      if negb (Str.includes (Str.trim content) "<svg")
      then Js.Return image
      else
        pngPath <- renderSVG (withSource image content) ;;
        Js.Return (set_url image ("file://" ++ pngPath))
  end.

Definition convertRemoteSVG (image : ImageDefinition) : Js.completion ImageDefinition :=
  match url image with
  | None => Js.Return image
  | Some u =>
      if negb (Str.truthy u) then Js.Return image
      else if negb (Str.endsWith (Str.toLowerCase u) ".svg") then Js.Return image
      else if Str.startsWith u "file://" then Js.Return image
      else Js.try_catch (download_and_convert image u)
                        (fun err => Js.Return image)
  end.

End Converter.

(** ** Vocabulary for the properties *)

(** The image is dropped when the promise hands no image address back
    for the slide. *)
Definition dropped (outcome : Js.completion ImageDefinition) : Prop :=
  match outcome with
  | Js.Return img => url img = None
  | Js.Throw _ => False
  end.

(** The url ends with .svg, letter case ignored. *)
Definition svgSuffix (u : string) : bool := Str.endsWith (Str.toLowerCase u) ".svg".

(** The url starts with file://. *)
Definition localFile (u : string) : bool := Str.startsWith u "file://".

Definition localImage : ImageDefinition :=
  {| url := Some "file:///tmp/tmp-1.svg"; source := None; type := None;
     width := 350; height := 315; padding := 0; offsetX := 0; offsetY := 0 |}.

Definition remoteImage : ImageDefinition :=
  {| url := Some "https://example.com/logo.SVG"; source := None; type := None;
     width := 350; height := 315; padding := 0; offsetX := 0; offsetY := 0 |}.

Definition kittenImage : ImageDefinition :=
  {| url := Some "https://placekitten.com/350/315"; source := None; type := None;
     width := 350; height := 315; padding := 0; offsetX := 0; offsetY := 0 |}.

Definition failingGet (u : string) : Js.completion ResponseBody :=
  Js.Throw (Js.Error "timeout of 30000ms exceeded").

Definition sampleRender (image : ImageDefinition) : Js.completion string :=
  Js.Return "/tmp/tmp-1.png".

End RemoteSvg.

(* ====================================================================== *)
(** * The request generator *)
(* ====================================================================== *)

Module Layout.

(** ** Slide definitions, as built in test/generic_layout.spec.ts *)

(** A text run: a style with the range it covers. *)
Record TextRun : Type := {
  start : nat;
  end_ : nat;
  style : Css.StyleDefinition
}.

Inductive ListKind : Type := ordered | unordered.

Record ListMarker : Type := {
  marker_start : nat;
  marker_end : nat;
  marker_type : ListKind
}.

Record TextDefinition : Type := {
  rawText : string;
  textRuns : list TextRun;
  listMarkers : list ListMarker;
  big : bool
}.

Record VideoDefinition : Type := {
  video_width : Z;
  video_height : Z;
  autoPlay : bool;
  id : string
}.

Record BodyDefinition : Type := {
  images : list RemoteSvg.ImageDefinition;
  videos : list VideoDefinition;
  text : TextDefinition
}.

Record TableDefinition : Type := {
  rows : nat;
  columns : nat;
  cells : list (list TextDefinition)
}.

Record SlideDefinition : Type := {
  objectId : string;
  title : option TextDefinition;
  subtitle : option TextDefinition;
  notes : option TextDefinition;
  bodies : list BodyDefinition;
  tables : list TableDefinition;
  backgroundImage : option RemoteSvg.ImageDefinition
}.

(** The invariant of [TableDefinition]: [rows] rows of [columns] cells. *)
Definition table_wf (t : TableDefinition) : Prop :=
  length (cells t) = rows t /\ Forall (fun row => length row = columns t) (cells t).

(** ** Requests, with the fields the tests read *)

Record CellLocation : Type := { rowIndex : nat; columnIndex : nat }.

(** Where text goes: a page element, and a cell of it for a table. *)
Record Location : Type := {
  loc_objectId : string;
  cellLocation : option CellLocation
}.

Inductive Request : Type :=
| createSlide (slideId : string)
| createShape (elementId pageObjectId : string)
| insertText (loc : Location) (text : string)
| updateTextStyle (loc : Location) (startIndex endIndex : nat)
                  (style : Css.StyleDefinition) (fields : string)
| createParagraphBullets (loc : Location) (startIndex endIndex : nat)
                         (bulletPreset : string)
| createTable (tableId pageObjectId : string) (rows columns : nat)
| createImage (pageObjectId url : string)
| createVideo (pageObjectId source videoId : string)
| updatePageProperties (pageObjectId fields contentUrl : string).

(** ** Field masks *)

(** Modelled from the spec: the effect flags of a style range (section 3,
    StyleRange), named as the tests read them in the [fields] of a style
    request; the generator ([GenericLayout]) is not among the sources. *)
Definition flag {A} (name : string) (field : option A) : list string :=
  match field with Some _ => [name] | None => [] end.

(** Modelled from the spec: the names of the effects a style sets. *)
Definition effects (s : Css.StyleDefinition) : list string :=
  flag "bold" (Css.bold s) ++ flag "italic" (Css.italic s)
  ++ flag "underline" (Css.underline s)
  ++ flag "strikethrough" (Css.strikethrough s)
  ++ flag "smallCaps" (Css.smallCaps s)
  ++ flag "fontFamily" (Css.fontFamily s)
  ++ flag "fontSize" (Css.fontSize s)
  ++ flag "foregroundColor" (Css.foregroundColor s)
  ++ flag "backgroundColor" (Css.backgroundColor s).

(** Modelled from the spec: the field mask of a style request, the names of
    its effects separated by commas. *)
Definition fieldMask (s : Css.StyleDefinition) : string := String.concat "," (effects s).

(** ** Templates and binding *)

(** The placeholders a template page exposes, by element identifier. *)
Record Template : Type := {
  titleElement : option string;
  subtitleElement : option string;
  bodyElements : list string;
  notesElement : option string
}.

Fixpoint digit_string (fuel n : nat) (acc : string) : string :=
  match fuel with
  | O => acc
  | S fuel' =>
      let acc' := String (ascii_of_nat (48 + n mod 10)) acc in
      if (n <? 10)%nat then acc' else digit_string fuel' (n / 10) acc'
  end.

Definition decimal (n : nat) : string := digit_string (S n) n "".

(** Modelled from the spec: the identifier generated for body column [i]
    of a slide when the template has no placeholder for it (section 3 and
    section 4.3 of the specification: [<objectId>-element] for the first
    column and [<objectId>-element-2] for the second); the function that
    allocates it is not among the sources. *)
Definition generatedBodyId (slideId : string) (i : nat) : string :=
  match i with
  | O => slideId ++ "-element"
  | S _ => slideId ++ "-element-" ++ decimal (S i)
  end.

(** Modelled from the spec: the binding of body column [i] (section 4.3:
    the element identifier found inside the template page, or a freshly
    allocated one when the template must be extended); the layout matcher
    is not among the sources.  The boolean tells whether the element has
    to be created. *)
Definition bindBody (tpl : Template) (slideId : string) (i : nat) : string * bool :=
  match nth_error (bodyElements tpl) i with
  | Some element => (element, false)
  | None => (generatedBodyId slideId i, true)
  end.

Definition bodyId (tpl : Template) (slideId : string) (i : nat) : string :=
  fst (bindBody tpl slideId i).

(** ** Generation *)

(** Modelled from the spec: the style-range request of a text run (section
    4.4), over the fixed range from [start] to [end], carrying the style
    and the mask of the effects it sets. *)
Definition styleRequest (loc : Location) (run : TextRun) : Request :=
  updateTextStyle loc (start run) (end_ run) (style run) (fieldMask (style run)).

Definition bulletPresetOf (k : ListKind) : string :=
  match k with
  | ordered => "NUMBERED_DIGIT_ALPHA_ROMAN"
  | unordered => "BULLET_DISC_CIRCLE_SQUARE"
  end.

(** Modelled from the spec: the bullet-range request of a list marker. *)
Definition bulletRequest (loc : Location) (m : ListMarker) : Request :=
  createParagraphBullets loc (marker_start m) (marker_end m)
                         (bulletPresetOf (marker_type m)).

(** Modelled from the spec: the requests for one text container (section
    4.4, rules 2 and 3: the plain text is inserted first, then the style
    ranges and the bullet ranges, each in the order of the definition);
    the generator ([GenericLayout]) is not among the sources. *)
Definition textRequests (loc : Location) (t : TextDefinition) : list Request :=
  insertText loc (rawText t)
  :: map (styleRequest loc) (textRuns t) ++ map (bulletRequest loc) (listMarkers t).

Definition element (elementId : string) : Location :=
  {| loc_objectId := elementId; cellLocation := None |}.

Definition cell (tableId : string) (r c : nat) : Location :=
  {| loc_objectId := tableId;
     cellLocation := Some {| rowIndex := r; columnIndex := c |} |}.

(** Modelled from the spec: a placeholder the template lacks is skipped
    (section 7, recoverable content errors). *)
Definition placeholderRequests (placeholder : option string)
           (t : option TextDefinition) : list Request :=
  match placeholder, t with
  | Some elementId, Some txt => textRequests (element elementId) txt
  | _, _ => []
  end.

(** The elements of a list with their positions, from [i] on. *)
Fixpoint indexed {A} (i : nat) (l : list A) : list (nat * A) :=
  match l with
  | [] => []
  | x :: l' => (i, x) :: indexed (S i) l'
  end.

(** Modelled from the spec: the requests for the cells of row [r], column
    by column. *)
Definition rowRequests (tableId : string) (r : nat) (row : list TextDefinition)
  : list Request :=
  flat_map (fun ct => textRequests (cell tableId r (fst ct)) (snd ct)) (indexed 0 row).

(** Modelled from the spec: the requests for a table (section 4.4, rule
    4: the table is created on the page, then the text of the cells is
    inserted row-major, each cell as a text container of its own). *)
Definition tableRequests (pageId tableId : string) (t : TableDefinition)
  : list Request :=
  createTable tableId pageId (rows t) (columns t)
  :: flat_map (fun rr => rowRequests tableId (fst rr) (snd rr)) (indexed 0 (cells t)).

(** Modelled from the spec: media creation on the page (section 4.4, rule
    5); an image whose url is not resolved is skipped (section 7). *)
Definition imageRequests (pageId : string) (imgs : list RemoteSvg.ImageDefinition)
  : list Request :=
  flat_map (fun img =>
              match RemoteSvg.url img with
              | Some u => [createImage pageId u]
              | None => []
              end) imgs.

(** Modelled from the spec: video creation on the page (section 4.4, rule
    5). *)
Definition videoRequests (pageId : string) (vs : list VideoDefinition) : list Request :=
  map (fun v => createVideo pageId "YOUTUBE" (id v)) vs.

(** Modelled from the spec: the background image, a page-property update
    (section 4.4, rule 6). *)
Definition backgroundRequests (pageId : string)
           (bg : option RemoteSvg.ImageDefinition) : list Request :=
  match bg with
  | Some img =>
      match RemoteSvg.url img with
      | Some u =>
          [updatePageProperties pageId
             "pageBackgroundFill.stretchedPictureFill.contentUrl" u]
      | None => []
      end
  | None => []
  end.

Section Generator.

(** The identifier given to the [k]-th table created on a page. *)
Variable tableIdOf : string -> nat -> string.

(** Modelled from the spec: the requests for body column [i] (section
    4.3 and section 4.4, rules 2 and 5). *)
Definition bodyRequests (tpl : Template) (pageId : string) (i : nat)
           (b : BodyDefinition) : list Request :=
  let (elementId, fresh) := bindBody tpl pageId i in
  (if fresh then [createShape elementId pageId] else [])
  ++ textRequests (element elementId) (text b)
  ++ imageRequests pageId (images b)
  ++ videoRequests pageId (videos b).

(** Modelled from the spec: the body columns, in order. *)
Definition allBodyRequests (tpl : Template) (slide : SlideDefinition) : list Request :=
  flat_map (fun ib => bodyRequests tpl (objectId slide) (fst ib) (snd ib))
           (indexed 0 (bodies slide)).

(** Modelled from the spec: the tables, in order. *)
Definition allTableRequests (slide : SlideDefinition) : list Request :=
  flat_map (fun kt => tableRequests (objectId slide)
                                    (tableIdOf (objectId slide) (fst kt)) (snd kt))
           (indexed 0 (tables slide)).

(** Modelled from the spec: [generate] of section 4.4, the ordered
    requests for one slide bound to a template: the page first (rule 1),
    then its title, subtitle, background, tables, bodies and notes. *)
Definition generate (tpl : Template) (slide : SlideDefinition) : list Request :=
  createSlide (objectId slide)
  :: placeholderRequests (titleElement tpl) (title slide)
  ++ placeholderRequests (subtitleElement tpl) (subtitle slide)
  ++ backgroundRequests (objectId slide) (backgroundImage slide)
  ++ allTableRequests slide
  ++ allBodyRequests tpl slide
  ++ placeholderRequests (notesElement tpl) (notes slide).

End Generator.

(** ** Reading a batch *)

(** What a request does to table [tableId]: it creates it, or fills one
    of its cells with text. *)
Inductive TableEvent : Type :=
| tableCreated (pageObjectId : string) (rows columns : nat)
| cellFilled (rowIndex columnIndex : nat) (text : string).

Definition tableEvent (tableId : string) (r : Request) : option TableEvent :=
  match r with
  | createTable t pageId rs cs =>
      if String.eqb t tableId then Some (tableCreated pageId rs cs) else None
  | insertText loc txt =>
      match cellLocation loc with
      | Some c =>
          if String.eqb (loc_objectId loc) tableId
          then Some (cellFilled (rowIndex c) (columnIndex c) txt)
          else None
      | None => None
      end
  | _ => None
  end.

Definition coordinates (ev : TableEvent) : option (nat * nat) :=
  match ev with
  | tableCreated _ _ _ => None
  | cellFilled r c _ => Some (r, c)
  end.

Fixpoint filter_map {A B} (f : A -> option B) (l : list A) : list B :=
  match l with
  | [] => []
  | x :: l' =>
      match f x with
      | Some y => y :: filter_map f l'
      | None => filter_map f l'
      end
  end.

(** The container a range request (style or bullets) addresses. *)
Definition rangeTarget (r : Request) : option Location :=
  match r with
  | updateTextStyle loc _ _ _ _ => Some loc
  | createParagraphBullets loc _ _ _ => Some loc
  | _ => None
  end.

(** A style request on page element [elementId] for the range from [s]
    to [e]. *)
Definition stylesRange (elementId : string) (s e : nat) (r : Request) : bool :=
  match r with
  | updateTextStyle loc s' e' _ _ =>
      String.eqb (loc_objectId loc) elementId
      && match cellLocation loc with None => true | Some _ => false end
      && (s' =? s)%nat && (e' =? e)%nat
  | _ => false
  end.

Definition runCovers (s e : nat) (run : TextRun) : bool :=
  (start run =? s)%nat && (end_ run =? e)%nat.

(** Every range request of the batch comes after a text insertion into
    the container it addresses. *)
Definition rangesFollowInsertion (batch : list Request) : Prop :=
  forall before r after loc,
    batch = before ++ r :: after ->
    rangeTarget r = Some loc ->
    exists txt, In (insertText loc txt) before.

(** Body column [i] is the only text container of the slide bound to its
    element. *)
Definition ownElement (tpl : Template) (slide : SlideDefinition) (i : nat) : Prop :=
  let e := bodyId tpl (objectId slide) i in
  titleElement tpl <> Some e /\ subtitleElement tpl <> Some e
  /\ notesElement tpl <> Some e
  /\ forall j, j < length (bodies slide) -> j <> i ->
               bodyId tpl (objectId slide) j <> e.

(** The text of the cells with their coordinates, row by row. *)
Definition rowMajor (t : TableDefinition) : list TableEvent :=
  flat_map (fun rr => map (fun ct => cellFilled (fst rr) (fst ct) (rawText (snd ct)))
                          (indexed 0 (snd rr)))
           (indexed 0 (cells t)).

(** ** The fixtures of test/generic_layout.spec.ts *)

Definition newline : string := String (ascii_of_nat 10) EmptyString.

Definition plain (s : string) : TextDefinition :=
  {| rawText := s; textRuns := []; listMarkers := []; big := false |}.

(** The placeholders of the mock presentation that the tests name. *)
Definition mockTemplate : Template :=
  {| titleElement := Some "title-element";
     subtitleElement := Some "subtitle-element";
     bodyElements := ["body-element"; "body-element-2"];
     notesElement := Some "speaker-notes-element" |}.

Definition twoColumnSlide : SlideDefinition :=
  {| objectId := "two-column-slide";
     title := None; subtitle := None; notes := None;
     bodies :=
       [ {| images := []; videos := [];
            text := plain ("This is the left column" ++ newline) |};
         {| images := []; videos := [];
            text := plain ("This is the right column" ++ newline) |} ];
     tables := [];
     backgroundImage := None |}.

Definition animalsTable : TableDefinition :=
  {| rows := 5; columns := 2;
     cells :=
       [ [plain "Animal"; plain "Number"];
         [plain "Fish"; plain "142 million"];
         [plain "Cats"; plain "88 million"];
         [plain "Dogs"; plain "75 million"];
         [plain "Birds"; plain "16 million"] ] |}.

Definition tableSlide : SlideDefinition :=
  {| objectId := "body-slide";
     title := None; subtitle := None; notes := None;
     bodies := [];
     tables := [animalsTable];
     backgroundImage := None |}.

Definition boldStyle : Css.StyleDefinition :=
  {| Css.bold := Some true; Css.italic := None; Css.underline := None;
     Css.strikethrough := None; Css.smallCaps := None; Css.fontFamily := None;
     Css.fontSize := None; Css.foregroundColor := None;
     Css.backgroundColor := None |}.

Definition italicStyle : Css.StyleDefinition :=
  {| Css.bold := None; Css.italic := Some true; Css.underline := None;
     Css.strikethrough := None; Css.smallCaps := None; Css.fontFamily := None;
     Css.fontSize := None; Css.foregroundColor := None;
     Css.backgroundColor := None |}.

Definition courierStyle : Css.StyleDefinition :=
  {| Css.bold := None; Css.italic := None; Css.underline := None;
     Css.strikethrough := None; Css.smallCaps := None;
     Css.fontFamily := Some "Courier New";
     Css.fontSize := None; Css.foregroundColor := None;
     Css.backgroundColor := None |}.

Definition boldRun : TextRun := {| start := 0; end_ := 4; style := boldStyle |}.

Definition tab : string := String (ascii_of_nat 9) EmptyString.

Definition formattedBody : BodyDefinition :=
  {| images := []; videos := [];
     text :=
       {| rawText := "Item 1" ++ newline ++ "Item 2" ++ newline
                     ++ tab ++ "foo" ++ newline ++ tab ++ "bar" ++ newline
                     ++ tab ++ "baz" ++ newline ++ "Item 3" ++ newline;
          textRuns :=
            [ boldRun;
              {| start := 7; end_ := 11; style := italicStyle |};
              {| start := 29; end_ := 33; style := courierStyle |} ];
          listMarkers :=
            [ {| marker_start := 0; marker_end := 36; marker_type := unordered |} ];
          big := false |} |}.

Definition formattedSlide : SlideDefinition :=
  {| objectId := "body-slide";
     title := None; subtitle := None; notes := None;
     bodies := [formattedBody];
     tables := [];
     backgroundImage := None |}.

Fixpoint primes (k : nat) : string :=
  match k with
  | O => EmptyString
  | S k' => String "'" (primes k')
  end.

Definition sampleTableId (pageId : string) (k : nat) : string :=
  pageId ++ "-table" ++ primes k.

End Layout.

(* ====================================================================== *)
(** * The style resolver, read as lookups *)
(* ====================================================================== *)

Module CssLookup.

Import Css.

(** What a keyword property does to a flag: the flag is raised when the
    value is exactly the keyword, and left as it was otherwise. *)
Definition keyword (expected : string) (given : option string) (old : option bool)
  : option bool :=
  match given with
  | Some v => if String.eqb v expected then Some true else old
  | None => old
  end.

Definition fontSizeOf (given : option string) (old : option FontSize) : option FontSize :=
  match given with
  | Some v =>
      match match_fontSize v with
      | Some digits => Some {| magnitude := parseInt digits; unit := "PT" |}
      | None => old
      end
  | None => old
  end.

Definition colorOf (parseColor : string -> ParsedColor) (given : option string)
           (old : option Color) : option Color :=
  match given with
  | Some v => parseColorString parseColor v
  | None => old
  end.

(** The style that [updateStyleDefinition] computes, field by field, from
    the values the normalized rule holds under the seven recognized keys. *)
Definition styleByLookup (parseColor : string -> ParsedColor) (rule : CssRule)
           (style : StyleDefinition) : StyleDefinition :=
  {| bold := keyword "bold" (JsObj.get rule "fontWeight") (bold style);
     italic := keyword "italic" (JsObj.get rule "fontStyle") (italic style);
     underline := keyword "underline" (JsObj.get rule "fontStyle") (underline style);
     strikethrough :=
       keyword "line-through" (JsObj.get rule "fontStyle") (strikethrough style);
     smallCaps := keyword "small-caps" (JsObj.get rule "fontVariant") (smallCaps style);
     fontFamily :=
       match JsObj.get rule "fontFamily" with
       | Some v => Some v
       | None => fontFamily style
       end;
     fontSize := fontSizeOf (JsObj.get rule "fontSize") (fontSize style);
     foregroundColor :=
       colorOf parseColor (JsObj.get rule "color") (foregroundColor style);
     backgroundColor :=
       colorOf parseColor (JsObj.get rule "backgroundColor") (backgroundColor style) |}.

(** A flag is kept: it is what it was, or it has been raised. *)
Definition kept (before after : option bool) : Prop :=
  after = before \/ after = Some true.

(** The value of the last entry of a list of entries whose normalized key
    is [key]. *)
Fixpoint lastNormalized (camelCase : string -> string) (key : string)
         (es : list (string * string)) : option string :=
  match es with
  | [] => None
  | (k, v) :: es' =>
      match lastNormalized camelCase key es' with
      | Some v' => Some v'
      | None => if String.eqb (camelCase k) key then Some v else None
      end
  end.

(** A declaration that [convertCssToObject] keeps: a node of type
    declaration with a value and a property that is not empty and is not
    [__proto__]. *)
Definition keptDeclaration (d : Declaration) : bool :=
  match property d, value d with
  | Some p, Some _ =>
      String.eqb (decl_type d) "declaration" && Str.truthy p
      && negb (String.eqb p "__proto__")
  | _, _ => false
  end.

(** One iteration of the loop over the declarations of a rule. *)
Definition collectStep (acc : CssRule) (d : Declaration) : CssRule :=
  match property d, value d with
  | Some p, Some v =>
      if String.eqb (decl_type d) "declaration" && Str.truthy p
      then assign acc p v
      else acc
  | _, _ => acc
  end.

(** A declaration of [__proto__], for the examples. *)
Definition protoRed : Declaration :=
  {| decl_type := "declaration"; property := Some "__proto__"; value := Some "red" |}.

(** Rule node [r] binds selector [sel]: it is of type rule, has selectors
    and declarations, and [sel] is one of its selectors. *)
Definition binds (sel : string) (r : Rule) : bool :=
  match selectors r, declarations r with
  | Some sels, Some _ =>
      String.eqb (rule_type r) "rule" && existsb (String.eqb sel) sels
  | _, _ => false
  end.

Definition declarationsOf (r : Rule) : list Declaration :=
  match declarations r with
  | Some ds => ds
  | None => []
  end.

(** A style sheet text that reaches the parser: neither empty nor blank. *)
Definition reachesParser (cssString : string) : bool :=
  Str.truthy cssString && negb (String.eqb (Str.trim cssString) "").

Definition sheetOf (rs : list Rule) : ParsedCss :=
  {| stylesheet := Some {| rules := Some rs |} |}.

(** Sample nodes, for the examples. *)
Definition colorRed : Declaration :=
  {| decl_type := "declaration"; property := Some "color"; value := Some "red" |}.

Definition fontSize12 : Declaration :=
  {| decl_type := "declaration"; property := Some "font-size"; value := Some "12pt" |}.

Definition aComment : Declaration :=
  {| decl_type := "comment"; property := None; value := None |}.

Definition h1Color : Rule :=
  {| rule_type := "rule"; selectors := Some ["h1"; "h2"];
     declarations := Some [colorRed] |}.

Definition h1Size : Rule :=
  {| rule_type := "rule"; selectors := Some ["h1"];
     declarations := Some [aComment; fontSize12] |}.

Definition mediaNode : Rule :=
  {| rule_type := "media"; selectors := None; declarations := None |}.

Definition sampleCssParse (s : string) : Js.completion ParsedCss :=
  Js.Return (sheetOf [h1Color; mediaNode; h1Size]).

Definition redOnly (s : string) : ParsedColor :=
  if String.eqb s "red"
  then {| rgba := Some [Num 255; Num 0; Num 0; Num 1] |}
  else {| rgba := None |}.

Definition redStyle : StyleDefinition :=
  set_bold (set_foregroundColor emptyStyle (parseColorString redOnly "red")).

End CssLookup.

(* ====================================================================== *)
(** * Sample collaborators for the image helpers *)
(* ====================================================================== *)

Module ImageSamples.

Import RemoteSvg.

Definition svgText : string := "<svg xmlns='http://www.w3.org/2000/svg'></svg>".

Definition svgGet (u : string) : Js.completion ResponseBody :=
  Js.Return (TextBody svgText).

Definition htmlGet (u : string) : Js.completion ResponseBody :=
  Js.Return (TextBody "<html>Not Found</html>").

Definition failingRender (image : ImageDefinition) : Js.completion string :=
  Js.Throw (Js.Error "Input buffer contains unsupported image format").

Definition errorResponse : Upload.UploadResponse :=
  {| Upload.status := Some "error"; Upload.data := None |}.

Definition errorPost (filePath : string) : Js.completion Upload.UploadResponse :=
  Js.Return errorResponse.

Definition inlineSheet (s : string) : Js.completion Css.ParsedCss :=
  Js.Return (CssLookup.sheetOf
               [ {| Css.rule_type := "rule"; Css.selectors := Some ["dummy"];
                    Css.declarations := Some [CssLookup.colorRed] |};
                 {| Css.rule_type := "rule"; Css.selectors := Some [".dummy"];
                    Css.declarations := Some [CssLookup.fontSize12] |} ]).

End ImageSamples.

(* ====================================================================== *)
(** * Effects: external calls that update a world and may reject *)
(* ====================================================================== *)

Module Fx.

(** A computation over a world [W]: it returns or throws, and gives the
    world back either way (what was done before a failure stays done). *)
Definition M (W A : Type) : Type := W -> Js.completion A * W.

Definition ret {W A} (a : A) : M W A := fun w => (Js.Return a, w).

Definition throw {W A} (e : Js.exn) : M W A := fun w => (Js.Throw e, w).

Definition bind {W A B} (m : M W A) (k : A -> M W B) : M W B :=
  fun w =>
    match m w with
    | (Js.Return a, w') => k a w'
    | (Js.Throw e, w') => (Js.Throw e, w')
    end.

(** [try { m } finally { f }]: [f] runs whatever [m] did, and a failure of
    [f] takes the place of the outcome of [m]. *)
Definition try_finally {W A} (m : M W A) (f : M W unit) : M W A :=
  fun w =>
    match m w with
    | (r, w') =>
        match f w' with
        | (Js.Return _, w'') => (r, w'')
        | (Js.Throw e, w'') => (Js.Throw e, w'')
        end
    end.

(** [try { m } catch (err) { h err }] *)
Definition try_catch {W A} (m : M W A) (h : Js.exn -> M W A) : M W A :=
  fun w =>
    match m w with
    | (Js.Return a, w') => (Js.Return a, w')
    | (Js.Throw e, w') => h e w'
    end.

Definition succeeded {A} (r : Js.completion A) : bool :=
  match r with Js.Return _ => true | Js.Throw _ => false end.

(** [post m Q w]: run from world [w], [m] ends with an outcome and a world
    that satisfy [Q]. *)
Definition post {W A} (m : M W A) (Q : Js.completion A -> W -> Prop) (w : W) : Prop :=
  Q (fst (m w)) (snd (m w)).

End Fx.

Notation "x <~ m ;; k" := (Fx.bind m (fun x => k))
  (at level 61, m at next level, right associativity).

(* ====================================================================== *)
(** * Rendering an SVG to a PNG file *)
(* ====================================================================== *)

From Stdlib Require Import Qround.

Module Svg.

Definition Browser : Type := nat.
Definition Page : Type := nat.

(** The calls made to the file system, to sharp and to the browser. *)
Inductive Call : Type :=
| TmpName (postfix : string)
| WriteFile (path content : string)
| SharpToFile (source : string) (density : Z) (path : string)
| Launch
| NewPage (browser : Browser)
| SetContent (page : Page) (html : string)
| Evaluate (page : Page)
| SetViewport (page : Page) (width height deviceScaleFactor : Z)
| Screenshot (page : Page) (path : string)
| ClosePage (page : Page).

(** A call that was made, and whether it succeeded. *)
Record Event : Type := { call : Call; ok : bool }.

(** The module-level [browserInstance], the number of external calls made
    so far and the calls themselves, oldest first. *)
Record World : Type := {
  browserInstance : option Browser;
  clock : nat;
  trace : list Event
}.

Definition initialWorld : World :=
  {| browserInstance := None; clock := 0; trace := [] |}.

(** An external call: its outcome is given by the environment at the
    current time; the call is recorded and time advances. *)
Definition tick (w : World) (c : Call) (success : bool) : World :=
  {| browserInstance := browserInstance w;
     clock := S (clock w);
     trace := trace w ++ [{| call := c; ok := success |}] |}.

Definition external {A} (c : Call) (outcome : nat -> Js.completion A) : Fx.M World A :=
  fun w =>
    let r := outcome (clock w) in
    (r, tick w c (Fx.succeeded r)).

Definition set_browserInstance (b : Browser) : Fx.M World unit :=
  fun w =>
    (Js.Return tt,
     {| browserInstance := Some b; clock := clock w; trace := trace w |}).

(** The error thrown by [assert(image.source)]. *)
Definition assertionError : Js.exn :=
  Js.Error "The expression evaluated to a falsy value".

Definition nl : string := String (ascii_of_nat 10) EmptyString.
Definition dq : string := String (ascii_of_nat 34) EmptyString.

(** The page built around the SVG, up to the source and after it. *)
Definition htmlBefore : string :=
  String.concat nl
    [ "";
      "        <!DOCTYPE html>";
      "        <html>";
      "          <head>";
      ("            <meta charset=" ++ dq ++ "utf-8" ++ dq ++ ">")%string;
      "            <style>";
      "              body {";
      "                margin: 0;";
      "                padding: 0;";
      "                display: flex;";
      "                justify-content: center;";
      "                align-items: center;";
      "                background: white;";
      "              }";
      "              svg {";
      "                display: block;";
      "              }";
      "            </style>";
      "          </head>";
      "          <body>";
      "            " ].

Definition htmlAfter : string :=
  String.concat nl [ ""; "          </body>"; "        </html>"; "      " ].

Definition htmlPage (source : string) : string := htmlBefore ++ source ++ htmlAfter.

(** The size read in the page: that of the first svg element, rounded up,
    or 800 by 200 when the page has none. *)
Definition dimensionsOf (rect : option (Q * Q)) : Z * Z :=
  match rect with
  | None => (800, 200)%Z
  | Some (w, h) => (Qceiling w, Qceiling h)
  end.

Section Renderer.

(** The environment: the outcome of each external call at a given time. *)
Variable tmpName : nat -> string -> Js.completion string.
Variable writeFile : nat -> string -> string -> Js.completion unit.
Variable sharpToFile : nat -> string -> Z -> string -> Js.completion unit.
Variable launch : nat -> Js.completion Browser.
Variable newPage : nat -> Browser -> Js.completion Page.
Variable setContent : nat -> Page -> string -> Js.completion unit.
Variable evaluate : nat -> Page -> Js.completion (option (Q * Q)).
Variable setViewport : nat -> Page -> Z -> Z -> Z -> Js.completion unit.
Variable screenshot : nat -> Page -> string -> Js.completion unit.
Variable closePage : nat -> Page -> Js.completion unit.

(** [assert(image.source)] *)
Definition assertSource (image : RemoteSvg.ImageDefinition) : Fx.M World string :=
  match RemoteSvg.source image with
  | None => Fx.throw assertionError
  | Some src => if Str.truthy src then Fx.ret src else Fx.throw assertionError
  end.

(** [renderSVG] of src/images/svg.ts: sharp only. *)
Definition renderSVG (image : RemoteSvg.ImageDefinition) : Fx.M World string :=
  src <~ assertSource image ;;
  path <~ external (TmpName ".png") (fun t => tmpName t ".png") ;;
  _ <~ external (SharpToFile src 300 path) (fun t => sharpToFile t src 300 path) ;;
  Fx.ret path.

(** [getBrowser] is in two parts, since other calls can run while it
    awaits the launch.  First [browserInstance] is read, for the test
    [if (!browserInstance)]. *)
Definition readBrowser : Fx.M World (option Browser) :=
  fun w => (Js.Return (browserInstance w), w).

(** Then, with what the test has seen: with no browser,
    [browserInstance = await puppeteer.launch(...)]; in both cases
    [return browserInstance]. *)
Definition getBrowserFrom (seen : option Browser) : Fx.M World Browser :=
  match seen with
  | Some b => Fx.ret b
  | None =>
      b <~ external Launch launch ;;
      _ <~ set_browserInstance b ;;
      Fx.ret b
  end.

(** [getBrowser], when no other call runs before it ends: the browser is
    launched on first use and kept. *)
Definition getBrowser : Fx.M World Browser :=
  seen <~ readBrowser ;;
  getBrowserFrom seen.


(** The body of the [try] block of the browser branch. *)
Definition renderInPage (page : Page) (src pngPath : string) : Fx.M World unit :=
  _ <~ external (SetContent page (htmlPage src))
                (fun t => setContent t page (htmlPage src)) ;;
  rect <~ external (Evaluate page) (fun t => evaluate t page) ;;
  let (width, height) := dimensionsOf rect in
  _ <~ external (SetViewport page width height 2)
                (fun t => setViewport t page width height 2) ;;
  external (Screenshot page pngPath) (fun t => screenshot t page pngPath).

(** [renderSVG] with the browser branch, after the assertion: an SVG that
    holds a foreignObject is rendered in a page, any other by sharp. *)
Definition renderSource (src : string) : Fx.M World string :=
  svgPath <~ external (TmpName ".svg") (fun t => tmpName t ".svg") ;;
  _ <~ external (WriteFile svgPath src) (fun t => writeFile t svgPath src) ;;
  pngPath <~ external (TmpName ".png") (fun t => tmpName t ".png") ;;
  _ <~ (if Str.includes src "foreignObject"
        then
          browser <~ getBrowser ;;
          page <~ external (NewPage browser) (fun t => newPage t browser) ;;
          Fx.try_finally (renderInPage page src pngPath)
                         (external (ClosePage page) (fun t => closePage t page))
        else
          external (SharpToFile src 300 pngPath)
                   (fun t => sharpToFile t src 300 pngPath)) ;;
  Fx.ret pngPath.

Definition renderSVGWithBrowser (image : RemoteSvg.ImageDefinition) : Fx.M World string :=
  src <~ assertSource image ;;
  renderSource src.

(** Rendering the images of a list one after the other, whatever the
    outcome of each: the world after the last one. *)
Definition renderAll (images : list RemoteSvg.ImageDefinition) (w : World) : World :=
  fold_left (fun w' image => snd (renderSVGWithBrowser image w')) images w.

End Renderer.

(** ** Reading a trace *)

Definition isOpened (e : Event) : bool :=
  match call e with NewPage _ => ok e | _ => false end.

Definition isClose (e : Event) : bool :=
  match call e with ClosePage _ => true | _ => false end.

Definition isLaunched (e : Event) : bool :=
  match call e with Launch => ok e | _ => false end.

Definition isBrowserCall (e : Event) : bool :=
  match call e with
  | Launch | NewPage _ | SetContent _ _ | Evaluate _ | SetViewport _ _ _ _
  | Screenshot _ _ | ClosePage _ => true
  | _ => false
  end.

Definition isSharp (e : Event) : bool :=
  match call e with SharpToFile _ _ _ => true | _ => false end.

Definition count (f : Event -> bool) (t : list Event) : nat := length (filter f t).

(** What one rendering adds to the trace and does to the browser: every
    page opened is closed, and the browser is launched only when there is
    none, and then kept. *)
Definition stepFacts (w w' : World) (delta : list Event) : Prop :=
  count isOpened delta = count isClose delta
  /\ match browserInstance w with
     | Some b => browserInstance w' = Some b /\ count isLaunched delta = 0
     | None =>
         (browserInstance w' = None /\ count isLaunched delta = 0)
         \/ (exists b, browserInstance w' = Some b /\ count isLaunched delta = 1)
     end.

(** The world reached from [w] by the calls [delta]. *)
Definition reached (w w' : World) (delta : list Event) : Prop :=
  trace w' = trace w ++ delta.

(** What the rendering of a source adds to the trace: the calls of one
    renderer only, and when it returns a path, the path [tmpName] gave for
    the PNG and the successful call that wrote the image there. *)
Definition renderFacts (tmpName : nat -> string -> Js.completion string)
           (src : string) (r : Js.completion string) (delta : list Event) : Prop :=
  (if Str.includes src "foreignObject"
   then count isSharp delta = 0
   else count isBrowserCall delta = 0)
  /\ forall path,
      r = Js.Return path ->
      (exists t, tmpName t ".png" = Js.Return path)
      /\ if Str.includes src "foreignObject"
         then exists page, In {| call := Screenshot page path; ok := true |} delta
         else In {| call := SharpToFile src 300 path; ok := true |} delta.

(** A page that could not be closed rejects the rendering. *)
Definition closeFailureRejects (r : Js.completion string) (delta : list Event) : Prop :=
  forall page, In {| call := ClosePage page; ok := false |} delta ->
               Fx.succeeded r = false.



Definition htmlSvg : RemoteSvg.ImageDefinition :=
  RemoteSvg.withSource RemoteSvg.remoteImage
    "<svg><foreignObject><div>x</div></foreignObject></svg>".

Definition tmpNames (t : nat) (postfix : string) : Js.completion string :=
  Js.Return ("/tmp/tmp-1" ++ postfix)%string.

Definition done3 {A B C} (t : nat) (a : A) (b : B) (c : C) : Js.completion unit :=
  Js.Return tt.

Definition done2 {A B} (t : nat) (a : A) (b : B) : Js.completion unit := Js.Return tt.

Definition done1 {A} (t : nat) (a : A) : Js.completion unit := Js.Return tt.

Definition done4 {A B C D} (t : nat) (a : A) (b : B) (c : C) (d : D)
  : Js.completion unit := Js.Return tt.

Definition launches (t : nat) : Js.completion Browser := Js.Return 1.


Definition opensPage (t : nat) (b : Browser) : Js.completion Page := Js.Return t.

Definition noRect (t : nat) (p : Page) : Js.completion (option (Q * Q)) := Js.Return None.

Definition screenshotFails (t : nat) (p : Page) (path : string) : Js.completion unit :=
  Js.Throw (Js.Error "Protocol error").

Definition closeFails (t : nat) (p : Page) : Js.completion unit :=
  Js.Throw (Js.Error "Target closed").

End Svg.

(* ====================================================================== *)
(** * The user authorizer *)
(* ====================================================================== *)

Module Auth.

(** An optional property of an object: not there, there with [null] or
    [undefined], or there with a value. *)
Inductive Field (A : Type) : Type :=
| Absent
| Nullish
| Has (a : A).

Arguments Absent {A}.
Arguments Nullish {A}.
Arguments Has {A} a.

(** [Credentials] of google-auth-library. *)
Record Credentials : Type := {
  refresh_token : Field string;
  expiry_date : Field Z;
  access_token : Field string;
  token_type : Field string;
  id_token : Field string;
  scope : Field string
}.

(** [if (f)] for a string property. *)
Definition truthy (f : Field string) : bool :=
  match f with
  | Has s => Str.truthy s
  | _ => false
  end.

(** One property of [{...base, ...newer}]. *)
Definition over {A} (base newer : Field A) : Field A :=
  match newer with
  | Absent => base
  | _ => newer
  end.

(** [{...base, ...newer}] *)
Definition spread (base newer : Credentials) : Credentials :=
  {| refresh_token := over (refresh_token base) (refresh_token newer);
     expiry_date := over (expiry_date base) (expiry_date newer);
     access_token := over (access_token base) (access_token newer);
     token_type := over (token_type base) (token_type newer);
     id_token := over (id_token base) (id_token newer);
     scope := over (scope base) (scope newer) |}.

(** [this.db.data]: the credentials by user id. *)
Definition Db : Type := JsObj.t Credentials.

(** The client handed back, named by how it was made: the [OAuth2Client]
    made by [new OAuth2Client()] and [setCredentials(tokens)], or the
    client [authenticate] resolved with, whose [credentials] were the given
    ones when it resolved.  What a client holds later is up to the library
    (a refresh gives it new credentials) and is not part of the name. *)
Inductive Client : Type :=
| OAuth2Client (tokens : Credentials)
| LocalAuthClient (credentials : Credentials).

(** The calls that leave the authorizer. *)
Inductive Call : Type :=
| GetAccessToken (tokens : Credentials)
| Authenticate (scopes : list string) (keyfilePath : string)
| DbWrite (content : Db).

Record Event : Type := { call : Call; ok : bool }.

(** The authorizer's database, with a clock that numbers the calls and the
    calls that have ended, oldest first. *)
Record World : Type := {
  data : Db;
  clock : nat;
  trace : list Event
}.

(** What [getAccessToken] does with the listener for ['tokens']: it emits
    new tokens any number of times, seeing how the listener ended each
    time, and then resolves or rejects. *)
Inductive Refresh : Type :=
| Settle (outcome : Js.completion unit)
| Emit (newTokens : Credentials) (next : Js.completion unit -> Refresh).

Definition tick (w : World) (c : Call) (success : bool) : World :=
  {| data := data w;
     clock := S (clock w);
     trace := trace w ++ [{| call := c; ok := success |}] |}.

Definition external {A} (c : Call) (outcome : nat -> Js.completion A) : Fx.M World A :=
  fun w => let r := outcome (clock w) in (r, tick w c (Fx.succeeded r)).

(** [this.db.data[user] = credentials] *)
Definition set_data (user : string) (credentials : Credentials) : Fx.M World unit :=
  fun w =>
    (Js.Return tt,
     {| data := JsObj.set (data w) user credentials;
        clock := clock w;
        trace := trace w |}).

(** The listener is called with each of the tokens emitted. *)
Fixpoint emitAll (listener : Credentials -> Fx.M World unit) (r : Refresh)
  : Fx.M World unit :=
  fun w =>
    match r with
    | Settle outcome => (outcome, w)
    | Emit newTokens next =>
        let (ended, w') := listener newTokens w in
        emitAll listener (next ended) w'
    end.


Definition isAuthenticate (e : Event) : bool :=
  match call e with Authenticate _ _ => true | _ => false end.

Definition isWrite (e : Event) : bool :=
  match call e with DbWrite _ => true | _ => false end.

Definition count (f : Event -> bool) (l : list Event) : nat := length (filter f l).

(** Every entry of the database has a refresh token. *)
Definition refreshable (d : Db) : bool :=
  forallb (fun e => truthy (refresh_token (snd e))) d.


(** What the listener does to the world at most: it stores credentials
    with a refresh token for [user], and writes the database. *)
Definition onlyStores (user : string) (w w' : World) : Prop :=
  (forall u, u <> user -> JsObj.get (data w') u = JsObj.get (data w) u)
  /\ (refreshable (data w) = true -> refreshable (data w') = true)
  /\ exists delta, trace w' = trace w ++ delta /\ forallb isWrite delta = true.

Section Authorizer.

(** [options.keyfilePath], and the environment: the OAuth client,
    [authenticate] of @google-cloud/local-auth and the database adapter,
    each answering by the time of the call. *)
Variable keyfilePath : string.
Variable getAccessToken : nat -> Credentials -> Refresh.
Variable authenticate : nat -> list string -> string -> Js.completion Credentials.
Variable dbWrite : nat -> Db -> Js.completion unit.

(** [this.db.write()] *)
Definition write : Fx.M World unit :=
  fun w => external (DbWrite (data w)) (fun t => dbWrite t (data w)) w.

(** [this.db.data[user] = credentials; this.db.write();] *)
Definition store (user : string) (credentials : Credentials) : Fx.M World unit :=
  _ <~ set_data user credentials ;;
  write.

(** The listener for ['tokens'] set up by [getUserCredentials]. *)
Definition onTokens (user : string) (tokens newTokens : Credentials) : Fx.M World unit :=
  if truthy (refresh_token newTokens)
  then store user (spread tokens newTokens)
  else Fx.ret tt.

(** [await oauth2Client.getAccessToken()], with the listener in place. *)
Definition refresh (user : string) (tokens : Credentials) : Fx.M World unit :=
  fun w =>
    let (r, w') := emitAll (onTokens user tokens) (getAccessToken (clock w) tokens) w in
    (r, tick w' (GetAccessToken tokens) (Fx.succeeded r)).


(** The second half of [getUserCredentials]: authenticate and store. *)
Definition reauthenticate (user : string) (scopes : list string) : Fx.M World Client :=
  credentials <~ external (Authenticate scopes keyfilePath)
                          (fun t => authenticate t scopes keyfilePath) ;;
  _ <~ (if truthy (refresh_token credentials)
        then store user credentials
        else Fx.ret tt) ;;
  Fx.ret (LocalAuthClient credentials).

Definition getUserCredentials (user : string) (scopes : list string) : Fx.M World Client :=
  fun w =>
    match JsObj.get (data w) user with
    | Some tokens =>
        match refresh user tokens w with
        | (Js.Return _, w') => (Js.Return (OAuth2Client tokens), w')
        | (Js.Throw _, w') => reauthenticate user scopes w'
        end
    | None => reauthenticate user scopes w
    end.

(** The listener called with each of [news], one after the other. *)
Definition onTokensAll (user : string) (tokens : Credentials) (news : list Credentials)
           (w : World) : World :=
  fold_left (fun w' newTokens => snd (onTokens user tokens newTokens w')) news w.

End Authorizer.

(** Sample tokens and environments. *)
Definition expired : Credentials :=
  {| refresh_token := Has "1/abc"; expiry_date := Has 1%Z;
     access_token := Has "ya29.123"; token_type := Has "Bearer";
     id_token := Absent; scope := Has "slides" |}.

Definition refreshed : Credentials :=
  {| refresh_token := Has "1/def"; expiry_date := Has 3920%Z;
     access_token := Has "new_token"; token_type := Has "Bearer";
     id_token := Absent; scope := Absent |}.

Definition accessOnly : Credentials :=
  {| refresh_token := Absent; expiry_date := Has 3920%Z;
     access_token := Has "new_token"; token_type := Has "Bearer";
     id_token := Absent; scope := Absent |}.

Definition sampleDb : Db := [("expired", expired); ("current", expired)].

Definition sampleWorld : World := {| data := sampleDb; clock := 0; trace := [] |}.

Definition refreshes (_ : nat) (_ : Credentials) : Refresh :=
  Emit refreshed (fun _ => Settle (Js.Return tt)).


Definition refreshFails (_ : nat) (_ : Credentials) : Refresh :=
  Settle (Js.Throw (Js.Error "invalid_grant")).

Definition authenticates (_ : nat) (_ : list string) (_ : string) : Js.completion Credentials :=
  Js.Return refreshed.

Definition authenticateFails (_ : nat) (_ : list string) (_ : string)
  : Js.completion Credentials :=
  Js.Throw (Js.Error "access_denied").

Definition written (_ : nat) (_ : Db) : Js.completion unit := Js.Return tt.

Definition slidesScope : list string := ["https://www.googleapis.com/auth/slides"].

End Auth.

(* ====================================================================== *)
(** * Rendering a math expression *)
(* ====================================================================== *)

Module Math.

(** [KATEX_CSS], line by line. *)
Definition KATEX_CSS : string := String.concat Svg.nl [
  EmptyString;
  ".katex {";
  "  font: normal 1.21em KaTeX_Main, Times New Roman, serif;";
  "  line-height: 1.2;";
  "  text-indent: 0;";
  "  text-rendering: auto;";
  "}";
  ".katex * {";
  "  -ms-high-contrast-adjust: none !important;";
  "  border-color: currentColor;";
  "}";
  ".katex .katex-mathml {";
  "  position: absolute;";
  "  clip: rect(1px, 1px, 1px, 1px);";
  "  padding: 0;";
  "  border: 0;";
  "  height: 1px;";
  "  width: 1px;";
  "  overflow: hidden;";
  "}";
  ".katex .base {";
  "  position: relative;";
  "  display: inline-block;";
  "  white-space: nowrap;";
  "  width: min-content;";
  "}";
  ".katex .strut {";
  "  display: inline-block;";
  "}";
  ".katex .mord,";
  ".katex .mop,";
  ".katex .mbin,";
  ".katex .mrel,";
  ".katex .mopen,";
  ".katex .mclose,";
  ".katex .mpunct,";
  ".katex .minner {";
  "  display: inline-block;";
  "}";
  ".katex .mord + .mop,";
  ".katex .mord + .mrel,";
  ".katex .mord + .mbin {";
  "  margin-left: 0.16667em;";
  "}";
  ".katex .mbin + .mord,";
  ".katex .mbin + .mop,";
  ".katex .mbin + .mopen,";
  ".katex .mbin + .minner {";
  "  margin-left: 0.16667em;";
  "}";
  ".katex .mrel + .mord,";
  ".katex .mrel + .mop,";
  ".katex .mrel + .mopen,";
  ".katex .mrel + .minner {";
  "  margin-left: 0.16667em;";
  "}";
  ".katex .mop + .mord,";
  ".katex .mop + .mop,";
  ".katex .mop + .mopen,";
  ".katex .mop + .minner {";
  "  margin-left: 0.16667em;";
  "}";
  ".katex .mclose + .mop,";
  ".katex .mclose + .mbin,";
  ".katex .mclose + .mrel,";
  ".katex .mclose + .minner,";
  ".katex .mpunct + .mord,";
  ".katex .mpunct + .mop,";
  ".katex .mpunct + .mopen,";
  ".katex .mpunct + .mclose,";
  ".katex .mpunct + .mpunct,";
  ".katex .mpunct + .minner {";
  "  margin-left: 0.16667em;";
  "}";
  ".katex .minner + .mord,";
  ".katex .minner + .mop,";
  ".katex .minner + .mbin,";
  ".katex .minner + .mrel,";
  ".katex .minner + .mopen,";
  ".katex .minner + .mpunct,";
  ".katex .minner + .minner {";
  "  margin-left: 0.16667em;";
  "}";
  ".katex .mord + .minner {";
  "  margin-left: 0.16667em;";
  "}";
  ".katex .nulldelimiter {";
  "  display: inline-block;";
  "  width: 0;";
  "}";
  ".katex .delimsizing {";
  "  display: inline-block;";
  "}";
  ".katex .sizing,";
  ".katex .fontsize-ensurer {";
  "  display: inline-block;";
  "}";
  ".katex .op-symbol {";
  "  position: relative;";
  "}";
  ".katex .op-symbol.small-op {";
  "  font-family: KaTeX_Size1;";
  "}";
  ".katex .op-symbol.large-op {";
  "  font-family: KaTeX_Size2;";
  "}";
  ".katex .accent > .vlist-t {";
  "  text-align: center;";
  "}";
  ".katex .accent .accent-body {";
  "  position: relative;";
  "}";
  ".katex .frac-line {";
  "  display: inline-block;";
  "  width: 100%;";
  "  border-bottom-style: solid;";
  "  border-bottom-width: 0.04em;";
  "}";
  ".katex .sqrt > .root {";
  "  margin-left: 0.27777778em;";
  "  margin-right: -0.55555556em;";
  "}";
  ".katex .vlist-t {";
  "  display: inline-table;";
  "  table-layout: fixed;";
  "  border-collapse: collapse;";
  "}";
  ".katex .vlist-r {";
  "  display: table-row;";
  "}";
  ".katex .vlist {";
  "  display: table-cell;";
  "  vertical-align: bottom;";
  "  position: relative;";
  "}";
  ".katex .vlist > span {";
  "  display: block;";
  "  height: 0;";
  "  position: relative;";
  "}";
  ".katex .vlist > span > span {";
  "  display: inline-block;";
  "}";
  ".katex .vlist-s {";
  "  display: table-cell;";
  "  vertical-align: bottom;";
  "  font-size: 1px;";
  "  width: 1px;";
  "  min-width: 1px;";
  "}";
  ".katex .vlist-t2 {";
  "  margin-right: -2px;";
  "}";
  EmptyString
].

Definition dq : string := Svg.dq.

(** The text of [svg] in [renderMath] up to the end of the attributes of
    its first tag ([width] is 800 and [height] 200). *)
Definition svgTag : string :=
  "<svg xmlns=" ++ dq ++ "http://www.w3.org/2000/svg" ++ dq
  ++ " width=" ++ dq ++ "800" ++ dq
  ++ " height=" ++ dq ++ "200" ++ dq
  ++ " viewBox=" ++ dq ++ "0 0 800 200" ++ dq.

(** The text between the first tag and the html ([scale] is 5). *)
Definition svgBefore : string := String.concat Svg.nl [
  EmptyString;
  "  <defs>";
  ("    <style type=" ++ dq ++ "text/css" ++ dq ++ ">")%string;
  ("      " ++ KATEX_CSS)%string;
  "      .katex { font-size: 5em; color: #000; }";
  "    </style>";
  "  </defs>";
  ("  <foreignObject width=" ++ dq ++ "100%" ++ dq ++ " height=" ++ dq ++ "100%" ++ dq
   ++ ">")%string;
  ("    <div xmlns=" ++ dq ++ "http://www.w3.org/1999/xhtml" ++ dq
   ++ " style=" ++ dq
   ++ "display: flex; align-items: center; justify-content: center; height: 100%;"
   ++ dq ++ ">")%string;
  "      "
].

(** The text after the html. *)
Definition svgAfter : string := String.concat Svg.nl [
  EmptyString;
  "    </div>";
  "  </foreignObject>";
  "</svg>"
].

(** The template of [renderMath] around the html of KaTeX. *)
Definition svgFor (html : string) : string :=
  svgTag ++ ">" ++ svgBefore ++ html ++ svgAfter.

(** [s.slice(0, n)] *)
Fixpoint take (n : nat) (s : string) : string :=
  match n, s with
  | O, _ => EmptyString
  | S _, EmptyString => EmptyString
  | S n', String c s' => String c (take n' s')
  end.

(** The number of characters before the first [c], or before the end. *)
Fixpoint runNot (c : ascii) (s : string) : nat :=
  match s with
  | EmptyString => 0
  | String a s' => if Ascii.eqb a c then 0 else S (runNot c s')
  end.

(** [s.indexOf(c)]; [None] stands for -1. *)
Fixpoint indexOf (c : ascii) (s : string) : option nat :=
  match s with
  | EmptyString => None
  | String a s' =>
      if Ascii.eqb a c then Some 0
      else match indexOf c s' with
           | Some i => Some (S i)
           | None => None
           end
  end.

(** A literal of a pattern, then the rest [k] of the pattern. *)
Definition lit {R} (p : string) (s : string) (k : string -> option R) : option R :=
  if String.prefix p s then k (Str.drop (String.length p) s) else None.

(** A greedy repetition that takes [n] characters at most and one at
    least: the longest is tried first, and one character is given back
    each time the rest [k] of the pattern fails. *)
Fixpoint backtrack {R} (n : nat) (s : string) (k : string -> string -> option R)
  : option R :=
  match n with
  | O => None
  | S n' =>
      match k (take n s) (Str.drop n s) with
      | Some r => Some r
      | None => backtrack n' s k
      end
  end.

(** [[^c]+], then the rest [k] of the pattern. *)
Definition plusNot {R} (c : ascii) (s : string) (k : string -> string -> option R)
  : option R :=
  backtrack (runNot c s) s k.

(** The groups 1, 2 and 3 of a match. *)
Record Match : Type := { m1 : string; m2 : string; m3 : string }.

Definition gt : ascii := ">"%char.
Definition quote : ascii := ascii_of_nat 34.
Definition styleEq : string := "style=" ++ dq.

(** The pattern of [addOrMergeStyles], matched where [s] begins:
    [/(<svg[^>]+)(style=Q([^Q]+)Q)([^>]+>)/], with Q for the double
    quote. *)
Definition matchHere (s : string) : option Match :=
  lit "<svg" s (fun s1 =>
  plusNot gt s1 (fun attributes s2 =>
  lit styleEq s2 (fun s3 =>
  plusNot quote s3 (fun value s4 =>
  lit dq s4 (fun s5 =>
  plusNot gt s5 (fun _ s6 =>
  lit ">" s6 (fun _ =>
  Some {| m1 := "<svg" ++ attributes;
          m2 := styleEq ++ value ++ dq;
          m3 := value |}))))))).

(** [s.match(...)]: the first place where the pattern matches. *)
Fixpoint matchFirst (s : string) : option Match :=
  match matchHere s with
  | Some m => Some m
  | None =>
      match s with
      | EmptyString => None
      | String _ s' => matchFirst s'
      end
  end.

(** The merge of [addOrMergeStyles] for a style that is not empty. *)
Definition mergeStyle (svg style : string) : string :=
  match matchFirst svg with
  | Some m =>
      take (String.length (m1 m)) svg
      ++ "style=" ++ dq ++ style ++ ";" ++ m3 m ++ dq
      ++ Str.drop (String.length (m1 m) + String.length (m2 m)) svg
  | None =>
      let i := match indexOf gt svg with
               | Some i => i
               | None => String.length svg - 1
               end in
      take i svg ++ " style=" ++ dq ++ style ++ dq ++ Str.drop i svg
  end.

Definition addOrMergeStyles (svg : string) (style : option string) : string :=
  match style with
  | None => svg
  | Some st => if Str.truthy st then mergeStyle svg st else svg
  end.

(** Where [s.match] finds the pattern when it is not at the start. *)
Definition tagInside (s : string) : bool := Str.includes s "<svg".

(** Some suffix of [a] begins [p], and [b] goes on with the rest of it. *)
Fixpoint straddles (a b p : string) : bool :=
  match a with
  | EmptyString => false
  | String _ a' =>
      (String.prefix a p && String.prefix (Str.drop (String.length a) p) b)
      || straddles a' b p
  end.

(** An [ImageDefinition] with its [style]. *)
Record StyledImage : Type := {
  definition : RemoteSvg.ImageDefinition;
  style : option string
}.

Section Renderer.

(** [katex.renderToString] with the options of [renderMath], and the
    environment of [renderSVG]. *)
Variable renderToString : string -> Js.completion string.
Variable tmpName : nat -> string -> Js.completion string.
Variable sharpToFile : nat -> string -> Z -> string -> Js.completion unit.

(** [image.source = ...; image.type = 'svg'] *)
Definition mathImage (image : StyledImage) (html : string) : RemoteSvg.ImageDefinition :=
  RemoteSvg.withSource (definition image) (addOrMergeStyles (svgFor html) (style image)).

Definition renderMath (image : StyledImage) : Fx.M Svg.World string :=
  src <~ Svg.assertSource (definition image) ;;
  html <~ (fun w => (renderToString (Str.trim src), w)) ;;
  Svg.renderSVG tmpName sharpToFile (mathImage image html).

End Renderer.

(** Sample images and a sample KaTeX. *)
Definition fraction : StyledImage :=
  {| definition := {| RemoteSvg.url := None; RemoteSvg.source := Some " x^2 ";
                      RemoteSvg.type := Some "math"; RemoteSvg.width := 0;
                      RemoteSvg.height := 0; RemoteSvg.padding := 0;
                      RemoteSvg.offsetX := 0; RemoteSvg.offsetY := 0 |};
     style := Some "color: red" |}.

Definition sampleKatex (expression : string) : Js.completion string :=
  Js.Return ("<span class=" ++ dq ++ "katex" ++ dq ++ ">" ++ expression ++ "</span>")%string.

Definition styledSvg : string :=
  "<svg width=" ++ dq ++ "10" ++ dq ++ " style=" ++ dq ++ "fill: blue" ++ dq
  ++ " height=" ++ dq ++ "10" ++ dq ++ "><g/></svg>".

End Math.

(* ====================================================================== *)
(** * Properties of objects and strings *)
(* ====================================================================== *)

Module JsObjFacts.

Import JsObj.

Lemma filter_none {A} (f : A -> bool) (l : list A) :
  (forall x, In x l -> f x = false) -> filter f l = [].
Proof.
  induction l as [|x l IH]; simpl; intros H; [reflexivity|].
  rewrite (H x) by auto. apply IH. auto.
Qed.

Lemma keys_set {V} (o : t V) k v k' :
  In k' (keys (set o k v)) -> k' = k \/ In k' (keys o).
Proof.
  induction o as [|[k0 v0] o IH]; simpl.
  - intros [H|[]]; auto.
  - destruct (String.eqb k0 k) eqn:E; simpl.
    + intros [H|H]; auto.
    + intros [H|H]; auto. destruct (IH H); auto.
Qed.

Lemma In_insert_index {V} (e x : string * V) l :
  In e (insert_index x l) <-> e = x \/ In e l.
Proof.
  induction l as [|y l IH]; simpl.
  - intuition.
  - destruct (N.leb _ _); simpl; rewrite ?IH; intuition.
Qed.

Lemma In_sort_index {V} (e : string * V) l : In e (sort_index l) <-> In e l.
Proof.
  induction l as [|y l IH]; simpl; [tauto|].
  rewrite In_insert_index, IH. intuition.
Qed.

(** [Object.entries] lists exactly the properties of the object. *)
Lemma In_entries {V} (e : string * V) (o : t V) : In e (entries o) <-> In e o.
Proof.
  unfold entries. rewrite in_app_iff, In_sort_index, !filter_In.
  destruct (is_array_index (fst e)); simpl; intuition congruence.
Qed.

Lemma keys_fold_set {V} (f : string -> string) (l : list (string * V)) :
  forall (o : t V) k,
    In k (keys (fold_left (fun r e => set r (f (fst e)) (snd e)) l o)) ->
    In k (keys o) \/ exists e, In e l /\ k = f (fst e).
Proof.
  induction l as [|x l IH]; simpl; intros o k H; auto.
  destruct (IH _ _ H) as [H1|[e [He Hk]]].
  - destruct (keys_set _ _ _ _ H1) as [->|H2]; eauto.
  - eauto.
Qed.

(** ** Keys stay unique *)

Lemma set_NoDup {V} (o : t V) k v : NoDup (keys o) -> NoDup (keys (set o k v)).
Proof.
  induction o as [|[k0 v0] o IH]; simpl; intros H.
  - repeat constructor. intros [].
  - inversion H as [|? ? Hnotin Hrest]; subst.
    destruct (String.eqb_spec k0 k) as [->|Hne]; simpl.
    + now constructor.
    + constructor; [|now apply IH].
      intros Hin. apply keys_set in Hin. destruct Hin as [->|Hin]; auto.
Qed.

Lemma fold_set_NoDup {V} (f : string -> string) (l : list (string * V)) :
  forall o : t V,
    NoDup (keys o) ->
    NoDup (keys (fold_left (fun r e => set r (f (fst e)) (snd e)) l o)).
Proof.
  induction l as [|x l IH]; simpl; intros o H; [assumption|].
  apply IH. now apply set_NoDup.
Qed.

Lemma insert_index_perm {V} (x : string * V) l : Permutation (insert_index x l) (x :: l).
Proof.
  induction l as [|y l IH]; simpl; [reflexivity|].
  destruct (N.leb _ _); [reflexivity|].
  rewrite IH. apply perm_swap.
Qed.

Lemma sort_index_perm {V} (l : list (string * V)) : Permutation (sort_index l) l.
Proof.
  induction l as [|y l IH]; simpl; [reflexivity|].
  rewrite insert_index_perm. now constructor.
Qed.

Lemma filter_split_perm {A} (f : A -> bool) (l : list A) :
  Permutation (filter f l ++ filter (fun x => negb (f x)) l) l.
Proof.
  induction l as [|x l IH]; simpl; [reflexivity|].
  destruct (f x); simpl.
  - now constructor.
  - rewrite <- Permutation_middle. now constructor.
Qed.

(** [Object.entries] only reorders the properties. *)
Lemma entries_perm {V} (o : t V) : Permutation (entries o) o.
Proof.
  unfold entries. rewrite sort_index_perm. apply filter_split_perm.
Qed.

Lemma entries_NoDup {V} (o : t V) : NoDup (keys o) -> NoDup (keys (entries o)).
Proof.
  unfold keys. intros H.
  eapply Permutation_NoDup; [|exact H].
  apply Permutation_map. symmetry. apply entries_perm.
Qed.

Lemma get_In {V} (o : t V) k v : get o k = Some v -> In (k, v) o.
Proof.
  induction o as [|[k0 v0] o IH]; simpl; [discriminate|].
  destruct (String.eqb_spec k0 k) as [->|_].
  - intros H. inversion H. now left.
  - intros H. right. now apply IH.
Qed.

End JsObjFacts.

Module StrFacts.

Import Str.

Lemma prefix_app p s : String.prefix p (p ++ s)%string = true.
Proof.
  induction p as [|c p IH]; simpl.
  - now destruct s.
  - destruct (ascii_dec c c); [assumption | congruence].
Qed.

Lemma prefix_split p s : String.prefix p s = true -> s = (p ++ drop (String.length p) s)%string.
Proof.
  revert s. induction p as [|c p IH]; intros s H; simpl.
  - reflexivity.
  - destruct s as [|d s]; simpl in H; [discriminate|].
    destruct (ascii_dec c d); [subst | discriminate].
    simpl. f_equal. now apply IH.
Qed.

Lemma startsWith_iff s p :
  startsWith s p = true <-> exists rest, s = (p ++ rest)%string.
Proof.
  unfold startsWith. split.
  - intros H. exists (drop (String.length p) s). now apply prefix_split.
  - intros [rest ->]. apply prefix_app.
Qed.

Lemma length_app a b :
  String.length (a ++ b) = String.length a + String.length b.
Proof. induction a as [|c a IH]; simpl; [reflexivity | now rewrite IH]. Qed.

Lemma drop_app a b : drop (String.length a) (a ++ b) = b.
Proof. induction a as [|c a IH]; simpl; [reflexivity | exact IH]. Qed.

Lemma drop_split n : forall s, exists pre, s = (pre ++ drop n s)%string.
Proof.
  induction n as [|n IH]; intros s; simpl.
  - now exists EmptyString.
  - destruct s as [|c s]; [now exists EmptyString|].
    destruct (IH s) as [pre E]. exists (String c pre). simpl. now rewrite <- E.
Qed.

(** [s.endsWith(p)] holds exactly when [p] is a suffix of [s]. *)
Lemma endsWith_iff s p :
  endsWith s p = true <-> exists pre, s = (pre ++ p)%string.
Proof.
  unfold endsWith. rewrite andb_true_iff, String.eqb_eq. split.
  - intros [_ H]. destruct (drop_split (String.length s - String.length p) s) as [pre E].
    exists pre. now rewrite H in E.
  - intros [pre ->]. rewrite length_app. split.
    + apply Nat.leb_le. lia.
    + replace (String.length pre + String.length p - String.length p)
        with (String.length pre) by lia.
      apply drop_app.
Qed.

Lemma toLowerCase_app a b :
  toLowerCase (a ++ b) = (toLowerCase a ++ toLowerCase b)%string.
Proof. induction a as [|c a IH]; simpl; [reflexivity | now rewrite IH]. Qed.

Lemma toLowerCase_split pre' :
  forall u p,
    toLowerCase u = (pre' ++ p)%string ->
    exists pre suf, u = (pre ++ suf)%string /\ toLowerCase suf = p.
Proof.
  induction pre' as [|c pre' IH]; intros u p H; simpl in H.
  - now exists EmptyString, u.
  - destruct u as [|d u]; simpl in H; [discriminate|].
    inversion H as [[Hc Hu]]. destruct (IH u p Hu) as [pre [suf [-> Hsuf]]].
    now exists (String d pre), suf.
Qed.

(** The test [s.toLowerCase().endsWith(p)]: some suffix of [s] is [p] up to
    letter case. *)
Lemma endsWith_ignoring_case u p :
  endsWith (toLowerCase u) p = true
  <-> exists pre suf, u = (pre ++ suf)%string /\ toLowerCase suf = p.
Proof.
  rewrite endsWith_iff. split.
  - intros [pre' H]. now apply toLowerCase_split in H.
  - intros [pre [suf [-> <-]]]. exists (toLowerCase pre). apply toLowerCase_app.
Qed.

End StrFacts.

(* ====================================================================== *)
(** * Properties of the style resolver *)
(* ====================================================================== *)

Module CssFacts.

Import Css.




(** ** [Number.parseInt] *)

(** The digits are read as the standard library reads a decimal. *)
Lemma digits_as_decimal s :
  JsObj.all_digits s = true ->
  exists u,
    DecimalString.NilEmpty.uint_of_string s = Some u
    /\ (forall acc, N.pos (Pos.of_uint_acc u acc) = JsObj.digits_value s (N.pos acc))
    /\ N.of_uint u = JsObj.digits_value s 0.
Proof.
  induction s as [|c s IH]; intros H.
  - exists Decimal.Nil. repeat split.
  - cbn [JsObj.all_digits] in H. apply andb_true_iff in H. destruct H as [Hc Hs].
    destruct (IH Hs) as (u & Hu & Hacc & Hzero).
    cbn [DecimalString.NilEmpty.uint_of_string JsObj.digits_value]. rewrite Hu.
    destruct c as [[] [] [] [] [] [] [] []]; try discriminate Hc;
      cbn [DecimalString.uint_of_char]; eexists; (split; [reflexivity|]);
      cbn [Pos.of_uint_acc N.of_uint Pos.of_uint];
      match goal with
      | |- context [N.of_nat ?n] =>
          let k := eval vm_compute in (N.of_nat n) in change (N.of_nat n) with k
      end;
      (split; [intros acc; rewrite Hacc; f_equal; lia|]);
      first [ exact Hzero | rewrite Hacc; f_equal ].
Qed.

Lemma pow2_split e : (1 <= e)%N -> (2 ^ e = 2 * 2 ^ (e - 1))%N.
Proof.
  intros He. rewrite <- N.pow_succ_r'. f_equal. lia.
Qed.

(** [round53] rounds to the nearest, ties to even. *)
Lemma round53_nearest v : nearest_double v (round53 v).
Proof.
  unfold nearest_double, round53. split.
  - intros Hv. apply N.ltb_lt in Hv. now rewrite Hv.
  - intros Hv. destruct (N.ltb_spec v (2 ^ 53)) as [Hlt|_]; [lia|].
    assert (He : (1 <= N.log2 v - 52)%N).
    { assert (53 <= N.log2 v)%N; [|lia].
      apply N.log2_le_pow2; lia. }
    set (e := (N.log2 v - 52)%N) in *.
    pose proof (pow2_split e He) as Hpow.
    assert (Hpos : (2 ^ e <> 0)%N) by (apply N.pow_nonzero; lia).
    pose proof (N.Div0.div_mod v (2 ^ e)) as Hdiv.
    pose proof (N.mod_lt v (2 ^ e) Hpos) as Hmod.
    set (kept := (v / 2 ^ e)%N) in *. set (cut := (v mod 2 ^ e)%N) in *.
    set (half := (2 ^ (e - 1))%N) in *. set (p := (2 ^ e)%N) in *.
    cbn zeta.
    destruct (N.ltb_spec half cut) as [Hup|Hdown]; cbn [orb].
    + exists (kept + 1)%N. unfold distance. repeat split; lia.
    + destruct (N.eqb_spec cut half) as [Heq|Hne]; cbn [andb].
      * destruct (N.odd kept) eqn:Hodd.
        -- exists (kept + 1)%N. unfold distance. repeat split; try lia.
           intros _. now rewrite N.add_1_r, N.even_succ.
        -- exists kept. unfold distance. repeat split; try lia.
           intros _. now rewrite <- N.negb_odd, Hodd.
      * exists kept. unfold distance. repeat split; lia.
Qed.

(** Up to 2^53 every integer is read exactly; one above, the odd integer
    goes to the even double next to it; a run of 310 digits is past the
    largest double. *)
Lemma parseInt_samples :
  parseInt "9007199254740992" = Num 9007199254740992
  /\ parseInt "9007199254740993" = Num 9007199254740992
  /\ parseInt "9007199254740995" = Num 9007199254740996
  /\ parseInt "0012" = Num 12
  /\ parseInt (String "1" (fold_right (fun _ s => String "0" s) EmptyString (seq 0 309)))
     = PosInfinity.
Proof. vm_compute. repeat split. Qed.

Section WithPackages.

Variable parseColor : string -> ParsedColor.
Variable camelCase : string -> string.

Lemma updateStep_unrecognized style key value :
  recognized key = false -> updateStep parseColor style (key, value) = style.
Proof.
  unfold recognized, updateStep. intros H.
  repeat (apply orb_false_iff in H; destruct H as [H ?]).
  repeat match goal with E : String.eqb _ _ = false |- _ => rewrite E; clear E end.
  reflexivity.
Qed.

Lemma fold_updateStep_filter (es : list (string * string)) :
  forall style,
    fold_left (updateStep parseColor) es style
    = fold_left (updateStep parseColor)
                (filter (fun e => recognized (fst e)) es) style.
Proof.
  induction es as [|[k v] es IH]; intros style; [reflexivity|].
  cbn [fold_left filter fst].
  destruct (recognized k) eqn:E; cbn [fold_left].
  - apply IH.
  - rewrite updateStep_unrecognized by assumption. apply IH.
Qed.

Lemma normalizeKeys_keys (css : CssRule) k :
  In k (JsObj.keys (normalizeKeys camelCase css)) ->
  exists k0, In k0 (JsObj.keys css) /\ k = camelCase k0.
Proof.
  unfold normalizeKeys. intros H.
  destruct (JsObjFacts.keys_fold_set camelCase _ _ _ H) as [[]|[e [He Hk]]].
  exists (fst e). split; [|assumption].
  rewrite JsObjFacts.In_entries in He. unfold JsObj.keys. now apply in_map.
Qed.

(** The steps for the other keys leave the font size alone. *)
Lemma updateStep_keeps_fontSize style key value :
  key <> "fontSize" ->
  fontSize (updateStep parseColor style (key, value)) = fontSize style.
Proof.
  intros Hkey. unfold updateStep.
  repeat match goal with
         | |- context [String.eqb ?a ?b] => destruct (String.eqb_spec a b)
         end; subst; try reflexivity; congruence.
Qed.

Lemma fold_keeps_fontSize (es : list (string * string)) :
  forall style,
    ~ In "fontSize" (map fst es) ->
    fontSize (fold_left (updateStep parseColor) es style) = fontSize style.
Proof.
  induction es as [|[k v] es IH]; intros style H; [reflexivity|].
  cbn [fold_left]. rewrite IH.
  - apply updateStep_keeps_fontSize. intros ->. apply H. now left.
  - intros Hin. apply H. now right.
Qed.

(** The font size after the loop is decided by the one entry whose key is
    fontSize. *)
Lemma fold_fontSize (es : list (string * string)) value :
  forall style,
    NoDup (map fst es) -> In ("fontSize", value) es ->
    fontSize (fold_left (updateStep parseColor) es style)
    = match match_fontSize value with
      | Some digits => Some {| magnitude := parseInt digits; unit := "PT" |}
      | None => fontSize style
      end.
Proof.
  induction es as [|[k v] es IH]; intros style Hnd Hin; [contradiction|].
  inversion Hnd as [|? ? Hnotin Hrest]; subst. cbn [fold_left].
  destruct Hin as [Hin|Hin].
  - inversion Hin; subst. rewrite fold_keeps_fontSize by assumption.
    cbn -[match_fontSize parseInt]. now destruct (match_fontSize value).
  - assert (k <> "fontSize").
    { intros ->. apply Hnotin. now apply (in_map fst) in Hin. }
    rewrite IH by assumption.
    now rewrite updateStep_keeps_fontSize.
Qed.

Lemma updateStyleDefinition_fontSize css value style :
  JsObj.get (normalizeKeys camelCase css) "fontSize" = Some value ->
  fontSize (updateStyleDefinition parseColor camelCase css style)
  = match match_fontSize value with
    | Some digits => Some {| magnitude := parseInt digits; unit := "PT" |}
    | None => fontSize style
    end.
Proof.
  intros Hget. unfold updateStyleDefinition. apply fold_fontSize.
  - apply JsObjFacts.entries_NoDup. unfold normalizeKeys.
    apply JsObjFacts.fold_set_NoDup. constructor.
  - apply JsObjFacts.In_entries. now apply JsObjFacts.get_In.
Qed.

End WithPackages.

(** ** The font-size pattern, declaratively *)

Lemma take_digits_run digits post :
  JsObj.all_digits digits = true -> starts_with_digit post = false ->
  take_digits (digits ++ post) = digits.
Proof.
  intros Hd Hp. induction digits as [|c d IH]; simpl in *.
  - destruct post as [|c post]; simpl in *; [reflexivity|]. now rewrite Hp.
  - apply andb_true_iff in Hd as [Hc Hd]. rewrite Hc. f_equal. now apply IH.
Qed.

(** The pattern matches at the first digit and captures the run of digits
    that starts there. *)
Lemma match_fontSize_first_run pre digits post :
  has_digit pre = false -> digits <> EmptyString ->
  JsObj.all_digits digits = true -> starts_with_digit post = false ->
  match_fontSize (pre ++ digits ++ post) = Some digits.
Proof.
  intros Hpre Hne Hd Hp. induction pre as [|c pre IH]; simpl in *.
  - destruct digits as [|c d]; [congruence|]. simpl in *.
    apply andb_true_iff in Hd as [Hc Hd]. rewrite Hc.
    now rewrite take_digits_run.
  - apply orb_false_iff in Hpre as [Hc Hpre]. rewrite Hc. now apply IH.
Qed.

(** The pattern fails exactly on the strings without a digit. *)
Lemma match_fontSize_no_digit value :
  match_fontSize value = None <-> has_digit value = false.
Proof.
  induction value as [|c v IH]; simpl; [tauto|].
  destruct (Str.is_digit c); simpl; [split; discriminate | exact IH].
Qed.

End CssFacts.

(* ====================================================================== *)
(** * The style resolver: colours, font sizes, unknown keys, totality *)
(* ====================================================================== *)




(** C5.  Whatever the rule, when its normalized keys carry a [fontSize]
    value: a value that contains a number (a run of digits, with or without
    a unit after it) gives the style a font size in PT whose magnitude is
    the integer that the first run of digits writes in decimal, as a
    double: that integer below 2^53, the nearest double (ties to even) from
    there on, and Infinity when that is 2^1024 or more.  A value without
    any digit sets no font size, the one the style had is kept.  The
    function is total: neither case raises. *)
Theorem fontSize_in_points :
  forall (parseColor : string -> Css.ParsedColor) (camelCase : string -> string)
         (css : Css.CssRule) (value : string) (style : Css.StyleDefinition),
    JsObj.get (Css.normalizeKeys camelCase css) "fontSize" = Some value ->
    (forall pre digits post,
        value = (pre ++ digits ++ post)%string ->
        Css.has_digit pre = false ->
        digits <> EmptyString ->
        JsObj.all_digits digits = true ->
        Css.starts_with_digit post = false ->
        exists u m size,
          DecimalString.NilEmpty.uint_of_string digits = Some u
          /\ Css.nearest_double (N.of_uint u) m
          /\ Css.fontSize (Css.updateStyleDefinition parseColor camelCase css style)
             = Some size
          /\ Css.unit size = "PT"
          /\ ((m < 2 ^ 1024)%N -> Css.magnitude size = Css.Num (inject_Z (Z.of_N m)))
          /\ ((2 ^ 1024 <= m)%N -> Css.magnitude size = Css.PosInfinity))
    /\ (Css.has_digit value = false ->
        Css.fontSize (Css.updateStyleDefinition parseColor camelCase css style)
        = Css.fontSize style).
Proof.
  intros parseColor camelCase css value style Hget.
  rewrite (CssFacts.updateStyleDefinition_fontSize parseColor camelCase css value style Hget).
  split.
  - intros pre digits post -> Hpre Hne Hd Hpost.
    rewrite CssFacts.match_fontSize_first_run by assumption.
    destruct (CssFacts.digits_as_decimal digits Hd) as (u & Hu & _ & Hvalue).
    exists u, (Css.round53 (JsObj.digits_value digits 0)),
           {| Css.magnitude := Css.parseInt digits; Css.unit := "PT" |}.
    split; [exact Hu|]. split; [rewrite Hvalue; apply CssFacts.round53_nearest|].
    split; [reflexivity|]. split; [reflexivity|].
    cbn [Css.magnitude]. unfold Css.parseInt, Css.double_of.
    destruct (N.ltb_spec (Css.round53 (JsObj.digits_value digits 0)) (2 ^ 1024));
      split; intros; first [reflexivity | lia].
  - intros Hnone. apply CssFacts.match_fontSize_no_digit in Hnone.
    now rewrite Hnone.
Qed.

Lemma fontSize_in_points_witness :
  Css.fontSize (Css.updateStyleDefinition Css.sampleParseColor Css.sampleCamelCase
                  [("font-weight", "bold"); ("font-size", "size 12pt")] Css.emptyStyle)
  = Some {| Css.magnitude := Css.Num 12; Css.unit := "PT" |}
  /\ Css.fontSize (Css.updateStyleDefinition Css.sampleParseColor Css.sampleCamelCase
                     [("font-size", "large")] Css.emptyStyle)
     = None.
Proof.
  split.
  - destruct (proj1 (fontSize_in_points Css.sampleParseColor Css.sampleCamelCase
                       [("font-weight", "bold"); ("font-size", "size 12pt")]
                       "size 12pt" Css.emptyStyle eq_refl)
                    "size " "12" "pt" eq_refl eq_refl ltac:(discriminate) eq_refl eq_refl)
      as (u & m & size & Hu & [Hexact _] & Hsize & Hunit & Hfinite & _).
    injection Hu as <-.
    rewrite (Hexact eq_refl) in Hfinite.
    rewrite Hsize. destruct size as [magnitude unit].
    cbn [Css.magnitude Css.unit] in *.
    now rewrite Hunit, (Hfinite eq_refl).
  - apply (proj2 (fontSize_in_points Css.sampleParseColor Css.sampleCamelCase
                    [("font-size", "large")] "large" Css.emptyStyle eq_refl)).
    reflexivity.
Defined.

(** C6.  A property whose normalized key is outside the recognized set
    (color, backgroundColor, fontWeight, fontStyle, fontFamily, fontVariant,
    fontSize) is ignored by [updateStyleDefinition], whatever its value: the
    step that handles it returns the style unchanged, the whole result is
    that of the recognized properties alone, and a rule made only of such
    properties leaves every field of the style as it was.  The function is
    total, so nothing is raised. *)
Theorem unknown_properties_ignored :
  forall (parseColor : string -> Css.ParsedColor) (camelCase : string -> string)
         (css : Css.CssRule) (style : Css.StyleDefinition),
    (forall key value,
        Css.recognized key = false ->
        Css.updateStep parseColor style (key, value) = style)
    /\ Css.updateStyleDefinition parseColor camelCase css style
       = fold_left (Css.updateStep parseColor)
                   (filter (fun e => Css.recognized (fst e))
                           (JsObj.entries (Css.normalizeKeys camelCase css)))
                   style
    /\ ((forall key, In key (JsObj.keys css) -> Css.recognized (camelCase key) = false) ->
        Css.updateStyleDefinition parseColor camelCase css style = style).
Proof.
  intros parseColor camelCase css style. split; [|split].
  - intros key value. apply CssFacts.updateStep_unrecognized.
  - unfold Css.updateStyleDefinition. apply CssFacts.fold_updateStep_filter.
  - intros Hall. unfold Css.updateStyleDefinition.
    rewrite CssFacts.fold_updateStep_filter.
    rewrite JsObjFacts.filter_none; [reflexivity|].
    intros [k v] Hin. simpl.
    rewrite JsObjFacts.In_entries in Hin.
    destruct (CssFacts.normalizeKeys_keys camelCase css k) as [k0 [Hk0 ->]].
    + unfold JsObj.keys. now apply (in_map fst) in Hin.
    + now rewrite Hall.
Qed.

Lemma unknown_properties_ignored_witness :
  Css.updateStyleDefinition Css.sampleParseColor Css.sampleCamelCase
    [("margin", "4px"); ("text-align", "center"); ("7", "bold")] Css.emptyStyle
  = Css.emptyStyle.
Proof.
  apply (proj2 (proj2 (unknown_properties_ignored
                         Css.sampleParseColor Css.sampleCamelCase
                         [("margin", "4px"); ("text-align", "center"); ("7", "bold")]
                         Css.emptyStyle))).
  intros key [<-|[<-|[<-|[]]]]; reflexivity.
Defined.

(** C7.  [parseStyleSheet] and [parseInlineStyle] return a rule object for
    every input (an absent, empty or malformed text included) and never
    throw; when [css.parse] throws, [convertCssToObject] returns the empty
    style sheet. *)
Theorem stylesheet_parsing_total :
  forall (css_parse : string -> Js.completion Css.ParsedCss)
         (declarationsToRule : string -> string),
    (forall input, Js.resolves (Css.parseStyleSheet css_parse input))
    /\ (forall inlineStyle,
          Js.resolves (Css.parseInlineStyle css_parse declarationsToRule inlineStyle))
    /\ (forall cssString e,
          css_parse cssString = Js.Throw e ->
          Css.convertCssToObject css_parse cssString = Js.Return JsObj.empty).
Proof.
  intros css_parse declarationsToRule.
  assert (Hconv : forall s, Js.resolves (Css.convertCssToObject css_parse s)).
  { intros s. unfold Css.convertCssToObject, Js.resolves.
    destruct (_ || _); [eauto|].
    destruct (css_parse s) as [parsed|e]; simpl; [|eauto].
    destruct (Css.stylesheet parsed) as [sheet|]; simpl; [|eauto].
    destruct (Css.rules sheet); simpl; eauto. }
  split; [|split].
  - intros [s|]; simpl; [|red; eauto].
    destruct (negb (Str.truthy s)); [red; eauto | apply Hconv].
  - intros s. unfold Css.parseInlineStyle.
    destruct (Hconv (declarationsToRule s)) as [sheet ->]. simpl. red; eauto.
  - intros s e H. unfold Css.convertCssToObject. rewrite H. simpl.
    now destruct (_ || _).
Qed.

Lemma stylesheet_parsing_total_witness :
  Css.parseStyleSheet Css.failingCssParse (Some "h1 { color: red") = Js.Return JsObj.empty
  /\ Css.convertCssToObject Css.failingCssParse "h1 { color: red" = Js.Return JsObj.empty.
Proof.
  split.
  - reflexivity.
  - apply (proj2 (proj2 (stylesheet_parsing_total Css.failingCssParse
                           Css.sampleDeclarationsToRule))
                 "h1 { color: red" (Js.Error "missing '}'")).
    reflexivity.
Defined.

(* ====================================================================== *)
(** * The image helpers *)
(* ====================================================================== *)

Module ImageFacts.

(** The two guards on the url, read on the text of the url. *)
Lemma svgSuffix_iff u :
  RemoteSvg.svgSuffix u = true
  <-> exists pre suf, u = (pre ++ suf)%string /\ Str.toLowerCase suf = ".svg".
Proof. apply StrFacts.endsWith_ignoring_case. Qed.

Lemma localFile_iff u :
  RemoteSvg.localFile u = true <-> exists rest, u = ("file://" ++ rest)%string.
Proof. apply StrFacts.startsWith_iff. Qed.

Lemma toDownloadUrl_http rest :
  Upload.toDownloadUrl ("http://tmpfiles.org/" ++ rest)
  = ("https://tmpfiles.org/dl/" ++ rest)%string.
Proof. destruct rest; reflexivity. Qed.

Lemma toDownloadUrl_https rest :
  Upload.toDownloadUrl ("https://tmpfiles.org/" ++ rest)
  = ("https://tmpfiles.org/dl/" ++ rest)%string.
Proof. destruct rest; reflexivity. Qed.

Lemma has_url_false r : Upload.has_url r = false <-> Upload.lacks_url r.
Proof.
  unfold Upload.has_url, Upload.lacks_url.
  destruct (Upload.data_url r) as [[|c u]|]; simpl; split; intros H; auto;
    try discriminate; destruct H; discriminate.
Qed.

Lemma status_is_success_true r :
  Upload.status_is_success r = true <-> Upload.status r = Some "success".
Proof.
  unfold Upload.status_is_success. destruct (Upload.status r) as [s|].
  - rewrite String.eqb_eq. split; congruence.
  - split; discriminate.
Qed.

(** A failure of the transport is a rejection too. *)
Lemma uploadLocalImage_without_response axios_post JSON_stringify filePath e :
  axios_post filePath = Js.Throw e ->
  fst (Upload.uploadLocalImage axios_post JSON_stringify filePath) = Js.Throw e.
Proof. intros H. unfold Upload.uploadLocalImage, Upload.upload_body. now rewrite H. Qed.

(** The [finally] block: the stream is destroyed on every path. *)
Lemma uploadLocalImage_destroys_stream axios_post JSON_stringify filePath :
  Upload.destroyed (snd (Upload.uploadLocalImage axios_post JSON_stringify filePath)) = true.
Proof. reflexivity. Qed.

End ImageFacts.



(** C9.  When the image has no url, or its url does not end with .svg
    (letter case ignored), or its url starts with file://,
    [convertRemoteSVG] resolves with the image itself, every field
    unchanged. *)
Theorem convertRemoteSVG_identity :
  forall (axios_get : string -> Js.completion RemoteSvg.ResponseBody)
         (renderSVG : RemoteSvg.ImageDefinition -> Js.completion string)
         (image : RemoteSvg.ImageDefinition),
    (RemoteSvg.url image = None
     \/ exists u, RemoteSvg.url image = Some u
                  /\ (RemoteSvg.svgSuffix u = false \/ RemoteSvg.localFile u = true)) ->
    RemoteSvg.convertRemoteSVG axios_get renderSVG image = Js.Return image.
Proof.
  intros axios_get renderSVG image H. unfold RemoteSvg.convertRemoteSVG.
  unfold RemoteSvg.svgSuffix, RemoteSvg.localFile in H.
  destruct H as [->|[u [-> H]]]; [reflexivity|].
  destruct (Str.truthy u); simpl; [|reflexivity].
  destruct H as [->| ->]; simpl; [reflexivity|].
  now destruct (Str.endsWith _ _).
Qed.

Lemma convertRemoteSVG_identity_witness :
  RemoteSvg.convertRemoteSVG RemoteSvg.failingGet RemoteSvg.sampleRender RemoteSvg.kittenImage
  = Js.Return RemoteSvg.kittenImage
  /\ RemoteSvg.convertRemoteSVG RemoteSvg.failingGet RemoteSvg.sampleRender
       RemoteSvg.localImage
     = Js.Return RemoteSvg.localImage.
Proof.
  split; apply convertRemoteSVG_identity; right.
  - exists "https://placekitten.com/350/315".
    split; [reflexivity | left; reflexivity].
  - exists "file:///tmp/tmp-1.svg".
    split; [reflexivity | right; reflexivity].
Defined.

(** C8, as the code has it.  [convertRemoteSVG] never rejects, and when the
    download or the conversion fails, for whatever reason, it resolves with
    the original image, its url and every other field unchanged: the image
    stays in the slide and the Slides service is left to fetch it. *)
Theorem convertRemoteSVG_never_rejects :
  forall (axios_get : string -> Js.completion RemoteSvg.ResponseBody)
         (renderSVG : RemoteSvg.ImageDefinition -> Js.completion string)
         (image : RemoteSvg.ImageDefinition),
    Js.resolves (RemoteSvg.convertRemoteSVG axios_get renderSVG image)
    /\ (forall u e,
          RemoteSvg.url image = Some u ->
          RemoteSvg.download_and_convert axios_get renderSVG image u = Js.Throw e ->
          RemoteSvg.convertRemoteSVG axios_get renderSVG image = Js.Return image).
Proof.
  intros axios_get renderSVG image. unfold RemoteSvg.convertRemoteSVG, Js.resolves.
  split.
  - destruct (RemoteSvg.url image) as [u|]; [|eauto].
    destruct (negb (Str.truthy u)); [eauto|].
    destruct (negb (Str.endsWith _ _)); [eauto|].
    destruct (Str.startsWith _ _); [eauto|].
    destruct (RemoteSvg.download_and_convert axios_get renderSVG image u); simpl; eauto.
  - intros u e -> Hfail. rewrite Hfail. simpl.
    destruct (negb (Str.truthy u)); [reflexivity|].
    destruct (negb (Str.endsWith _ _)); [reflexivity|].
    now destruct (Str.startsWith _ _).
Qed.

Lemma convertRemoteSVG_never_rejects_witness :
  RemoteSvg.convertRemoteSVG RemoteSvg.failingGet RemoteSvg.sampleRender RemoteSvg.remoteImage
  = Js.Return RemoteSvg.remoteImage.
Proof.
  apply (proj2 (convertRemoteSVG_never_rejects RemoteSvg.failingGet RemoteSvg.sampleRender
                  RemoteSvg.remoteImage)
               "https://example.com/logo.SVG" (Js.Error "timeout of 30000ms exceeded"));
    reflexivity.
Defined.

(** C8, as stated, fails: the download of a remote SVG times out, and the
    image is not dropped; the promise resolves with the image and its
    remote url. *)
Lemma failed_conversion_keeps_image :
  RemoteSvg.download_and_convert RemoteSvg.failingGet RemoteSvg.sampleRender
    RemoteSvg.remoteImage "https://example.com/logo.SVG"
  = Js.Throw (Js.Error "timeout of 30000ms exceeded")
  /\ ~ RemoteSvg.dropped
        (RemoteSvg.convertRemoteSVG RemoteSvg.failingGet RemoteSvg.sampleRender
           RemoteSvg.remoteImage).
Proof.
  split; [reflexivity|]. simpl. discriminate.
Qed.

(* ====================================================================== *)
(** * Properties of the request generator *)
(* ====================================================================== *)

Module LayoutFacts.

Import Layout.

Lemma filter_nil_Forall {A} (f : A -> bool) (l : list A) :
  Forall (fun x => f x = false) l -> filter f l = [].
Proof.
  induction 1 as [|x l Hx _ IH]; simpl; [reflexivity|]. now rewrite Hx.
Qed.

Lemma filter_flat_map_nil {A B} (f : B -> bool) (g : A -> list B) (l : list A) :
  (forall x, In x l -> filter f (g x) = []) -> filter f (flat_map g l) = [].
Proof.
  induction l as [|x l IH]; simpl; intros H; [reflexivity|].
  rewrite filter_app, H, IH; auto.
Qed.

(** ** Positions *)

Lemma indexed_ge {A} (l : list A) :
  forall n j x, In (j, x) (indexed n l) -> n <= j.
Proof.
  induction l as [|y l IH]; simpl; intros n j x H; [contradiction|].
  destruct H as [H|H].
  - inversion H. lia.
  - apply IH in H. lia.
Qed.

Lemma indexed_split {A} (l : list A) :
  forall n i x,
    nth_error l i = Some x ->
    exists pre post,
      indexed n l = pre ++ (n + i, x) :: post
      /\ (forall j y, In (j, y) pre -> j <> n + i)
      /\ (forall j y, In (j, y) post -> j <> n + i).
Proof.
  induction l as [|y l IH]; intros n i x H.
  - destruct i; discriminate.
  - destruct i as [|i]; simpl in H.
    + inversion H; subst. exists [], (indexed (S n) l). simpl.
      rewrite Nat.add_0_r. split; [reflexivity|]. split.
      * intros j z [].
      * intros j z Hin. apply indexed_ge in Hin. lia.
    + destruct (IH (S n) i x H) as [pre [post [E [Hpre Hpost]]]].
      exists ((n, y) :: pre), post. simpl. rewrite E.
      replace (S n + i) with (n + S i) by lia.
      split; [reflexivity|]. split.
      * intros j z [Hj|Hj]; [inversion Hj; lia|].
        apply Hpre in Hj. lia.
      * intros j z Hj. apply Hpost in Hj. lia.
Qed.

Lemma indexed_length {A} (l : list A) :
  forall n j x, In (j, x) (indexed n l) -> j < n + length l.
Proof.
  induction l as [|y l IH]; simpl; intros n j x H; [contradiction|].
  destruct H as [H|H].
  - inversion H. lia.
  - apply IH in H. lia.
Qed.

(** ** Range requests come after the insertion *)

Lemma rangesFollow_app a b :
  rangesFollowInsertion a -> rangesFollowInsertion b -> rangesFollowInsertion (a ++ b).
Proof.
  intros Ha Hb before r after loc E Hr.
  apply app_eq_app in E. destruct E as [l [[E1 E2]|[E1 E2]]].
  - destruct l as [|r' l].
    + simpl in E2. rewrite app_nil_r in E1. subst before.
      destruct (Hb [] r after loc (eq_sym E2) Hr) as [txt []].
    + simpl in E2. inversion E2; subst.
      eapply Ha; eauto.
  - subst before. destruct (Hb l r after loc E2 Hr) as [txt Hin].
    exists txt. apply in_or_app. now right.
Qed.

Lemma rangesFollow_cons_plain r l :
  rangeTarget r = None -> rangesFollowInsertion l -> rangesFollowInsertion (r :: l).
Proof.
  intros Hr Hl. change (r :: l) with ([r] ++ l). apply rangesFollow_app; [|assumption].
  intros before r' after loc E Hr'.
  destruct before as [|x before]; simpl in E.
  - inversion E; subst. congruence.
  - inversion E. destruct before; discriminate.
Qed.

Lemma rangesFollow_nil : rangesFollowInsertion [].
Proof. intros before r after loc E. destruct before; discriminate. Qed.

Lemma rangesFollow_flat_map {A} (g : A -> list Request) (l : list A) :
  (forall x, In x l -> rangesFollowInsertion (g x)) ->
  rangesFollowInsertion (flat_map g l).
Proof.
  induction l as [|x l IH]; simpl; intros H.
  - apply rangesFollow_nil.
  - apply rangesFollow_app; auto.
Qed.

Lemma rangesFollow_plain l :
  Forall (fun r => rangeTarget r = None) l -> rangesFollowInsertion l.
Proof.
  induction 1 as [|r l Hr _ IH].
  - apply rangesFollow_nil.
  - now apply rangesFollow_cons_plain.
Qed.

Lemma rangesFollow_textRequests loc t : rangesFollowInsertion (textRequests loc t).
Proof.
  intros before r after loc' E Hr. unfold textRequests in E.
  destruct before as [|x before]; simpl in E.
  - inversion E; subst. discriminate.
  - inversion E as [[Hx E']]. subst x.
    assert (Hin : In r (map (styleRequest loc) (textRuns t)
                        ++ map (bulletRequest loc) (listMarkers t))).
    { rewrite E'. apply in_or_app. right. now left. }
    assert (loc' = loc) as ->.
    { apply in_app_or in Hin. destruct Hin as [Hin|Hin];
        apply in_map_iff in Hin; destruct Hin as [y [<- _]];
        simpl in Hr; congruence. }
    exists (rawText t). now left.
Qed.

Lemma rangesFollow_placeholder ph t : rangesFollowInsertion (placeholderRequests ph t).
Proof.
  unfold placeholderRequests. destruct ph, t;
    try apply rangesFollow_nil. apply rangesFollow_textRequests.
Qed.

Lemma rangesFollow_images pageId imgs : rangesFollowInsertion (imageRequests pageId imgs).
Proof.
  apply rangesFollow_flat_map. intros img _.
  destruct (RemoteSvg.url img); [|apply rangesFollow_nil].
  apply rangesFollow_cons_plain; [reflexivity | apply rangesFollow_nil].
Qed.

Lemma rangesFollow_videos pageId vs : rangesFollowInsertion (videoRequests pageId vs).
Proof.
  apply rangesFollow_plain. unfold videoRequests.
  apply Forall_forall. intros r Hin. apply in_map_iff in Hin.
  now destruct Hin as [v [<- _]].
Qed.

Lemma rangesFollow_background pageId bg :
  rangesFollowInsertion (backgroundRequests pageId bg).
Proof.
  unfold backgroundRequests. destruct bg as [img|]; [|apply rangesFollow_nil].
  destruct (RemoteSvg.url img); [|apply rangesFollow_nil].
  apply rangesFollow_cons_plain; [reflexivity | apply rangesFollow_nil].
Qed.

Lemma rangesFollow_table pageId tableId t :
  rangesFollowInsertion (tableRequests pageId tableId t).
Proof.
  unfold tableRequests. apply rangesFollow_cons_plain; [reflexivity|].
  apply rangesFollow_flat_map. intros rr _. unfold rowRequests.
  apply rangesFollow_flat_map. intros ct _. apply rangesFollow_textRequests.
Qed.

Lemma rangesFollow_body tpl pageId i b :
  rangesFollowInsertion (bodyRequests tpl pageId i b).
Proof.
  unfold bodyRequests. destruct (bindBody tpl pageId i) as [elementId fresh].
  apply rangesFollow_app.
  - destruct fresh; [|apply rangesFollow_nil].
    apply rangesFollow_cons_plain; [reflexivity | apply rangesFollow_nil].
  - apply rangesFollow_app; [apply rangesFollow_textRequests|].
    apply rangesFollow_app; [apply rangesFollow_images | apply rangesFollow_videos].
Qed.

Create HintDb ranges.

#[local] Hint Resolve rangesFollow_app rangesFollow_placeholder
  rangesFollow_background rangesFollow_table rangesFollow_body
  rangesFollow_flat_map : ranges.

(** Rule 2 of section 4.4, for the whole batch of a slide. *)
Lemma rangesFollow_generate tableIdOf tpl slide :
  rangesFollowInsertion (generate tableIdOf tpl slide).
Proof.
  unfold generate, allTableRequests, allBodyRequests.
  apply rangesFollow_cons_plain; [reflexivity|].
  auto 10 with ranges.
Qed.

(** ** Where the requests of a body and of a table sit in the batch *)

Lemma flat_map_indexed_split {A} (g : nat * A -> list Request) (l : list A) i x :
  nth_error l i = Some x ->
  exists pre post,
    indexed 0 l = pre ++ (i, x) :: post
    /\ flat_map g (indexed 0 l) = flat_map g pre ++ g (i, x) ++ flat_map g post
    /\ (forall j y, In (j, y) pre -> j < length l /\ j <> i)
    /\ (forall j y, In (j, y) post -> j < length l /\ j <> i).
Proof.
  intros H. destruct (indexed_split l 0 i x H) as [pre [post [E [Hpre Hpost]]]].
  simpl in *. exists pre, post. split; [assumption|]. split.
  - rewrite E, flat_map_app. reflexivity.
  - split; intros j y Hin; (split; [|eauto]);
      apply (indexed_length l 0 j y); rewrite E; apply in_or_app; simpl; auto.
Qed.

Ltac flatten_apps :=
  repeat (rewrite <- app_assoc || rewrite <- app_comm_cons).

Lemma body_run_order tableIdOf tpl slide i body run :
  nth_error (bodies slide) i = Some body ->
  In run (textRuns (text body)) ->
  exists before between after,
    generate tableIdOf tpl slide
    = before
      ++ insertText (element (bodyId tpl (objectId slide) i)) (rawText (text body))
      :: between
      ++ styleRequest (element (bodyId tpl (objectId slide) i)) run :: after.
Proof.
  intros Hbody Hrun.
  destruct (flat_map_indexed_split
              (fun ib => bodyRequests tpl (objectId slide) (fst ib) (snd ib))
              _ _ _ Hbody) as [pre [post [_ [E _]]]].
  apply in_split in Hrun. destruct Hrun as [r1 [r2 Hruns]].
  unfold generate, allBodyRequests. rewrite E. simpl fst. simpl snd.
  unfold bodyRequests, bodyId.
  destruct (bindBody tpl (objectId slide) i) as [elementId fresh]. simpl fst.
  unfold textRequests. rewrite Hruns, map_app. simpl map.
  eexists (createSlide (objectId slide)
           :: placeholderRequests (titleElement tpl) (title slide)
           ++ placeholderRequests (subtitleElement tpl) (subtitle slide)
           ++ backgroundRequests (objectId slide) (backgroundImage slide)
           ++ allTableRequests tableIdOf slide
           ++ flat_map _ pre
           ++ (if fresh then [createShape elementId (objectId slide)] else [])),
          (map (styleRequest (element elementId)) r1), _.
  flatten_apps. reflexivity.
Qed.

Lemma body_insertion_emitted tableIdOf tpl slide i body :
  nth_error (bodies slide) i = Some body ->
  In (insertText (element (bodyId tpl (objectId slide) i)) (rawText (text body)))
     (generate tableIdOf tpl slide).
Proof.
  intros Hbody.
  destruct (flat_map_indexed_split
              (fun ib => bodyRequests tpl (objectId slide) (fst ib) (snd ib))
              _ _ _ Hbody) as [pre [post [_ [E _]]]].
  unfold generate, allBodyRequests. rewrite E. simpl fst. simpl snd.
  unfold bodyRequests, bodyId.
  destruct (bindBody tpl (objectId slide) i) as [elementId fresh]. simpl fst.
  unfold textRequests. right. rewrite !in_app_iff. simpl. auto 12.
Qed.

(** ** Style requests on one element *)

Section StyleCount.

Variables (elementId : string) (s e : nat).

Lemma stylesRange_textRequests_elsewhere loc t :
  String.eqb (loc_objectId loc) elementId
  && match cellLocation loc with None => true | Some _ => false end = false ->
  filter (stylesRange elementId s e) (textRequests loc t) = [].
Proof.
  intros H. apply filter_nil_Forall. unfold textRequests.
  constructor; [reflexivity|]. apply Forall_app. split.
  - apply Forall_forall. intros r Hin. apply in_map_iff in Hin.
    destruct Hin as [run [<- _]]. simpl. now rewrite H.
  - apply Forall_forall. intros r Hin. apply in_map_iff in Hin.
    now destruct Hin as [m [<- _]].
Qed.

Lemma stylesRange_textRequests_here t :
  filter (stylesRange elementId s e) (textRequests (element elementId) t)
  = map (styleRequest (element elementId)) (filter (runCovers s e) (textRuns t)).
Proof.
  unfold textRequests. simpl filter. rewrite filter_app.
  replace (filter _ (map (bulletRequest _) _)) with (@nil Request).
  - rewrite app_nil_r. induction (textRuns t) as [|run runs IH]; [reflexivity|].
    simpl. rewrite String.eqb_refl. simpl. unfold runCovers at 1.
    destruct (_ && _); simpl; now rewrite IH.
  - symmetry. apply filter_nil_Forall, Forall_forall. intros r Hin.
    apply in_map_iff in Hin. now destruct Hin as [m [<- _]].
Qed.

Lemma stylesRange_placeholder ph t :
  ph <> Some elementId ->
  filter (stylesRange elementId s e) (placeholderRequests ph t) = [].
Proof.
  intros H. unfold placeholderRequests. destruct ph as [x|], t; try reflexivity.
  apply stylesRange_textRequests_elsewhere. simpl.
  destruct (String.eqb_spec x elementId); [congruence | reflexivity].
Qed.

Lemma stylesRange_table pageId tableId t :
  filter (stylesRange elementId s e) (tableRequests pageId tableId t) = [].
Proof.
  unfold tableRequests. simpl filter.
  apply filter_flat_map_nil. intros rr _. unfold rowRequests.
  apply filter_flat_map_nil. intros ct _.
  apply stylesRange_textRequests_elsewhere. simpl. apply andb_false_r.
Qed.

Lemma stylesRange_media pageId imgs vs :
  filter (stylesRange elementId s e)
         (imageRequests pageId imgs ++ videoRequests pageId vs) = [].
Proof.
  unfold imageRequests, videoRequests. rewrite filter_app.
  rewrite (filter_flat_map_nil (stylesRange elementId s e)).
  - apply filter_nil_Forall, Forall_forall. intros r Hin.
    apply in_map_iff in Hin. now destruct Hin as [v [<- _]].
  - intros img _. now destruct (RemoteSvg.url img).
Qed.

Lemma stylesRange_body_elsewhere tpl pageId j b :
  bodyId tpl pageId j <> elementId ->
  filter (stylesRange elementId s e) (bodyRequests tpl pageId j b) = [].
Proof.
  unfold bodyRequests, bodyId. destruct (bindBody tpl pageId j) as [x fresh].
  cbn [fst]. intros H. rewrite !filter_app.
  rewrite stylesRange_textRequests_elsewhere.
  - rewrite <- filter_app, stylesRange_media. now destruct fresh.
  - simpl. destruct (String.eqb_spec x elementId); [congruence | reflexivity].
Qed.

Lemma stylesRange_body_here tpl pageId i b :
  bodyId tpl pageId i = elementId ->
  filter (stylesRange elementId s e) (bodyRequests tpl pageId i b)
  = map (styleRequest (element elementId)) (filter (runCovers s e) (textRuns (text b))).
Proof.
  unfold bodyRequests, bodyId. destruct (bindBody tpl pageId i) as [x fresh].
  cbn [fst]. intros ->. rewrite !filter_app.
  rewrite stylesRange_textRequests_here.
  rewrite <- filter_app, stylesRange_media, app_nil_r. now destruct fresh.
Qed.

End StyleCount.

(** The style requests of the batch on the element of body column [i],
    for one range, are those of the runs of that body over this range. *)
Lemma stylesRange_generate tableIdOf tpl slide i body s e :
  nth_error (bodies slide) i = Some body ->
  ownElement tpl slide i ->
  filter (stylesRange (bodyId tpl (objectId slide) i) s e) (generate tableIdOf tpl slide)
  = map (styleRequest (element (bodyId tpl (objectId slide) i)))
        (filter (runCovers s e) (textRuns (text body))).
Proof.
  intros Hbody (Ht & Hs & Hn & Hothers).
  assert (Hother : forall j, j < length (bodies slide) /\ j <> i ->
                             bodyId tpl (objectId slide) j
                             <> bodyId tpl (objectId slide) i)
    by (intros j [Hlt Hne]; auto).
  destruct (flat_map_indexed_split
              (fun ib => bodyRequests tpl (objectId slide) (fst ib) (snd ib))
              _ _ _ Hbody) as [pre [post [_ [E [Hpre Hpost]]]]].
  unfold generate, allBodyRequests. rewrite E. simpl filter.
  rewrite !filter_app.
  rewrite !stylesRange_placeholder by assumption.
  replace (filter _ (backgroundRequests _ _)) with (@nil Request)
    by (unfold backgroundRequests; destruct (backgroundImage slide) as [img|];
        [destruct (RemoteSvg.url img)|]; reflexivity).
  unfold allTableRequests.
  rewrite (filter_flat_map_nil _ _ (indexed 0 (tables slide)))
    by (intros kt _; apply stylesRange_table).
  rewrite (filter_flat_map_nil _ _ pre)
    by (intros [j b] Hin; apply stylesRange_body_elsewhere, Hother; eauto).
  rewrite (filter_flat_map_nil _ _ post)
    by (intros [j b] Hin; apply stylesRange_body_elsewhere, Hother; eauto).
  simpl. rewrite !app_nil_r. now apply stylesRange_body_here.
Qed.

(** ** What happens to one table *)

Lemma filter_map_app {A B} (f : A -> option B) (a b : list A) :
  filter_map f (a ++ b) = filter_map f a ++ filter_map f b.
Proof.
  induction a as [|x a IH]; simpl; [reflexivity|].
  destruct (f x); simpl; now rewrite IH.
Qed.

Lemma filter_map_flat_map {A B C} (f : B -> option C) (g : A -> list B) (l : list A) :
  filter_map f (flat_map g l) = flat_map (fun x => filter_map f (g x)) l.
Proof.
  induction l as [|x l IH]; simpl; [reflexivity|].
  now rewrite filter_map_app, IH.
Qed.

Lemma flat_map_nil {A B} (g : A -> list B) (l : list A) :
  (forall x, In x l -> g x = []) -> flat_map g l = [].
Proof.
  induction l as [|x l IH]; simpl; intros H; [reflexivity|].
  rewrite H, IH; auto.
Qed.

Lemma flat_map_singleton {A B} (h : A -> B) (l : list A) :
  flat_map (fun x => [h x]) l = map h l.
Proof. induction l as [|x l IH]; simpl; [reflexivity | now rewrite IH]. Qed.

Section TableEvents.

Variable tableId : string.

Lemma tableEvent_textRequests loc t :
  filter_map (tableEvent tableId) (textRequests loc t)
  = match tableEvent tableId (insertText loc (rawText t)) with
    | Some ev => [ev]
    | None => []
    end.
Proof.
  unfold textRequests. cbn [filter_map].
  assert (H : filter_map (tableEvent tableId)
                (map (styleRequest loc) (textRuns t)
                 ++ map (bulletRequest loc) (listMarkers t)) = []).
  { rewrite filter_map_app.
    induction (textRuns t) as [|run runs IH]; simpl; [|exact IH].
    induction (listMarkers t) as [|m ms IH]; simpl; [reflexivity | exact IH]. }
  rewrite H. reflexivity.
Qed.

Lemma tableEvent_element elementId t :
  filter_map (tableEvent tableId) (textRequests (element elementId) t) = [].
Proof. now rewrite tableEvent_textRequests. Qed.

Lemma tableEvent_row r row :
  filter_map (tableEvent tableId) (rowRequests tableId r row)
  = map (fun ct => cellFilled r (fst ct) (rawText (snd ct))) (indexed 0 row).
Proof.
  unfold rowRequests. rewrite filter_map_flat_map, <- flat_map_singleton.
  apply flat_map_ext. intros ct. rewrite tableEvent_textRequests. simpl.
  now rewrite String.eqb_refl.
Qed.

Lemma tableEvent_table_here pageId t :
  filter_map (tableEvent tableId) (tableRequests pageId tableId t)
  = tableCreated pageId (rows t) (columns t) :: rowMajor t.
Proof.
  unfold tableRequests, rowMajor. cbn [filter_map tableEvent].
  rewrite String.eqb_refl. f_equal. rewrite filter_map_flat_map.
  apply flat_map_ext. intros rr. apply tableEvent_row.
Qed.

Lemma tableEvent_table_other pageId other t :
  other <> tableId ->
  filter_map (tableEvent tableId) (tableRequests pageId other t) = [].
Proof.
  intros H. unfold tableRequests. cbn [filter_map tableEvent].
  destruct (String.eqb_spec other tableId) as [|_]; [congruence|].
  rewrite filter_map_flat_map. apply flat_map_nil. intros rr _.
  unfold rowRequests. rewrite filter_map_flat_map. apply flat_map_nil.
  intros ct _. rewrite tableEvent_textRequests. simpl.
  destruct (String.eqb_spec other tableId); [congruence | reflexivity].
Qed.

Lemma tableEvent_placeholder ph t :
  filter_map (tableEvent tableId) (placeholderRequests ph t) = [].
Proof.
  unfold placeholderRequests. destruct ph, t; try reflexivity.
  apply tableEvent_element.
Qed.

Lemma tableEvent_body tpl pageId i b :
  filter_map (tableEvent tableId) (bodyRequests tpl pageId i b) = [].
Proof.
  unfold bodyRequests. destruct (bindBody tpl pageId i) as [x fresh].
  rewrite !filter_map_app, tableEvent_element.
  unfold imageRequests, videoRequests.
  rewrite filter_map_flat_map, flat_map_nil
    by (intros img _; now destruct (RemoteSvg.url img)).
  destruct fresh; simpl; induction (videos b); auto.
Qed.

End TableEvents.

(** The requests of the batch that touch the [k]-th table of the slide:
    its creation, then the text of its cells, row by row. *)
Lemma tableEvent_generate tableIdOf tpl slide k t :
  nth_error (tables slide) k = Some t ->
  (forall j, j < length (tables slide) -> j <> k ->
             tableIdOf (objectId slide) j <> tableIdOf (objectId slide) k) ->
  filter_map (tableEvent (tableIdOf (objectId slide) k)) (generate tableIdOf tpl slide)
  = tableCreated (objectId slide) (rows t) (columns t) :: rowMajor t.
Proof.
  intros Htable Hothers.
  assert (Hother : forall j, j < length (tables slide) /\ j <> k ->
                             tableIdOf (objectId slide) j
                             <> tableIdOf (objectId slide) k)
    by (intros j [Hlt Hne]; auto).
  destruct (flat_map_indexed_split
              (fun kt => tableRequests (objectId slide)
                                       (tableIdOf (objectId slide) (fst kt)) (snd kt))
              _ _ _ Htable) as [pre [post [_ [E [Hpre Hpost]]]]].
  unfold generate, allTableRequests, allBodyRequests. rewrite E.
  cbn [filter_map tableEvent]. rewrite !filter_map_app.
  rewrite !tableEvent_placeholder.
  replace (filter_map _ (backgroundRequests _ _)) with (@nil TableEvent)
    by (unfold backgroundRequests; destruct (backgroundImage slide) as [img|];
        [destruct (RemoteSvg.url img)|]; reflexivity).
  rewrite (filter_map_flat_map _ _ pre), (flat_map_nil _ pre)
    by (intros [j b] Hin; apply tableEvent_table_other, Hother; eauto).
  rewrite (filter_map_flat_map _ _ post), (flat_map_nil _ post)
    by (intros [j b] Hin; apply tableEvent_table_other, Hother; eauto).
  rewrite (filter_map_flat_map _ _ (indexed 0 (bodies slide))), flat_map_nil
    by (intros ib _; apply tableEvent_body).
  simpl. rewrite !app_nil_r. apply tableEvent_table_here.
Qed.

(** ** Row-major order *)

Lemma row_coordinates r (row : list TextDefinition) :
  forall m,
    filter_map coordinates
               (map (fun ct => cellFilled r (fst ct) (rawText (snd ct))) (indexed m row))
    = map (pair r) (seq m (length row)).
Proof.
  induction row as [|c row IH]; intros m; simpl; [reflexivity|].
  now rewrite IH.
Qed.

Lemma rows_coordinates cols (rws : list (list TextDefinition)) :
  Forall (fun row => length row = cols) rws ->
  forall n,
    filter_map coordinates
      (flat_map (fun rr => map (fun ct => cellFilled (fst rr) (fst ct) (rawText (snd ct)))
                               (indexed 0 (snd rr)))
                (indexed n rws))
    = flat_map (fun r => map (pair r) (seq 0 cols)) (seq n (length rws)).
Proof.
  induction 1 as [|row rws Hrow _ IH]; intros n; simpl; [reflexivity|].
  now rewrite filter_map_app, row_coordinates, Hrow, IH.
Qed.

(** The cells of a well-formed table are visited row by row, and within a
    row column by column. *)
Lemma rowMajor_coordinates t :
  table_wf t ->
  filter_map coordinates (rowMajor t)
  = flat_map (fun r => map (pair r) (seq 0 (columns t))) (seq 0 (rows t)).
Proof.
  intros [Hrows Hcols]. unfold rowMajor.
  rewrite (rows_coordinates (columns t)) by assumption. now rewrite Hrows.
Qed.

End LayoutFacts.

(* ====================================================================== *)
(** * The request generator: styles, columns and tables *)
(* ====================================================================== *)

(** C2.  When body column [i] of a slide carries one text run over the
    characters 0 to 4 and that run sets only the bold effect, the batch
    holds exactly one style request on the element of that body for this
    range, with startIndex 0, endIndex 4 and the field mask bold, and that
    request comes after the insertion of the body's plain text into the same
    element. *)
Theorem bold_run_one_style_request :
  forall (tableIdOf : string -> nat -> string) (tpl : Layout.Template)
         (slide : Layout.SlideDefinition) (i : nat) (body : Layout.BodyDefinition)
         (run : Layout.TextRun),
    nth_error (Layout.bodies slide) i = Some body ->
    filter (Layout.runCovers 0 4) (Layout.textRuns (Layout.text body)) = [run] ->
    Layout.effects (Layout.style run) = ["bold"] ->
    Layout.ownElement tpl slide i ->
    let container := Layout.element (Layout.bodyId tpl (Layout.objectId slide) i) in
    let request := Layout.updateTextStyle container 0 4 (Layout.style run) "bold" in
    filter (Layout.stylesRange (Layout.bodyId tpl (Layout.objectId slide) i) 0 4)
           (Layout.generate tableIdOf tpl slide) = [request]
    /\ exists before between after,
        Layout.generate tableIdOf tpl slide
        = before
          ++ Layout.insertText container (Layout.rawText (Layout.text body))
          :: between ++ request :: after.
Proof.
  intros tableIdOf tpl slide i body run Hbody Hruns Hbold Hown container request.
  assert (Hin : In run (Layout.textRuns (Layout.text body))).
  { apply (proj1 (filter_In (Layout.runCovers 0 4) run _)).
    rewrite Hruns. now left. }
  assert (Hcov : Layout.runCovers 0 4 run = true).
  { apply (proj2 (proj1 (filter_In (Layout.runCovers 0 4) run
                           (Layout.textRuns (Layout.text body)))
                        ltac:(rewrite Hruns; now left))). }
  assert (Hreq : Layout.styleRequest container run = request).
  { unfold Layout.styleRequest, request, Layout.fieldMask. rewrite Hbold.
    unfold Layout.runCovers in Hcov. apply andb_true_iff in Hcov as [Hs He].
    apply Nat.eqb_eq in Hs, He. now rewrite Hs, He. }
  split.
  - rewrite (LayoutFacts.stylesRange_generate tableIdOf tpl slide i body 0 4 Hbody Hown).
    rewrite Hruns. simpl. fold container. now rewrite Hreq.
  - rewrite <- Hreq. now apply LayoutFacts.body_run_order.
Qed.

Lemma bold_run_one_style_request_witness :
  filter (Layout.stylesRange "body-element" 0 4)
         (Layout.generate Layout.sampleTableId Layout.mockTemplate Layout.formattedSlide)
  = [Layout.updateTextStyle (Layout.element "body-element") 0 4 Layout.boldStyle "bold"].
Proof.
  refine (proj1 (bold_run_one_style_request Layout.sampleTableId Layout.mockTemplate
                   Layout.formattedSlide 0 Layout.formattedBody Layout.boldRun
                   eq_refl eq_refl eq_refl _)).
  unfold Layout.ownElement, Layout.bodyId, Layout.bindBody. simpl.
  repeat split; try discriminate.
  intros [|j] Hlt H; [congruence|]. simpl in Hlt. lia.
Defined.

(** C3, as the generator has it.  For a slide with exactly two bodies, the
    batch inserts the text of the first body into the first bound body
    element and the text of the second body into the second bound body
    element.  The second element is the second body placeholder of the
    template when the template has one, and the generated identifier, the
    slide identifier followed by -element-2, only when the template has no
    second body placeholder. *)
Theorem two_bodies_bound_in_order :
  forall (tableIdOf : string -> nat -> string) (tpl : Layout.Template)
         (slide : Layout.SlideDefinition) (first second : Layout.BodyDefinition),
    Layout.bodies slide = [first; second] ->
    let page := Layout.objectId slide in
    In (Layout.insertText (Layout.element (Layout.bodyId tpl page 0))
                          (Layout.rawText (Layout.text first)))
       (Layout.generate tableIdOf tpl slide)
    /\ In (Layout.insertText (Layout.element (Layout.bodyId tpl page 1))
                            (Layout.rawText (Layout.text second)))
          (Layout.generate tableIdOf tpl slide)
    /\ (forall e1 e2 others,
          Layout.bodyElements tpl = e1 :: e2 :: others ->
          Layout.bodyId tpl page 0 = e1 /\ Layout.bodyId tpl page 1 = e2)
    /\ (forall e1,
          Layout.bodyElements tpl = [e1] ->
          Layout.bodyId tpl page 0 = e1
          /\ Layout.bodyId tpl page 1 = (page ++ "-element-2")%string)
    /\ (Layout.bodyElements tpl = [] ->
        Layout.bodyId tpl page 0 = (page ++ "-element")%string
        /\ Layout.bodyId tpl page 1 = (page ++ "-element-2")%string).
Proof.
  intros tableIdOf tpl slide first second Hbodies page.
  split; [|split; [|split; [|split]]].
  - apply LayoutFacts.body_insertion_emitted. now rewrite Hbodies.
  - apply LayoutFacts.body_insertion_emitted. now rewrite Hbodies.
  - intros e1 e2 others H. unfold Layout.bodyId, Layout.bindBody. now rewrite H.
  - intros e1 H. unfold Layout.bodyId, Layout.bindBody. now rewrite H.
  - intros H. unfold Layout.bodyId, Layout.bindBody. now rewrite H.
Qed.

Lemma two_bodies_bound_in_order_witness :
  In (Layout.insertText (Layout.element "body-element")
                        ("This is the left column" ++ Layout.newline))
     (Layout.generate Layout.sampleTableId Layout.mockTemplate Layout.twoColumnSlide)
  /\ In (Layout.insertText (Layout.element "body-element-2")
                          ("This is the right column" ++ Layout.newline))
        (Layout.generate Layout.sampleTableId Layout.mockTemplate Layout.twoColumnSlide).
Proof.
  pose proof (two_bodies_bound_in_order Layout.sampleTableId Layout.mockTemplate
                Layout.twoColumnSlide _ _ eq_refl) as [H1 [H2 _]].
  split; [exact H1 | exact H2].
Defined.

(** C3, as stated, fails on the two-column slide of the test suite: the
    slide has two bodies, the text of the second one goes to the template
    element body-element-2, and nothing is inserted into
    two-column-slide-element-2. *)
Lemma second_column_goes_to_template_element :
  length (Layout.bodies Layout.twoColumnSlide) = 2
  /\ In (Layout.insertText (Layout.element "body-element-2")
                          ("This is the right column" ++ Layout.newline))
        (Layout.generate Layout.sampleTableId Layout.mockTemplate Layout.twoColumnSlide)
  /\ forall txt,
      ~ In (Layout.insertText
              (Layout.element (Layout.objectId Layout.twoColumnSlide ++ "-element-2")) txt)
           (Layout.generate Layout.sampleTableId Layout.mockTemplate Layout.twoColumnSlide).
Proof.
  split; [reflexivity|]. split.
  - simpl. auto.
  - intros txt H. simpl in H.
    repeat (destruct H as [H|H]; [discriminate H|]). exact H.
Qed.

(** C4.  For a slide whose [k]-th table has 5 rows of 2 columns, the
    batch holds exactly one request creating that table, on the page of the
    slide and with rows 5 and columns 2; the text insertions into its cells
    follow in row-major order, each with the row and column index of its
    cell; and every style or bullet request on a cell comes after a text
    insertion into that cell. *)
Theorem table_cells_row_major :
  forall (tableIdOf : string -> nat -> string) (tpl : Layout.Template)
         (slide : Layout.SlideDefinition) (k : nat) (t : Layout.TableDefinition),
    nth_error (Layout.tables slide) k = Some t ->
    Layout.rows t = 5 -> Layout.columns t = 2 ->
    Layout.table_wf t ->
    (forall j, j < length (Layout.tables slide) -> j <> k ->
               tableIdOf (Layout.objectId slide) j <> tableIdOf (Layout.objectId slide) k) ->
    let tableId := tableIdOf (Layout.objectId slide) k in
    let batch := Layout.generate tableIdOf tpl slide in
    Layout.filter_map (Layout.tableEvent tableId) batch
    = Layout.tableCreated (Layout.objectId slide) 5 2 :: Layout.rowMajor t
    /\ Layout.filter_map Layout.coordinates (Layout.rowMajor t)
       = [(0, 0); (0, 1); (1, 0); (1, 1); (2, 0); (2, 1); (3, 0); (3, 1); (4, 0); (4, 1)]
    /\ (forall before r after row column,
          batch = before ++ r :: after ->
          Layout.rangeTarget r = Some (Layout.cell tableId row column) ->
          exists txt, In (Layout.insertText (Layout.cell tableId row column) txt) before).
Proof.
  intros tableIdOf tpl slide k t Htable Hrows Hcols Hwf Hids tableId batch.
  split; [|split].
  - unfold batch, tableId.
    rewrite (LayoutFacts.tableEvent_generate tableIdOf tpl slide k t Htable Hids).
    now rewrite Hrows, Hcols.
  - rewrite (LayoutFacts.rowMajor_coordinates t Hwf), Hrows, Hcols. reflexivity.
  - intros before r after row column E Hr.
    exact (LayoutFacts.rangesFollow_generate tableIdOf tpl slide before r after _ E Hr).
Qed.

Lemma table_cells_row_major_witness :
  Layout.filter_map (Layout.tableEvent "body-slide-table")
    (Layout.generate Layout.sampleTableId Layout.mockTemplate Layout.tableSlide)
  = Layout.tableCreated "body-slide" 5 2 :: Layout.rowMajor Layout.animalsTable.
Proof.
  refine (proj1 (table_cells_row_major Layout.sampleTableId Layout.mockTemplate
                   Layout.tableSlide 0 Layout.animalsTable
                   eq_refl eq_refl eq_refl _ _)).
  - split; [reflexivity|]. repeat constructor.
  - intros [|j] Hlt H; [congruence|]. simpl in Hlt. lia.
Defined.

(* ====================================================================== *)
(** * More on the style resolver *)
(* ====================================================================== *)

Module CssLookupFacts.

Import Css CssLookup.

(** ** Lookup in objects *)

Lemma get_set {V} (o : JsObj.t V) k v k' :
  JsObj.get (JsObj.set o k v) k' = if String.eqb k k' then Some v else JsObj.get o k'.
Proof.
  induction o as [|[k0 v0] o IH]; simpl.
  - reflexivity.
  - destruct (String.eqb_spec k0 k) as [->|Hne]; simpl.
    + now destruct (String.eqb k k').
    + rewrite IH. destruct (String.eqb_spec k0 k') as [->|_]; [|reflexivity].
      destruct (String.eqb_spec k k'); [congruence | reflexivity].
Qed.

Lemma get_notin {V} (o : JsObj.t V) k : ~ In k (JsObj.keys o) -> JsObj.get o k = None.
Proof.
  induction o as [|[k0 v0] o IH]; simpl; intros H; [reflexivity|].
  destruct (String.eqb_spec k0 k) as [->|_]; [exfalso; auto | auto].
Qed.

Lemma In_get {V} (o : JsObj.t V) k v :
  NoDup (JsObj.keys o) -> In (k, v) o -> JsObj.get o k = Some v.
Proof.
  induction o as [|[k0 v0] o IH]; simpl; intros Hnd Hin; [contradiction|].
  inversion Hnd as [|? ? Hnotin Hrest]; subst.
  destruct Hin as [Hin|Hin].
  - inversion Hin; subst. now rewrite String.eqb_refl.
  - destruct (String.eqb_spec k0 k) as [->|_]; [|auto].
    exfalso. apply Hnotin. now apply (in_map fst) in Hin.
Qed.

Lemma get_perm {V} (o o' : JsObj.t V) k :
  NoDup (JsObj.keys o) -> Permutation o o' -> JsObj.get o k = JsObj.get o' k.
Proof.
  intros Hnd Hperm.
  assert (Hnd' : NoDup (JsObj.keys o')).
  { unfold JsObj.keys. eapply Permutation_NoDup; [|exact Hnd].
    now apply Permutation_map. }
  destruct (JsObj.get o k) as [v|] eqn:E.
  - symmetry. apply In_get; [assumption|].
    eapply Permutation_in; [exact Hperm|]. now apply JsObjFacts.get_In.
  - destruct (JsObj.get o' k) as [v'|] eqn:E'; [|reflexivity].
    apply JsObjFacts.get_In in E'.
    apply (Permutation_in _ (Permutation_sym Hperm)) in E'.
    apply (In_get _ _ _ Hnd) in E'. congruence.
Qed.

Lemma get_entries {V} (o : JsObj.t V) k :
  NoDup (JsObj.keys o) -> JsObj.get (JsObj.entries o) k = JsObj.get o k.
Proof.
  intros Hnd. symmetry. apply get_perm; [assumption|].
  symmetry. apply JsObjFacts.entries_perm.
Qed.

Lemma keys_set_grows {V} (o : JsObj.t V) k v k' :
  In k' (JsObj.keys o) -> In k' (JsObj.keys (JsObj.set o k v)).
Proof.
  induction o as [|[k0 v0] o IH]; simpl; [contradiction|].
  destruct (String.eqb k0 k); simpl; intuition.
Qed.

Lemma keys_set_has {V} (o : JsObj.t V) k v : In k (JsObj.keys (JsObj.set o k v)).
Proof.
  induction o as [|[k0 v0] o IH]; simpl; [now left|].
  destruct (String.eqb_spec k0 k) as [->|_]; simpl; auto.
Qed.

Section WithPackages.

Variable parseColor : string -> ParsedColor.
Variable camelCase : string -> string.

(** ** [normalizeKeys] *)

Lemma get_fold_normalize (es : list (string * string)) :
  forall (o : CssRule) key,
    JsObj.get (fold_left (fun r e => JsObj.set r (camelCase (fst e)) (snd e)) es o) key
    = match lastNormalized camelCase key es with
      | Some v => Some v
      | None => JsObj.get o key
      end.
Proof.
  induction es as [|[k v] es IH]; intros o key; simpl; [reflexivity|].
  rewrite IH. destruct (lastNormalized camelCase key es); [reflexivity|].
  rewrite get_set. now destruct (String.eqb (camelCase k) key).
Qed.

Lemma keys_fold_normalize_grows (es : list (string * string)) :
  forall (o : CssRule) k,
    In k (JsObj.keys o) ->
    In k (JsObj.keys (fold_left (fun r e => JsObj.set r (camelCase (fst e)) (snd e)) es o)).
Proof.
  induction es as [|e es IH]; simpl; intros o k H; [assumption|].
  apply IH. now apply keys_set_grows.
Qed.

Lemma keys_fold_normalize_has (es : list (string * string)) :
  forall (o : CssRule) e,
    In e es ->
    In (camelCase (fst e))
       (JsObj.keys (fold_left (fun r e => JsObj.set r (camelCase (fst e)) (snd e)) es o)).
Proof.
  induction es as [|x es IH]; simpl; intros o e H; [contradiction|].
  destruct H as [->|H]; [|now apply IH].
  apply keys_fold_normalize_grows, keys_set_has.
Qed.

Lemma normalizeKeys_NoDup css : NoDup (JsObj.keys (normalizeKeys camelCase css)).
Proof. unfold normalizeKeys. apply JsObjFacts.fold_set_NoDup. constructor. Qed.

(** ** The loop, read as lookups *)

Lemma styleByLookup_step k v (es : list (string * string)) style :
  ~ In k (map fst es) ->
  styleByLookup parseColor es (updateStep parseColor style (k, v))
  = styleByLookup parseColor ((k, v) :: es) style.
Proof.
  intros Hnotin.
  assert (Hnone : JsObj.get es k = None) by now apply get_notin.
  unfold styleByLookup, updateStep. cbn [JsObj.get].
  destruct (String.eqb_spec k "color") as [->|H1];
    [cbn; rewrite Hnone; reflexivity|].
  destruct (String.eqb_spec k "backgroundColor") as [->|H2];
    [cbn; rewrite Hnone; reflexivity|].
  destruct (String.eqb_spec k "fontWeight") as [->|H3].
  { cbn. rewrite Hnone. destruct (String.eqb v "bold"); reflexivity. }
  destruct (String.eqb_spec k "fontStyle") as [->|H4].
  { cbn. rewrite Hnone.
    destruct (String.eqb_spec v "italic") as [->|]; [reflexivity|].
    destruct (String.eqb_spec v "underline") as [->|]; [reflexivity|].
    destruct (String.eqb_spec v "line-through") as [->|]; reflexivity. }
  destruct (String.eqb_spec k "fontFamily") as [->|H5];
    [cbn; rewrite Hnone; reflexivity|].
  destruct (String.eqb_spec k "fontVariant") as [->|H6].
  { cbn. rewrite Hnone. destruct (String.eqb v "small-caps"); reflexivity. }
  destruct (String.eqb_spec k "fontSize") as [->|H7].
  { cbn -[match_fontSize parseInt]. rewrite Hnone.
    destruct (match_fontSize v); reflexivity. }
  destruct style; reflexivity.
Qed.

Lemma fold_by_lookup (es : list (string * string)) :
  forall style,
    NoDup (map fst es) ->
    fold_left (updateStep parseColor) es style = styleByLookup parseColor es style.
Proof.
  induction es as [|[k v] es IH]; intros style Hnd.
  - destruct style; reflexivity.
  - inversion Hnd as [|? ? Hnotin Hrest]; subst. cbn [fold_left].
    rewrite IH by assumption. now apply styleByLookup_step.
Qed.

Lemma styleByLookup_ext (r1 r2 : CssRule) style :
  (forall k, JsObj.get r1 k = JsObj.get r2 k) ->
  styleByLookup parseColor r1 style = styleByLookup parseColor r2 style.
Proof. intros H. unfold styleByLookup. now rewrite !H. Qed.

Lemma keyword_kept expected given old : kept old (keyword expected given old).
Proof.
  unfold kept, keyword. destruct given as [v|]; [|now left].
  destruct (String.eqb v expected); [now right | now left].
Qed.

Lemma keyword_twice expected given old :
  keyword expected given (keyword expected given old) = keyword expected given old.
Proof.
  unfold keyword. destruct given as [v|]; [|reflexivity].
  now destruct (String.eqb v expected).
Qed.

End WithPackages.

End CssLookupFacts.

Module CssRuleFacts.

Import Css CssLookup.

Lemma lastNormalized_last camelCase key before k v after :
  camelCase k = key ->
  (forall e, In e after -> camelCase (fst e) <> key) ->
  lastNormalized camelCase key (before ++ (k, v) :: after) = Some v.
Proof.
  intros Hk Hafter.
  assert (Hnone : lastNormalized camelCase key after = None).
  { induction after as [|[k' v'] after IH]; simpl; [reflexivity|].
    rewrite IH by (intros e He; apply Hafter; now right).
    destruct (String.eqb_spec (camelCase k') key) as [E|_]; [|reflexivity].
    exfalso. apply (Hafter (k', v')); [now left | exact E]. }
  induction before as [|[k' v'] before IH]; simpl.
  - rewrite Hnone, Hk. now rewrite String.eqb_refl.
  - now rewrite IH.
Qed.

(** ** Declarations and rules *)

Lemma collectStep_dropped acc d : keptDeclaration d = false -> collectStep acc d = acc.
Proof.
  unfold keptDeclaration, collectStep, assign.
  destruct (property d) as [p|], (value d); try reflexivity.
  destruct (String.eqb (decl_type d) "declaration" && Str.truthy p);
    [|reflexivity].
  now destruct (String.eqb p "__proto__").
Qed.

Lemma collect_filter (ds : list Declaration) :
  forall acc,
    fold_left collectStep ds acc = fold_left collectStep (filter keptDeclaration ds) acc.
Proof.
  induction ds as [|d ds IH]; intros acc; [reflexivity|].
  cbn [fold_left filter]. destruct (keptDeclaration d) eqn:E; cbn [fold_left].
  - apply IH.
  - rewrite collectStep_dropped by assumption. apply IH.
Qed.

Lemma get_collectStep acc d p :
  JsObj.get (collectStep acc d) p
  = if keptDeclaration d
    then match property d, value d with
         | Some p', Some v => if String.eqb p' p then Some v else JsObj.get acc p
         | _, _ => JsObj.get acc p
         end
    else JsObj.get acc p.
Proof.
  unfold keptDeclaration, collectStep, assign.
  destruct (property d) as [p'|], (value d) as [v|]; try reflexivity.
  destruct (String.eqb (decl_type d) "declaration" && Str.truthy p');
    [|reflexivity].
  destruct (String.eqb p' "__proto__"); [reflexivity | apply CssLookupFacts.get_set].
Qed.

(** No declaration makes [__proto__] a property of the object. *)
Lemma collect_no_proto (ds : list Declaration) :
  forall acc,
    ~ In "__proto__" (JsObj.keys acc) ->
    ~ In "__proto__" (JsObj.keys (fold_left collectStep ds acc)).
Proof.
  induction ds as [|d ds IH]; intros acc Hacc; [exact Hacc|].
  cbn [fold_left]. apply IH. unfold collectStep, assign.
  destruct (property d) as [p|], (value d) as [v|]; try exact Hacc.
  destruct (String.eqb (decl_type d) "declaration" && Str.truthy p); [|exact Hacc].
  destruct (String.eqb_spec p "__proto__") as [_|Hp]; [exact Hacc|].
  intros Hin. apply JsObjFacts.keys_set in Hin. destruct Hin as [Heq|Hin]; auto.
Qed.

Lemma get_collect_after (after : list Declaration) p :
  (forall d, In d after -> keptDeclaration d = true -> property d <> Some p) ->
  forall acc, JsObj.get (fold_left collectStep after acc) p = JsObj.get acc p.
Proof.
  induction after as [|d after IH]; intros H acc; [reflexivity|].
  cbn [fold_left]. rewrite IH by (intros d' Hd'; apply H; now right).
  rewrite get_collectStep. destruct (keptDeclaration d) eqn:E; [|reflexivity].
  specialize (H d (or_introl eq_refl) E).
  destruct (property d) as [p'|], (value d); try reflexivity.
  destruct (String.eqb_spec p' p); [congruence | reflexivity].
Qed.

Lemma get_fold_selectors (d : CssRule) (sels : list string) sel :
  forall o : Stylesheet,
    JsObj.get (fold_left (fun res selector => JsObj.set res selector d) sels o) sel
    = if existsb (String.eqb sel) sels then Some d else JsObj.get o sel.
Proof.
  induction sels as [|s sels IH]; intros o; simpl; [reflexivity|].
  rewrite IH, CssLookupFacts.get_set, (String.eqb_sym sel s).
  destruct (existsb (String.eqb sel) sels); [now rewrite orb_true_r|].
  now rewrite orb_false_r.
Qed.

Lemma get_addRule (o : Stylesheet) r sel :
  JsObj.get (addRule o r) sel
  = if binds sel r then Some (collectDeclarations (declarationsOf r))
    else JsObj.get o sel.
Proof.
  unfold addRule, binds, declarationsOf.
  destruct (selectors r) as [sels|], (declarations r) as [ds|]; try reflexivity.
  destruct (String.eqb (rule_type r) "rule"); simpl; [|reflexivity].
  apply get_fold_selectors.
Qed.

Lemma get_fold_addRule (rs : list Rule) sel :
  (forall r, In r rs -> binds sel r = false) ->
  forall o, JsObj.get (fold_left addRule rs o) sel = JsObj.get o sel.
Proof.
  induction rs as [|r rs IH]; intros H o; [reflexivity|].
  cbn [fold_left]. rewrite IH by (intros r' Hr'; apply H; now right).
  rewrite get_addRule. now rewrite (H r (or_introl eq_refl)).
Qed.

(** The loop of [updateStyleDefinition] computes the lookups. *)
Lemma update_by_lookup parseColor camelCase css style :
  updateStyleDefinition parseColor camelCase css style
  = styleByLookup parseColor (normalizeKeys camelCase css) style.
Proof.
  unfold updateStyleDefinition.
  rewrite CssLookupFacts.fold_by_lookup.
  - apply CssLookupFacts.styleByLookup_ext. intros k.
    apply CssLookupFacts.get_entries, CssLookupFacts.normalizeKeys_NoDup.
  - apply JsObjFacts.entries_NoDup, CssLookupFacts.normalizeKeys_NoDup.
Qed.

End CssRuleFacts.

(* ====================================================================== *)
(** * The style resolver: further properties *)
(* ====================================================================== *)

(** X1.  [updateStyleDefinition] is a field-by-field lookup: each field of
    the result is decided by the value the normalized rule holds under the
    one key that governs it, and by nothing else in the rule. *)
Theorem updateStyleDefinition_by_lookup :
  forall (parseColor : string -> Css.ParsedColor) (camelCase : string -> string)
         (css : Css.CssRule) (style : Css.StyleDefinition),
    Css.updateStyleDefinition parseColor camelCase css style
    = CssLookup.styleByLookup parseColor (Css.normalizeKeys camelCase css) style.
Proof.
  intros parseColor camelCase css style. apply CssRuleFacts.update_by_lookup.
Qed.

(** X2.  Applying the same rule twice gives the same style as applying it
    once. *)
Theorem updateStyleDefinition_idempotent :
  forall (parseColor : string -> Css.ParsedColor) (camelCase : string -> string)
         (css : Css.CssRule) (style : Css.StyleDefinition),
    Css.updateStyleDefinition parseColor camelCase css
      (Css.updateStyleDefinition parseColor camelCase css style)
    = Css.updateStyleDefinition parseColor camelCase css style.
Proof.
  intros parseColor camelCase css style.
  rewrite !CssRuleFacts.update_by_lookup.
  unfold CssLookup.styleByLookup. cbn [Css.bold Css.italic Css.underline
    Css.strikethrough Css.smallCaps Css.fontFamily Css.fontSize
    Css.foregroundColor Css.backgroundColor].
  rewrite !CssLookupFacts.keyword_twice.
  f_equal.
  - now destruct (JsObj.get _ "fontFamily").
  - unfold CssLookup.fontSizeOf. destruct (JsObj.get _ "fontSize") as [v|]; [|reflexivity].
    now destruct (Css.match_fontSize v).
  - unfold CssLookup.colorOf. now destruct (JsObj.get _ "color").
  - unfold CssLookup.colorOf. now destruct (JsObj.get _ "backgroundColor").
Qed.

(** X3.  The result depends only on the values the two rules hold, once
    normalized, under the recognized keys: the order of the properties and
    the properties under other keys do not matter. *)
Theorem updateStyleDefinition_order_free :
  forall (parseColor : string -> Css.ParsedColor) (camelCase : string -> string)
         (css1 css2 : Css.CssRule) (style : Css.StyleDefinition),
    (forall key, Css.recognized key = true ->
                 JsObj.get (Css.normalizeKeys camelCase css1) key
                 = JsObj.get (Css.normalizeKeys camelCase css2) key) ->
    Css.updateStyleDefinition parseColor camelCase css1 style
    = Css.updateStyleDefinition parseColor camelCase css2 style.
Proof.
  intros parseColor camelCase css1 css2 style H.
  rewrite !CssRuleFacts.update_by_lookup. unfold CssLookup.styleByLookup.
  rewrite (H "fontWeight"), (H "fontStyle"), (H "fontVariant"), (H "fontFamily"),
    (H "fontSize"), (H "color"), (H "backgroundColor") by reflexivity.
  reflexivity.
Qed.

Lemma updateStyleDefinition_order_free_witness :
  Css.updateStyleDefinition Css.sampleParseColor Css.sampleCamelCase
    [("color", "#ff0080"); ("font-size", "12pt")] Css.emptyStyle
  = Css.updateStyleDefinition Css.sampleParseColor Css.sampleCamelCase
      [("margin", "0"); ("font-size", "12pt"); ("color", "#ff0080")] Css.emptyStyle.
Proof.
  apply updateStyleDefinition_order_free.
  intros key Hkey. unfold Css.recognized in Hkey.
  repeat (apply orb_prop in Hkey; destruct Hkey as [Hkey|Hkey]);
    apply String.eqb_eq in Hkey; subst key; reflexivity.
Defined.

(** X4.  [updateStyleDefinition] never lowers a flag: bold, italic,
    underline, strikethrough and smallCaps are each what they were in the
    style given, or true. *)
Theorem updateStyleDefinition_keeps_flags :
  forall (parseColor : string -> Css.ParsedColor) (camelCase : string -> string)
         (css : Css.CssRule) (style : Css.StyleDefinition),
    let result := Css.updateStyleDefinition parseColor camelCase css style in
    CssLookup.kept (Css.bold style) (Css.bold result)
    /\ CssLookup.kept (Css.italic style) (Css.italic result)
    /\ CssLookup.kept (Css.underline style) (Css.underline result)
    /\ CssLookup.kept (Css.strikethrough style) (Css.strikethrough result)
    /\ CssLookup.kept (Css.smallCaps style) (Css.smallCaps result).
Proof.
  intros parseColor camelCase css style result. unfold result.
  rewrite CssRuleFacts.update_by_lookup. unfold CssLookup.styleByLookup.
  cbn [Css.bold Css.italic Css.underline Css.strikethrough Css.smallCaps].
  repeat split; apply CssLookupFacts.keyword_kept.
Qed.

(** X5.  A colour that does not parse is not skipped: a rule whose color
    (or backgroundColor) value does not resolve to RGB removes the
    foreground (or background) colour the style had. *)
Theorem unparseable_color_erases :
  forall (parseColor : string -> Css.ParsedColor) (camelCase : string -> string)
         (css : Css.CssRule) (style : Css.StyleDefinition) (value : string),
    Css.rgba (parseColor value) = None ->
    (JsObj.get (Css.normalizeKeys camelCase css) "color" = Some value ->
     Css.foregroundColor (Css.updateStyleDefinition parseColor camelCase css style) = None)
    /\ (JsObj.get (Css.normalizeKeys camelCase css) "backgroundColor" = Some value ->
        Css.backgroundColor (Css.updateStyleDefinition parseColor camelCase css style) = None).
Proof.
  intros parseColor camelCase css style value Hrgba.
  rewrite CssRuleFacts.update_by_lookup. unfold CssLookup.styleByLookup.
  cbn [Css.foregroundColor Css.backgroundColor].
  split; intros ->; unfold CssLookup.colorOf, Css.parseColorString; now rewrite Hrgba.
Qed.

Lemma unparseable_color_erases_witness :
  Css.foregroundColor CssLookup.redStyle <> None
  /\ Css.foregroundColor
       (Css.updateStyleDefinition CssLookup.redOnly Css.sampleCamelCase
          [("color", "rouge")] CssLookup.redStyle)
     = None.
Proof.
  split; [discriminate|].
  apply (proj1 (unparseable_color_erases CssLookup.redOnly Css.sampleCamelCase
                  [("color", "rouge")] CssLookup.redStyle "rouge" eq_refl)).
  reflexivity.
Defined.

(** X6.  When several properties of a rule normalize to the same key, the
    one enumerated last gives the value: [normalizeKeys] holds, under a
    normalized key, the value of the last entry that normalizes to it. *)
Theorem normalizeKeys_last_wins :
  forall (camelCase : string -> string) (css : Css.CssRule)
         (before after : list (string * string)) (key value : string),
    JsObj.entries css = before ++ (key, value) :: after ->
    (forall e, In e after -> camelCase (fst e) <> camelCase key) ->
    JsObj.get (Css.normalizeKeys camelCase css) (camelCase key) = Some value.
Proof.
  intros camelCase css before after key value Hentries Hafter.
  unfold Css.normalizeKeys. rewrite CssLookupFacts.get_fold_normalize, Hentries.
  now rewrite (CssRuleFacts.lastNormalized_last camelCase (camelCase key)
                 before key value after eq_refl Hafter).
Qed.

Lemma normalizeKeys_last_wins_witness :
  JsObj.get (Css.normalizeKeys Css.sampleCamelCase
               [("fontSize", "10pt"); ("color", "red"); ("font-size", "12pt")])
            "fontSize"
  = Some "12pt".
Proof.
  apply (normalizeKeys_last_wins Css.sampleCamelCase
           [("fontSize", "10pt"); ("color", "red"); ("font-size", "12pt")]
           [("fontSize", "10pt"); ("color", "red")] [] "font-size" "12pt" eq_refl).
  intros e [].
Defined.

(** X7.  The keys of a normalized rule are exactly the normalized keys of
    the rule, each of them once. *)
Theorem normalizeKeys_key_set :
  forall (camelCase : string -> string) (css : Css.CssRule),
    NoDup (JsObj.keys (Css.normalizeKeys camelCase css))
    /\ forall key,
        In key (JsObj.keys (Css.normalizeKeys camelCase css))
        <-> exists key0, In key0 (JsObj.keys css) /\ key = camelCase key0.
Proof.
  intros camelCase css. split; [apply CssLookupFacts.normalizeKeys_NoDup|].
  intros key. split.
  - apply CssFacts.normalizeKeys_keys.
  - intros [key0 [Hin ->]]. unfold JsObj.keys in Hin.
    apply in_map_iff in Hin. destruct Hin as [[k v] [Hk Hin]]. simpl in Hk. subst k.
    unfold Css.normalizeKeys.
    apply (CssLookupFacts.keys_fold_normalize_has camelCase _ _ (key0, v)).
    now apply JsObjFacts.In_entries.
Qed.

(** X8.  In a style sheet, a later rule for a selector replaces the
    declarations of the earlier ones, it does not add to them:
    [parseStyleSheet] gives a selector the declarations of the last rule
    node that binds it, and nothing of the rules before. *)
Theorem parseStyleSheet_last_rule_wins :
  forall (css_parse : string -> Js.completion Css.ParsedCss) (cssString : string)
         (before after : list Css.Rule) (r : Css.Rule) (selector : string),
    CssLookup.reachesParser cssString = true ->
    css_parse cssString = Js.Return (CssLookup.sheetOf (before ++ r :: after)) ->
    CssLookup.binds selector r = true ->
    (forall r', In r' after -> CssLookup.binds selector r' = false) ->
    exists sheet,
      Css.parseStyleSheet css_parse (Some cssString) = Js.Return sheet
      /\ JsObj.get sheet selector
         = Some (Css.collectDeclarations (CssLookup.declarationsOf r)).
Proof.
  intros css_parse cssString before after r selector Hreach Hparse Hbinds Hafter.
  unfold CssLookup.reachesParser in Hreach.
  apply andb_true_iff in Hreach as [Htruthy Hblank].
  apply negb_true_iff in Hblank.
  unfold Css.parseStyleSheet, Css.convertCssToObject.
  rewrite Htruthy, Hblank, Hparse. simpl.
  eexists. split; [reflexivity|].
  rewrite fold_left_app. cbn [fold_left].
  rewrite (CssRuleFacts.get_fold_addRule after selector Hafter).
  now rewrite CssRuleFacts.get_addRule, Hbinds.
Qed.

Lemma parseStyleSheet_last_rule_wins_witness :
  exists sheet,
    Css.parseStyleSheet CssLookup.sampleCssParse (Some "h1, h2 {color: red} h1 {font-size: 12pt}")
    = Js.Return sheet
    /\ JsObj.get sheet "h1" = Some [("font-size", "12pt")].
Proof.
  exact (parseStyleSheet_last_rule_wins CssLookup.sampleCssParse
           "h1, h2 {color: red} h1 {font-size: 12pt}"
           [CssLookup.h1Color; CssLookup.mediaNode] [] CssLookup.h1Size "h1"
           eq_refl eq_refl eq_refl (fun r' (H : In r' []) => match H with end)).
Defined.

(** X9.  Within one rule, only the nodes of type declaration with a value
    and a property that is not empty and is not [__proto__] count, and of
    two such declarations of the same property the later one gives the
    value.  A declaration of [__proto__] stores nothing: [__proto__] is
    never a property of the object. *)
Theorem collectDeclarations_last_wins :
  forall (before after : list Css.Declaration) (d : Css.Declaration) (p v : string),
    CssLookup.keptDeclaration d = true ->
    Css.property d = Some p -> Css.value d = Some v ->
    (forall d', In d' after -> CssLookup.keptDeclaration d' = true ->
                Css.property d' <> Some p) ->
    JsObj.get (Css.collectDeclarations (before ++ d :: after)) p = Some v
    /\ Css.collectDeclarations (before ++ d :: after)
       = Css.collectDeclarations (filter CssLookup.keptDeclaration (before ++ d :: after))
    /\ p <> "__proto__"
    /\ ~ In "__proto__" (JsObj.keys (Css.collectDeclarations (before ++ d :: after))).
Proof.
  intros before after d p v Hkept Hp Hv Hafter.
  change Css.collectDeclarations
    with (fun ds => fold_left CssLookup.collectStep ds (@JsObj.empty string)).
  cbv beta. split; [|split; [|split]].
  - rewrite fold_left_app. cbn [fold_left].
    rewrite (CssRuleFacts.get_collect_after after p Hafter).
    rewrite CssRuleFacts.get_collectStep, Hkept, Hp, Hv.
    now rewrite String.eqb_refl.
  - apply CssRuleFacts.collect_filter.
  - unfold CssLookup.keptDeclaration in Hkept. rewrite Hp, Hv in Hkept.
    apply andb_true_iff in Hkept. destruct Hkept as [_ Hkept].
    intros ->. discriminate Hkept.
  - apply CssRuleFacts.collect_no_proto. intros [].
Qed.

Lemma collectDeclarations_last_wins_witness :
  JsObj.get (Css.collectDeclarations
               [CssLookup.fontSize12; CssLookup.colorRed; CssLookup.protoRed;
                CssLookup.aComment])
            "color"
  = Some "red"
  /\ Css.collectDeclarations
       [CssLookup.fontSize12; CssLookup.colorRed; CssLookup.protoRed; CssLookup.aComment]
     = Css.collectDeclarations [CssLookup.fontSize12; CssLookup.colorRed].
Proof.
  refine ((fun H => conj (proj1 H) (proj1 (proj2 H)))
            (collectDeclarations_last_wins [CssLookup.fontSize12]
               [CssLookup.protoRed; CssLookup.aComment]
               CssLookup.colorRed "color" "red" eq_refl eq_refl eq_refl _)).
  intros d' [<-|[<-|[]]]; discriminate.
Defined.

(** X10.  [parseInlineStyle] gives the declarations of the last rule that
    the parsed text binds to the selector .dummy, whatever is bound to
    dummy; the undotted selector is only a fallback. *)
Theorem parseInlineStyle_prefers_dotted :
  forall (css_parse : string -> Js.completion Css.ParsedCss)
         (declarationsToRule : string -> string) (inlineStyle : string)
         (before after : list Css.Rule) (r : Css.Rule),
    CssLookup.reachesParser (declarationsToRule inlineStyle) = true ->
    css_parse (declarationsToRule inlineStyle)
    = Js.Return (CssLookup.sheetOf (before ++ r :: after)) ->
    CssLookup.binds ".dummy" r = true ->
    (forall r', In r' after -> CssLookup.binds ".dummy" r' = false) ->
    Css.parseInlineStyle css_parse declarationsToRule inlineStyle
    = Js.Return (Css.collectDeclarations (CssLookup.declarationsOf r)).
Proof.
  intros css_parse declarationsToRule inlineStyle before after r Hreach Hparse Hbinds Hafter.
  unfold CssLookup.reachesParser in Hreach.
  apply andb_true_iff in Hreach as [Htruthy Hblank].
  apply negb_true_iff in Hblank.
  unfold Css.parseInlineStyle, Css.convertCssToObject.
  rewrite Htruthy, Hblank, Hparse. simpl.
  rewrite fold_left_app. cbn [fold_left].
  rewrite (CssRuleFacts.get_fold_addRule after ".dummy" Hafter).
  now rewrite CssRuleFacts.get_addRule, Hbinds.
Qed.

Lemma parseInlineStyle_prefers_dotted_witness :
  Css.parseInlineStyle ImageSamples.inlineSheet Css.sampleDeclarationsToRule "font-size: 12pt"
  = Js.Return [("font-size", "12pt")].
Proof.
  refine (parseInlineStyle_prefers_dotted ImageSamples.inlineSheet
            Css.sampleDeclarationsToRule "font-size: 12pt"
            [ {| Css.rule_type := "rule"; Css.selectors := Some ["dummy"];
                 Css.declarations := Some [CssLookup.colorRed] |} ] []
            {| Css.rule_type := "rule"; Css.selectors := Some [".dummy"];
               Css.declarations := Some [CssLookup.fontSize12] |}
            eq_refl eq_refl eq_refl _).
  intros r' [].
Defined.

(* ====================================================================== *)
(** * The image helpers: further properties *)
(* ====================================================================== *)

Module ImageMoreFacts.

Import RemoteSvg.

Lemma includes_nonempty s p :
  Str.truthy p = true -> Str.includes s p = true -> Str.truthy s = true.
Proof.
  intros Hp H. destruct s; [|reflexivity].
  destruct p; [discriminate|]. simpl in H. discriminate.
Qed.

Lemma rev_string_nonempty s acc :
  Str.truthy acc = true -> Str.truthy (Str.rev_string s acc) = true.
Proof.
  revert acc. induction s as [|c s IH]; intros acc H; simpl; [assumption|].
  now apply IH.
Qed.

Lemma trimStart_nonempty s : Str.truthy (Str.trimStart s) = true -> Str.truthy s = true.
Proof. destruct s; [discriminate | reflexivity]. Qed.

Lemma rev_string_empty s acc :
  Str.truthy (Str.rev_string s acc) = true -> Str.truthy s = true \/ Str.truthy acc = true.
Proof. destruct s; simpl; auto. Qed.

(** Trimming cannot make a text out of nothing. *)
Lemma trim_nonempty s : Str.truthy (Str.trim s) = true -> Str.truthy s = true.
Proof.
  unfold Str.trim, Str.trimEnd. intros H.
  apply rev_string_empty in H. destruct H as [H|H]; [|discriminate].
  apply trimStart_nonempty in H.
  apply rev_string_empty in H. destruct H as [H|H]; [|discriminate].
  now apply trimStart_nonempty.
Qed.

Lemma svg_content_nonempty content :
  Str.includes (Str.trim content) "<svg" = true -> Str.truthy content = true.
Proof.
  intros H. apply trim_nonempty. now apply (includes_nonempty _ "<svg").
Qed.

(** The outcomes of [convertRemoteSVG]: the image as it was, or the image
    with the url of the rendered file. *)
Lemma convert_cases axios_get renderSVG image :
  convertRemoteSVG axios_get renderSVG image = Js.Return image
  \/ exists u content pngPath,
      url image = Some u
      /\ axios_get u = Js.Return (TextBody content)
      /\ Str.includes (Str.trim content) "<svg" = true
      /\ renderSVG (withSource image content) = Js.Return pngPath
      /\ convertRemoteSVG axios_get renderSVG image
         = Js.Return (set_url image ("file://" ++ pngPath)).
Proof.
  unfold convertRemoteSVG.
  destruct (url image) as [u|] eqn:Eu; [|now left].
  destruct (negb (Str.truthy u)); [now left|].
  destruct (negb (Str.endsWith _ _)); [now left|].
  destruct (Str.startsWith _ _); [now left|].
  unfold download_and_convert.
  destruct (axios_get u) as [[content|]|e] eqn:Eget; simpl; try now left.
  destruct (Str.includes (Str.trim content) "<svg") eqn:Einc; simpl; [|now left].
  destruct (renderSVG (withSource image content)) as [pngPath|e] eqn:Er; simpl;
    [|now left].
  right. exists u, content, pngPath. repeat split; auto.
Qed.

Lemma local_url_guard axios_get renderSVG image path :
  url image = Some ("file://" ++ path)%string ->
  convertRemoteSVG axios_get renderSVG image = Js.Return image.
Proof.
  intros H. unfold convertRemoteSVG. rewrite H. simpl.
  destruct (negb (Str.endsWith _ _)); [reflexivity|].
  assert (Hlocal : Str.startsWith ("file://" ++ path) "file://" = true)
    by apply StrFacts.prefix_app.
  simpl in Hlocal. now rewrite Hlocal.
Qed.

Lemma convert_success axios_get renderSVG image u content pngPath :
  url image = Some u ->
  svgSuffix u = true ->
  localFile u = false ->
  axios_get u = Js.Return (TextBody content) ->
  Str.includes (Str.trim content) "<svg" = true ->
  renderSVG (withSource image content) = Js.Return pngPath ->
  convertRemoteSVG axios_get renderSVG image
  = Js.Return (set_url image ("file://" ++ pngPath)).
Proof.
  intros Hu Hsvg Hlocal Hget Hinc Hrender.
  unfold svgSuffix in Hsvg. unfold localFile in Hlocal.
  unfold convertRemoteSVG, download_and_convert.
  rewrite Hu, Hsvg, Hlocal, Hget. simpl. rewrite Hinc. simpl. rewrite Hrender. simpl.
  destruct u; [discriminate Hsvg | reflexivity].
Qed.

End ImageMoreFacts.

(** X11.  [uploadLocalImage] rejects with the cause: a failure of the
    request is passed on as it is, and an answer without status success or
    without a usable url is reported as an error carrying the serialized
    answer. *)
Theorem uploadLocalImage_rejection_reason :
  forall (axios_post : string -> Js.completion Upload.UploadResponse)
         (JSON_stringify : Upload.UploadResponse -> string) (filePath : string),
    (forall e, axios_post filePath = Js.Throw e ->
               fst (Upload.uploadLocalImage axios_post JSON_stringify filePath)
               = Js.Throw e)
    /\ (forall res,
          axios_post filePath = Js.Return res ->
          Upload.status res <> Some "success" \/ Upload.lacks_url res ->
          fst (Upload.uploadLocalImage axios_post JSON_stringify filePath)
          = Js.Throw (Js.Error (JSON_stringify res))).
Proof.
  intros axios_post JSON_stringify filePath.
  unfold Upload.uploadLocalImage, Upload.upload_body. split.
  - intros e ->. reflexivity.
  - intros res -> Hbad. simpl.
    destruct (Upload.status_is_success res) eqn:Es; simpl; [|reflexivity].
    apply ImageFacts.status_is_success_true in Es.
    destruct Hbad as [Hbad|Hbad]; [contradiction|].
    apply ImageFacts.has_url_false in Hbad. rewrite Hbad. reflexivity.
Qed.

Lemma uploadLocalImage_rejection_reason_witness :
  fst (Upload.uploadLocalImage ImageSamples.errorPost Upload.sampleStringify "/tmp/a.png")
  = Js.Throw (Js.Error "{...}").
Proof.
  apply (proj2 (uploadLocalImage_rejection_reason ImageSamples.errorPost
                  Upload.sampleStringify "/tmp/a.png")
               ImageSamples.errorResponse eq_refl).
  left. discriminate.
Defined.

(** X12.  The address rewriting of [uploadLocalImage] changes a url exactly
    when it starts with http://tmpfiles.org/ or https://tmpfiles.org/, and
    it is not idempotent: rewriting a download url again inserts a second
    dl segment. *)
Theorem toDownloadUrl_rewrites_host_only :
  forall u : string,
    (Upload.toDownloadUrl u = u
     <-> Str.startsWith u "http://tmpfiles.org/" = false
         /\ Str.startsWith u "https://tmpfiles.org/" = false)
    /\ (forall rest,
          u = ("http://tmpfiles.org/" ++ rest)%string ->
          Upload.toDownloadUrl (Upload.toDownloadUrl u)
          = ("https://tmpfiles.org/dl/dl/" ++ rest)%string).
Proof.
  intros u. split.
  - split.
    + intros Hfix.
      destruct (Str.startsWith u "https://tmpfiles.org/") eqn:Es.
      * exfalso. apply StrFacts.startsWith_iff in Es. destruct Es as [rest ->].
        rewrite ImageFacts.toDownloadUrl_https in Hfix.
        apply (f_equal String.length) in Hfix. simpl in Hfix. lia.
      * destruct (Str.startsWith u "http://tmpfiles.org/") eqn:Eh; [|auto].
        exfalso. apply StrFacts.startsWith_iff in Eh. destruct Eh as [rest ->].
        rewrite ImageFacts.toDownloadUrl_http in Hfix. simpl in Hfix. discriminate.
    + intros [Hh Hs]. unfold Upload.toDownloadUrl. now rewrite Hs, Hh.
  - intros rest ->. rewrite ImageFacts.toDownloadUrl_http.
    change ("https://tmpfiles.org/dl/" ++ rest)%string
      with ("https://tmpfiles.org/" ++ ("dl/" ++ rest))%string.
    now rewrite ImageFacts.toDownloadUrl_https.
Qed.

Lemma toDownloadUrl_rewrites_host_only_witness :
  Upload.toDownloadUrl (Upload.toDownloadUrl "http://tmpfiles.org/12345/file.png")
  = "https://tmpfiles.org/dl/dl/12345/file.png".
Proof.
  exact (proj2 (toDownloadUrl_rewrites_host_only "http://tmpfiles.org/12345/file.png")
               "12345/file.png" eq_refl).
Defined.

(** X13.  Whatever happens, [convertRemoteSVG] changes nothing of the image
    but its url, and the url of the result is the url given or file://
    followed by the path the renderer returned. *)
Theorem convertRemoteSVG_changes_only_url :
  forall (axios_get : string -> Js.completion RemoteSvg.ResponseBody)
         (renderSVG : RemoteSvg.ImageDefinition -> Js.completion string)
         (image : RemoteSvg.ImageDefinition),
  exists result,
    RemoteSvg.convertRemoteSVG axios_get renderSVG image = Js.Return result
    /\ RemoteSvg.source result = RemoteSvg.source image
    /\ RemoteSvg.type result = RemoteSvg.type image
    /\ RemoteSvg.width result = RemoteSvg.width image
    /\ RemoteSvg.height result = RemoteSvg.height image
    /\ RemoteSvg.padding result = RemoteSvg.padding image
    /\ RemoteSvg.offsetX result = RemoteSvg.offsetX image
    /\ RemoteSvg.offsetY result = RemoteSvg.offsetY image
    /\ (RemoteSvg.url result = RemoteSvg.url image
        \/ exists content pngPath,
            renderSVG (RemoteSvg.withSource image content) = Js.Return pngPath
            /\ RemoteSvg.url result = Some ("file://" ++ pngPath)%string).
Proof.
  intros axios_get renderSVG image.
  destruct (ImageMoreFacts.convert_cases axios_get renderSVG image)
    as [->|(u & content & pngPath & _ & _ & _ & Hr & ->)].
  - exists image. repeat split; auto.
  - eexists. split; [reflexivity|]. simpl. repeat split; auto.
    right. now exists content, pngPath.
Qed.

(** X14.  When the url is a remote .svg address, the download answers with
    text that holds an svg tag and the renderer returns a path,
    [convertRemoteSVG] resolves with the image whose url is file://
    followed by that path. *)
Theorem convertRemoteSVG_converts :
  forall (axios_get : string -> Js.completion RemoteSvg.ResponseBody)
         (renderSVG : RemoteSvg.ImageDefinition -> Js.completion string)
         (image : RemoteSvg.ImageDefinition) (u content pngPath : string),
    RemoteSvg.url image = Some u ->
    RemoteSvg.svgSuffix u = true ->
    RemoteSvg.localFile u = false ->
    axios_get u = Js.Return (RemoteSvg.TextBody content) ->
    Str.includes (Str.trim content) "<svg" = true ->
    renderSVG (RemoteSvg.withSource image content) = Js.Return pngPath ->
    RemoteSvg.convertRemoteSVG axios_get renderSVG image
    = Js.Return (RemoteSvg.set_url image ("file://" ++ pngPath)).
Proof.
  intros axios_get renderSVG image u content pngPath Hu Hsvg Hlocal Hget Hinc Hrender.
  now apply (ImageMoreFacts.convert_success _ _ image u content pngPath).
Qed.

Lemma convertRemoteSVG_converts_witness :
  RemoteSvg.convertRemoteSVG ImageSamples.svgGet RemoteSvg.sampleRender RemoteSvg.remoteImage
  = Js.Return (RemoteSvg.set_url RemoteSvg.remoteImage "file:///tmp/tmp-1.png").
Proof.
  exact (convertRemoteSVG_converts ImageSamples.svgGet RemoteSvg.sampleRender
           RemoteSvg.remoteImage "https://example.com/logo.SVG" ImageSamples.svgText
           "/tmp/tmp-1.png" eq_refl eq_refl eq_refl eq_refl eq_refl eq_refl).
Defined.

(** X15.  A converted image is not converted again: when [convertRemoteSVG]
    has changed the url of an image, a second pass over the result returns
    it as it is, whatever the network and the renderer would do. *)
Theorem convertRemoteSVG_settles :
  forall (axios_get axios_get' : string -> Js.completion RemoteSvg.ResponseBody)
         (renderSVG renderSVG' : RemoteSvg.ImageDefinition -> Js.completion string)
         (image result : RemoteSvg.ImageDefinition),
    RemoteSvg.convertRemoteSVG axios_get renderSVG image = Js.Return result ->
    RemoteSvg.url result <> RemoteSvg.url image ->
    RemoteSvg.convertRemoteSVG axios_get' renderSVG' result = Js.Return result.
Proof.
  intros axios_get axios_get' renderSVG renderSVG' image result Hconv Hchanged.
  destruct (ImageMoreFacts.convert_cases axios_get renderSVG image)
    as [Hsame|(u & content & pngPath & _ & _ & _ & _ & Hnew)].
  - rewrite Hsame in Hconv. inversion Hconv; subst. contradiction.
  - rewrite Hnew in Hconv. inversion Hconv; subst.
    now apply (ImageMoreFacts.local_url_guard _ _ _ pngPath).
Qed.

Lemma convertRemoteSVG_settles_witness :
  RemoteSvg.convertRemoteSVG RemoteSvg.failingGet ImageSamples.failingRender
    (RemoteSvg.set_url RemoteSvg.remoteImage "file:///tmp/tmp-1.png")
  = Js.Return (RemoteSvg.set_url RemoteSvg.remoteImage "file:///tmp/tmp-1.png").
Proof.
  apply (convertRemoteSVG_settles ImageSamples.svgGet RemoteSvg.failingGet
           RemoteSvg.sampleRender ImageSamples.failingRender RemoteSvg.remoteImage).
  - reflexivity.
  - discriminate.
Defined.

(** X16.  An answer that is not text, or text without an svg tag, leaves
    the image as it was, and the renderer plays no part: the result is the
    same for every renderer. *)
Theorem convertRemoteSVG_skips_other_content :
  forall (axios_get : string -> Js.completion RemoteSvg.ResponseBody)
         (renderSVG : RemoteSvg.ImageDefinition -> Js.completion string)
         (image : RemoteSvg.ImageDefinition) (u : string),
    RemoteSvg.url image = Some u ->
    (axios_get u = Js.Return RemoteSvg.OtherBody
     \/ exists content,
         axios_get u = Js.Return (RemoteSvg.TextBody content)
         /\ Str.includes (Str.trim content) "<svg" = false) ->
    RemoteSvg.convertRemoteSVG axios_get renderSVG image = Js.Return image.
Proof.
  intros axios_get renderSVG image u Hu Hbody.
  unfold RemoteSvg.convertRemoteSVG, RemoteSvg.download_and_convert. rewrite Hu.
  destruct (negb (Str.truthy u)); [reflexivity|].
  destruct (negb (Str.endsWith _ _)); [reflexivity|].
  destruct (Str.startsWith _ _); [reflexivity|].
  destruct Hbody as [->|[content [-> Hinc]]]; simpl; [reflexivity|].
  now rewrite Hinc.
Qed.

Lemma convertRemoteSVG_skips_other_content_witness :
  RemoteSvg.convertRemoteSVG ImageSamples.htmlGet ImageSamples.failingRender
    RemoteSvg.remoteImage
  = Js.Return RemoteSvg.remoteImage.
Proof.
  apply (convertRemoteSVG_skips_other_content ImageSamples.htmlGet
           ImageSamples.failingRender RemoteSvg.remoteImage
           "https://example.com/logo.SVG" eq_refl).
  right. exists "<html>Not Found</html>". split; reflexivity.
Defined.

(* ====================================================================== *)
(** * The SVG renderers *)
(* ====================================================================== *)

Module FxFacts.

Import Fx.

Lemma post_ret {W A} (a : A) (Q : Js.completion A -> W -> Prop) w :
  Q (Js.Return a) w -> post (ret a) Q w.
Proof. exact (fun H => H). Qed.

Lemma post_throw {W A} e (Q : Js.completion A -> W -> Prop) w :
  Q (Js.Throw e) w -> post (throw e) Q w.
Proof. exact (fun H => H). Qed.

Lemma post_bind {W A B} (m : M W A) (k : A -> M W B) (Q : Js.completion B -> W -> Prop) w :
  post m (fun r w' =>
            match r with
            | Js.Return a => post (k a) Q w'
            | Js.Throw e => Q (Js.Throw e) w'
            end) w ->
  post (bind m k) Q w.
Proof.
  unfold post, bind. destruct (m w) as [[a|e] w']; simpl; auto.
Qed.

Lemma post_try_finally {W A} (m : M W A) (f : M W unit)
      (Q : Js.completion A -> W -> Prop) w :
  post m (fun r w' =>
            post f (fun rf w'' =>
                      match rf with
                      | Js.Return _ => Q r w''
                      | Js.Throw e => Q (Js.Throw e) w''
                      end) w') w ->
  post (try_finally m f) Q w.
Proof.
  unfold post, try_finally. destruct (m w) as [r w']; simpl.
  destruct (f w') as [[u|e] w'']; simpl; auto.
Qed.

Lemma post_weaken {W A} (m : M W A) (Q Q' : Js.completion A -> W -> Prop) w :
  (forall r w', Q r w' -> Q' r w') -> post m Q w -> post m Q' w.
Proof. unfold post. auto. Qed.

End FxFacts.

Module SvgFacts.

Import Svg.

Lemma count_app f a b : count f (a ++ b) = count f a + count f b.
Proof. unfold count. now rewrite filter_app, length_app. Qed.

Lemma post_external {A} c (outcome : nat -> Js.completion A)
      (Q : Js.completion A -> World -> Prop) w :
  Q (outcome (clock w)) (tick w c (Fx.succeeded (outcome (clock w)))) ->
  Fx.post (external c outcome) Q w.
Proof. exact (fun H => H). Qed.

Section Renderer.

Variable tmpName : nat -> string -> Js.completion string.
Variable writeFile : nat -> string -> string -> Js.completion unit.
Variable sharpToFile : nat -> string -> Z -> string -> Js.completion unit.
Variable launch : nat -> Js.completion Browser.
Variable newPage : nat -> Browser -> Js.completion Page.
Variable setContent : nat -> Page -> string -> Js.completion unit.
Variable evaluate : nat -> Page -> Js.completion (option (Q * Q)).
Variable setViewport : nat -> Page -> Z -> Z -> Z -> Js.completion unit.
Variable screenshot : nat -> Page -> string -> Js.completion unit.
Variable closePage : nat -> Page -> Js.completion unit.

Let renderSource' :=
  renderSource tmpName writeFile sharpToFile launch newPage setContent
               evaluate setViewport screenshot closePage.

Lemma post_getBrowser (Q : Js.completion Browser -> World -> Prop) w :
  match browserInstance w with
  | Some b => Q (Js.Return b) w
  | None =>
      Fx.post (b <~ external Launch launch ;;
               _ <~ set_browserInstance b ;;
               Fx.ret b) Q w
  end ->
  Fx.post (getBrowser launch) Q w.
Proof.
  unfold Fx.post, getBrowser, Fx.bind, readBrowser, getBrowserFrom.
  now destruct (browserInstance w).
Qed.

Lemma post_set_browserInstance b (Q : Js.completion unit -> World -> Prop) w :
  Q (Js.Return tt) {| browserInstance := Some b; clock := clock w; trace := trace w |} ->
  Fx.post (set_browserInstance b) Q w.
Proof. exact (fun H => H). Qed.

(** Runs the next call of the computation, in both outcomes. *)
Ltac next_call :=
  apply FxFacts.post_bind; apply post_external;
  match goal with
  | |- context [Fx.succeeded ?o] => destruct o eqn:?
  end; cbn [Fx.succeeded].

Ltac last_call :=
  apply post_external;
  match goal with
  | |- context [Fx.succeeded ?o] => destruct o eqn:?
  end; cbn [Fx.succeeded].

(** At the end of a run: the calls made are the difference of the traces. *)
Ltac the_calls :=
  unfold Fx.post, Fx.ret, reached; cbn [fst snd trace tick browserInstance];
  rewrite <- ?app_assoc; cbn [app]; eexists; split; [reflexivity|].

Ltac in_calls := cbn [In]; repeat (first [left; reflexivity | right]).

Ltac the_path :=
  let path := fresh "path" in
  let H := fresh "H" in
  intros path H;
  first
    [ discriminate H
    | injection H as <-; split;
      [ eexists; eassumption | first [ eexists; in_calls | in_calls ] ] ].

Ltac no_close_failure :=
  let page := fresh "page" in
  let H := fresh "H" in
  intros page H; cbn [In] in H;
  repeat match goal with
         | H : _ \/ _ |- _ => destruct H as [H|H]
         end;
  first [ reflexivity | discriminate H | contradiction ].

Ltac settle :=
  the_calls; repeat match goal with |- _ /\ _ => split end;
  first
    [ reflexivity
    | assumption
    | the_path
    | left; split; [assumption | reflexivity]
    | right; eexists; split; reflexivity
    | no_close_failure ].

Lemma renderSource_step src w :
  Fx.post (renderSource' src)
          (fun r w' =>
             exists delta,
               reached w w' delta
               /\ stepFacts w w' delta
               /\ renderFacts tmpName src r delta
               /\ closeFailureRejects r delta) w.
Proof.
  unfold renderSource', renderSource, stepFacts, renderFacts, closeFailureRejects.
  destruct (browserInstance w) as [b0|] eqn:Eb.
  all: destruct (Str.includes src "foreignObject") eqn:Einc.
  all: next_call; [|settle].
  all: next_call; [|settle].
  all: next_call; [|settle].
  all: apply FxFacts.post_bind.
  all: cbn [tick clock trace browserInstance].
  - apply FxFacts.post_bind, post_getBrowser. cbn [tick browserInstance]. rewrite Eb.
    next_call; [|settle].
    apply FxFacts.post_try_finally. unfold renderInPage.
    next_call; [|last_call; settle].
    next_call; [|last_call; settle].
    destruct (dimensionsOf _) as [width height].
    next_call; [|last_call; settle].
    last_call; last_call; settle.
  - last_call; settle.
  - apply FxFacts.post_bind, post_getBrowser. cbn [tick browserInstance]. rewrite Eb.
    next_call; [|settle].
    apply FxFacts.post_bind, post_set_browserInstance.
    apply FxFacts.post_ret. cbn [clock trace tick].
    next_call; [|settle].
    apply FxFacts.post_try_finally. unfold renderInPage.
    next_call; [|last_call; settle].
    next_call; [|last_call; settle].
    destruct (dimensionsOf _) as [width height].
    next_call; [|last_call; settle].
    last_call; last_call; settle.
  - last_call; settle.
Qed.


Let render :=
  renderSVGWithBrowser tmpName writeFile sharpToFile launch newPage setContent
                       evaluate setViewport screenshot closePage.

Lemma render_with_source image src w :
  RemoteSvg.source image = Some src -> Str.truthy src = true ->
  render image w = renderSource' src w.
Proof.
  intros Hsrc Htruthy.
  unfold render, renderSVGWithBrowser, Fx.bind, assertSource.
  rewrite Hsrc, Htruthy. reflexivity.
Qed.

Lemma render_without_source image w :
  RemoteSvg.source image = None \/ RemoteSvg.source image = Some EmptyString ->
  render image w = (Js.Throw assertionError, w).
Proof.
  unfold render, renderSVGWithBrowser, Fx.bind, assertSource.
  intros [->| ->]; reflexivity.
Qed.

Lemma render_step image w :
  exists delta,
    reached w (snd (render image w)) delta
    /\ stepFacts w (snd (render image w)) delta
    /\ closeFailureRejects (fst (render image w)) delta.
Proof.
  destruct (RemoteSvg.source image) as [[|c src]|] eqn:Esrc.
  - rewrite render_without_source by auto. exists []. unfold reached, stepFacts.
    cbn [snd fst]. rewrite app_nil_r.
    repeat split; auto; try (destruct (browserInstance w); now auto);
      try (intros page []).
  - rewrite (render_with_source image (String c src) w Esrc eq_refl).
    destruct (renderSource_step (String c src) w) as (delta & H1 & H2 & _ & H4).
    exists delta. auto.
  - rewrite render_without_source by auto. exists []. unfold reached, stepFacts.
    cbn [snd fst]. rewrite app_nil_r.
    repeat split; auto; try (destruct (browserInstance w); now auto);
      try (intros page []).
Qed.


Let renderAll' :=
  renderAll tmpName writeFile sharpToFile launch newPage setContent
            evaluate setViewport screenshot closePage.


Lemma renderAll_pages images :
  forall w,
    exists delta,
      reached w (renderAll' images w) delta
      /\ count isOpened delta = count isClose delta.
Proof.
  induction images as [|image images IH]; intros w.
  - exists []. split; [unfold reached; now rewrite app_nil_r | reflexivity].
  - unfold renderAll', renderAll. cbn [fold_left].
    destruct (render_step image w) as (d1 & H1 & [H2 _] & _).
    destruct (IH (snd (render image w))) as (d2 & H3 & H4).
    exists (d1 ++ d2). unfold reached in *. split.
    + etransitivity; [exact H3|]. rewrite H1. symmetry. apply app_assoc.
    + rewrite !count_app. lia.
Qed.


End Renderer.

(** The sharp-only renderer, once the environment answers. *)
Lemma renderSVG_sharp tmpName sharpToFile image src path w :
  RemoteSvg.source image = Some src -> Str.truthy src = true ->
  tmpName (clock w) ".png" = Js.Return path ->
  sharpToFile (S (clock w)) src 300%Z path = Js.Return tt ->
  fst (renderSVG tmpName sharpToFile image w) = Js.Return path.
Proof.
  intros Hsrc Htruthy Htmp Hsharp.
  unfold renderSVG, Fx.bind, assertSource, external.
  rewrite Hsrc, Htruthy. cbn [Fx.ret]. rewrite Htmp. cbn [tick clock].
  rewrite Hsharp. reflexivity.
Qed.

End SvgFacts.

(* ====================================================================== *)
(** * The SVG renderers: properties *)
(* ====================================================================== *)

(** X17.  Every page the renderer opens is closed: over any list of images
    rendered one after the other, from any world and whatever fails on the
    way, the calls made hold as many page closings as pages opened. *)
Theorem renderSVG_closes_every_page :
  forall (tmpName : nat -> string -> Js.completion string)
         (writeFile : nat -> string -> string -> Js.completion unit)
         (sharpToFile : nat -> string -> Z -> string -> Js.completion unit)
         (launch : nat -> Js.completion Svg.Browser)
         (newPage : nat -> Svg.Browser -> Js.completion Svg.Page)
         (setContent : nat -> Svg.Page -> string -> Js.completion unit)
         (evaluate : nat -> Svg.Page -> Js.completion (option (Q * Q)))
         (setViewport : nat -> Svg.Page -> Z -> Z -> Z -> Js.completion unit)
         (screenshot : nat -> Svg.Page -> string -> Js.completion unit)
         (closePage : nat -> Svg.Page -> Js.completion unit)
         (images : list RemoteSvg.ImageDefinition) (w : Svg.World),
  exists delta,
    Svg.trace (Svg.renderAll tmpName writeFile sharpToFile launch newPage setContent
                 evaluate setViewport screenshot closePage images w)
    = Svg.trace w ++ delta
    /\ Svg.count Svg.isOpened delta = Svg.count Svg.isClose delta.
Proof. intros. apply SvgFacts.renderAll_pages. Qed.



(** X19.  One rendering uses one renderer: for a source that holds
    foreignObject no sharp call is made, for any other source no browser
    call is made; and a path that is returned is the one [tmpName] gave
    for the PNG, to which the screenshot, or sharp, has written
    successfully. *)
Theorem renderSVG_one_renderer :
  forall (tmpName : nat -> string -> Js.completion string)
         (writeFile : nat -> string -> string -> Js.completion unit)
         (sharpToFile : nat -> string -> Z -> string -> Js.completion unit)
         (launch : nat -> Js.completion Svg.Browser)
         (newPage : nat -> Svg.Browser -> Js.completion Svg.Page)
         (setContent : nat -> Svg.Page -> string -> Js.completion unit)
         (evaluate : nat -> Svg.Page -> Js.completion (option (Q * Q)))
         (setViewport : nat -> Svg.Page -> Z -> Z -> Z -> Js.completion unit)
         (screenshot : nat -> Svg.Page -> string -> Js.completion unit)
         (closePage : nat -> Svg.Page -> Js.completion unit)
         (image : RemoteSvg.ImageDefinition) (src : string) (w : Svg.World),
    RemoteSvg.source image = Some src ->
    Str.truthy src = true ->
    let run :=
      Svg.renderSVGWithBrowser tmpName writeFile sharpToFile launch newPage setContent
                               evaluate setViewport screenshot closePage image w in
    exists delta,
      Svg.trace (snd run) = Svg.trace w ++ delta
      /\ Svg.renderFacts tmpName src (fst run) delta.
Proof.
  intros until w. intros Hsrc Htruthy run. unfold run.
  rewrite (SvgFacts.render_with_source tmpName writeFile sharpToFile launch newPage
             setContent evaluate setViewport screenshot closePage image src w
             Hsrc Htruthy).
  destruct (SvgFacts.renderSource_step tmpName writeFile sharpToFile launch newPage
              setContent evaluate setViewport screenshot closePage src w)
    as (delta & H1 & _ & H3 & _).
  exists delta. split; assumption.
Qed.

Lemma renderSVG_one_renderer_witness :
  exists delta,
    Svg.trace (snd (Svg.renderSVGWithBrowser Svg.tmpNames Svg.done2 Svg.done3 Svg.launches
                      Svg.opensPage Svg.done2 Svg.noRect Svg.done4 Svg.done2 Svg.done1
                      Svg.htmlSvg Svg.initialWorld))
    = Svg.trace Svg.initialWorld ++ delta
    /\ Svg.renderFacts Svg.tmpNames
         "<svg><foreignObject><div>x</div></foreignObject></svg>"
         (fst (Svg.renderSVGWithBrowser Svg.tmpNames Svg.done2 Svg.done3 Svg.launches
                 Svg.opensPage Svg.done2 Svg.noRect Svg.done4 Svg.done2 Svg.done1
                 Svg.htmlSvg Svg.initialWorld))
         delta.
Proof.
  exact (renderSVG_one_renderer Svg.tmpNames Svg.done2 Svg.done3 Svg.launches
           Svg.opensPage Svg.done2 Svg.noRect Svg.done4 Svg.done2 Svg.done1
           Svg.htmlSvg "<svg><foreignObject><div>x</div></foreignObject></svg>"
           Svg.initialWorld eq_refl eq_refl).
Defined.

(** X20.  A page that cannot be closed rejects the rendering, even when
    the screenshot was taken: whenever the calls of a rendering hold a
    failed page closing, the rendering does not return a path. *)
Theorem renderSVG_close_failure_rejects :
  forall (tmpName : nat -> string -> Js.completion string)
         (writeFile : nat -> string -> string -> Js.completion unit)
         (sharpToFile : nat -> string -> Z -> string -> Js.completion unit)
         (launch : nat -> Js.completion Svg.Browser)
         (newPage : nat -> Svg.Browser -> Js.completion Svg.Page)
         (setContent : nat -> Svg.Page -> string -> Js.completion unit)
         (evaluate : nat -> Svg.Page -> Js.completion (option (Q * Q)))
         (setViewport : nat -> Svg.Page -> Z -> Z -> Z -> Js.completion unit)
         (screenshot : nat -> Svg.Page -> string -> Js.completion unit)
         (closePage : nat -> Svg.Page -> Js.completion unit)
         (image : RemoteSvg.ImageDefinition) (w : Svg.World),
    let run :=
      Svg.renderSVGWithBrowser tmpName writeFile sharpToFile launch newPage setContent
                               evaluate setViewport screenshot closePage image w in
    exists delta,
      Svg.trace (snd run) = Svg.trace w ++ delta
      /\ forall page,
          In {| Svg.call := Svg.ClosePage page; Svg.ok := false |} delta ->
          exists e, fst run = Js.Throw e.
Proof.
  intros. unfold run.
  destruct (SvgFacts.render_step tmpName writeFile sharpToFile launch newPage
              setContent evaluate setViewport screenshot closePage image w)
    as (delta & H1 & _ & H3).
  exists delta. split; [exact H1|].
  intros page Hin. specialize (H3 page Hin).
  destruct (fst _) as [p|e]; [discriminate | eauto].
Qed.

Lemma renderSVG_close_failure_rejects_witness :
  exists e,
    fst (Svg.renderSVGWithBrowser Svg.tmpNames Svg.done2 Svg.done3 Svg.launches
           Svg.opensPage Svg.done2 Svg.noRect Svg.done4 Svg.done2 Svg.closeFails
           Svg.htmlSvg Svg.initialWorld)
    = Js.Throw e.
Proof.
  destruct (renderSVG_close_failure_rejects Svg.tmpNames Svg.done2 Svg.done3 Svg.launches
              Svg.opensPage Svg.done2 Svg.noRect Svg.done4 Svg.done2 Svg.closeFails
              Svg.htmlSvg Svg.initialWorld) as (delta & Ht & H).
  apply (H 4). change (Svg.trace Svg.initialWorld ++ delta) with delta in Ht.
  rewrite <- Ht. vm_compute. repeat (first [left; reflexivity | right]).
Defined.

(** X21.  Through [convertRemoteSVG], the sharp-only [renderSVG] always
    gets past its assertion: the text it is given holds an svg tag, so is
    not empty.  When the temporary name and the conversion succeed, the
    image comes back with the url of the PNG file. *)
Theorem convertRemoteSVG_with_renderSVG :
  forall (axios_get : string -> Js.completion RemoteSvg.ResponseBody)
         (tmpName : nat -> string -> Js.completion string)
         (sharpToFile : nat -> string -> Z -> string -> Js.completion unit)
         (image : RemoteSvg.ImageDefinition) (u content path : string) (w : Svg.World),
    RemoteSvg.url image = Some u ->
    RemoteSvg.svgSuffix u = true ->
    RemoteSvg.localFile u = false ->
    axios_get u = Js.Return (RemoteSvg.TextBody content) ->
    Str.includes (Str.trim content) "<svg" = true ->
    tmpName (Svg.clock w) ".png" = Js.Return path ->
    sharpToFile (S (Svg.clock w)) content 300%Z path = Js.Return tt ->
    RemoteSvg.convertRemoteSVG axios_get
      (fun img => fst (Svg.renderSVG tmpName sharpToFile img w)) image
    = Js.Return (RemoteSvg.set_url image ("file://" ++ path)).
Proof.
  intros axios_get tmpName sharpToFile image u content path w
         Hu Hsvg Hlocal Hget Hinc Htmp Hsharp.
  apply (ImageMoreFacts.convert_success _ _ image u content path); auto.
  apply (SvgFacts.renderSVG_sharp _ _ _ content); auto.
  now apply ImageMoreFacts.svg_content_nonempty.
Qed.

Lemma convertRemoteSVG_with_renderSVG_witness :
  RemoteSvg.convertRemoteSVG ImageSamples.svgGet
    (fun img => fst (Svg.renderSVG Svg.tmpNames Svg.done3 img Svg.initialWorld))
    RemoteSvg.remoteImage
  = Js.Return (RemoteSvg.set_url RemoteSvg.remoteImage "file:///tmp/tmp-1.png").
Proof.
  exact (convertRemoteSVG_with_renderSVG ImageSamples.svgGet Svg.tmpNames Svg.done3
           RemoteSvg.remoteImage "https://example.com/logo.SVG" ImageSamples.svgText
           "/tmp/tmp-1.png" Svg.initialWorld
           eq_refl eq_refl eq_refl eq_refl eq_refl eq_refl eq_refl).
Defined.

(* ====================================================================== *)
(** * The user authorizer: properties *)
(* ====================================================================== *)

Module AuthFacts.

Import Auth.

Lemma count_append f l1 l2 : count f (l1 ++ l2) = count f l1 + count f l2.
Proof. unfold count. now rewrite filter_app, length_app. Qed.

Lemma writes_no_authenticate delta :
  forallb isWrite delta = true -> count isAuthenticate delta = 0.
Proof.
  induction delta as [|e delta IH]; [reflexivity|].
  cbn [forallb]. intros H. apply andb_prop in H. destruct H as [He H].
  unfold count. cbn [filter].
  unfold isWrite in He. unfold isAuthenticate.
  destruct (call e); try discriminate. now apply IH.
Qed.

Lemma refreshable_set d user c :
  refreshable d = true -> truthy (refresh_token c) = true ->
  refreshable (JsObj.set d user c) = true.
Proof.
  intros Hd Hc. induction d as [|[k v] d IH]; cbn in *.
  - now rewrite Hc.
  - apply andb_prop in Hd. destruct Hd as [Hv Hd].
    destruct (String.eqb k user); cbn.
    + now rewrite Hc.
    + rewrite Hv. now apply IH.
Qed.

Lemma refresh_token_spread tokens newTokens :
  truthy (refresh_token newTokens) = true ->
  refresh_token (spread tokens newTokens) = refresh_token newTokens.
Proof. cbn. destruct (refresh_token newTokens); [discriminate | discriminate | reflexivity]. Qed.

Lemma onlyStores_refl user w : onlyStores user w w.
Proof.
  repeat split; auto. exists []. now rewrite app_nil_r.
Qed.

Lemma onlyStores_trans user w1 w2 w3 :
  onlyStores user w1 w2 -> onlyStores user w2 w3 -> onlyStores user w1 w3.
Proof.
  intros (Ha & Hb & d1 & Hc & Hd) (Ha' & Hb' & d2 & Hc' & Hd').
  repeat split.
  - intros u Hu. now rewrite Ha', Ha.
  - auto.
  - exists (d1 ++ d2). split.
    + now rewrite Hc', Hc, app_assoc.
    + now rewrite forallb_app, Hd, Hd'.
Qed.

Section Authorizer.

Variable keyfilePath : string.
Variable getAccessToken : nat -> Credentials -> Refresh.
Variable authenticate : nat -> list string -> string -> Js.completion Credentials.
Variable dbWrite : nat -> Db -> Js.completion unit.

Let run := getUserCredentials keyfilePath getAccessToken authenticate dbWrite.

(** [store]: the entry is set, and one write is made, which decides the
    outcome. *)
Lemma store_does user c w :
  let d := JsObj.set (data w) user c in
  store dbWrite user c w
  = (dbWrite (clock w) d,
     {| data := d; clock := S (clock w);
        trace := trace w ++ [{| call := DbWrite d; ok := Fx.succeeded (dbWrite (clock w) d) |}] |}).
Proof. reflexivity. Qed.

Lemma store_onlyStores user c w :
  truthy (refresh_token c) = true ->
  onlyStores user w (snd (store dbWrite user c w)).
Proof.
  intros Hc. rewrite store_does. cbn [snd]. repeat split; cbn [data trace].
  - intros u Hu. rewrite CssLookupFacts.get_set.
    destruct (String.eqb_spec user u); [congruence | reflexivity].
  - intros Hd. now apply refreshable_set.
  - eexists. split; reflexivity.
Qed.

Lemma onTokens_onlyStores user tokens newTokens w :
  onlyStores user w (snd (onTokens dbWrite user tokens newTokens w)).
Proof.
  unfold onTokens. destruct (truthy (refresh_token newTokens)) eqn:E.
  - apply store_onlyStores. now rewrite refresh_token_spread.
  - apply onlyStores_refl.
Qed.

Lemma emitAll_onlyStores user tokens r :
  forall w, onlyStores user w (snd (emitAll (onTokens dbWrite user tokens) r w)).
Proof.
  induction r as [outcome | newTokens next IH]; intros w; cbn [emitAll].
  - apply onlyStores_refl.
  - pose proof (onTokens_onlyStores user tokens newTokens w) as H1.
    destruct (onTokens dbWrite user tokens newTokens w) as [ended w'].
    cbn [snd] in H1. eapply onlyStores_trans; [exact H1 | apply IH].
Qed.

(** [refresh]: the listener's stores, then the call's own event. *)
Lemma refresh_does user tokens w :
  exists w1,
    onlyStores user w w1
    /\ snd (refresh getAccessToken dbWrite user tokens w)
       = tick w1 (GetAccessToken tokens)
              (Fx.succeeded (fst (refresh getAccessToken dbWrite user tokens w))).
Proof.
  unfold refresh.
  pose proof (emitAll_onlyStores user tokens (getAccessToken (clock w) tokens) w) as H.
  destruct (emitAll _ _ w) as [r w1]. cbn [snd fst] in *.
  exists w1. split; [exact H | reflexivity].
Qed.

Lemma reauthenticate_cases user scopes w :
  let asked ok := tick w (Authenticate scopes keyfilePath) ok in
  let r := reauthenticate keyfilePath authenticate dbWrite user scopes w in
  (exists e, r = (Js.Throw e, asked false))
  \/ (exists c,
        truthy (refresh_token c) = false
        /\ r = (Js.Return (LocalAuthClient c), asked true))
  \/ (exists c,
        truthy (refresh_token c) = true
        /\ r = ((_ <- dbWrite (S (clock w)) (JsObj.set (data w) user c) ;;
                 Js.Return (LocalAuthClient c)),
                snd (store dbWrite user c (asked true)))).
Proof.
  cbn zeta. unfold reauthenticate, Fx.bind, external.
  destruct (authenticate (clock w) scopes keyfilePath) as [c|e].
  - destruct (truthy (refresh_token c)) eqn:E.
    + right. right. exists c. split; [exact E|].
      rewrite !store_does. cbn [fst snd tick data clock Fx.succeeded].
      now destruct (dbWrite _ _).
    + right. left. exists c. split; [exact E | reflexivity].
  - left. exists e. reflexivity.
Qed.

(** The calls of [reauthenticate]: [authenticate], once, then at most a
    write. *)
Lemma reauthenticate_trace user scopes w :
  exists post,
    trace (snd (reauthenticate keyfilePath authenticate dbWrite user scopes w))
    = trace w ++ post
    /\ count isAuthenticate post = 1
    /\ forall tokens, ~ In {| call := GetAccessToken tokens; ok := true |} post.
Proof.
  destruct (reauthenticate_cases user scopes w)
    as [[e H] | [(c & Hc & H) | (c & Hc & H)]]; rewrite H; cbn [snd].
  - eexists. split; [reflexivity|]. split; [reflexivity|].
    intros tokens [Heq | []]. discriminate.
  - eexists. split; [reflexivity|]. split; [reflexivity|].
    intros tokens [Heq | []]. discriminate.
  - rewrite store_does. cbn [snd trace tick]. rewrite <- app_assoc.
    eexists. split; [reflexivity|]. split; [reflexivity|].
    intros tokens [Heq | [Heq | []]]; discriminate.
Qed.

Lemma getUserCredentials_cases user scopes w :
  (JsObj.get (data w) user = None
   /\ run user scopes w = reauthenticate keyfilePath authenticate dbWrite user scopes w)
  \/ exists tokens w1,
       JsObj.get (data w) user = Some tokens
       /\ onlyStores user w w1
       /\ (run user scopes w
           = (Js.Return (OAuth2Client tokens), tick w1 (GetAccessToken tokens) true)
           \/ run user scopes w
              = reauthenticate keyfilePath authenticate dbWrite user scopes
                               (tick w1 (GetAccessToken tokens) false)).
Proof.
  unfold run, getUserCredentials.
  destruct (JsObj.get (data w) user) as [tokens|]; [right | left; auto].
  destruct (refresh_does user tokens w) as (w1 & H1 & H2).
  exists tokens, w1. split; [reflexivity|]. split; [exact H1|].
  destruct (refresh getAccessToken dbWrite user tokens w) as [[[]|e] w'];
    cbn [fst snd Fx.succeeded] in H2; subst w'; auto.
Qed.

Lemma tick_onlyStores_data user w w1 c ok :
  onlyStores user w w1 ->
  (forall u, u <> user -> JsObj.get (data (tick w1 c ok)) u = JsObj.get (data w) u)
  /\ (refreshable (data w) = true -> refreshable (data (tick w1 c ok)) = true).
Proof. intros (Ha & Hb & _). split; assumption. Qed.

(** Whatever happens, [reauthenticate] changes no other entry and keeps
    the refresh tokens. *)
Lemma reauthenticate_data user scopes w :
  let w' := snd (reauthenticate keyfilePath authenticate dbWrite user scopes w) in
  (forall u, u <> user -> JsObj.get (data w') u = JsObj.get (data w) u)
  /\ (refreshable (data w) = true -> refreshable (data w') = true).
Proof.
  cbn zeta.
  destruct (reauthenticate_cases user scopes w)
    as [[e H] | [(c & Hc & H) | (c & Hc & H)]]; rewrite H; cbn [snd].
  - split; auto.
  - split; auto.
  - destruct (store_onlyStores user c (tick w (Authenticate scopes keyfilePath) true) Hc)
      as (Ha & Hb & _).
    split; assumption.
Qed.

Lemma getUserCredentials_data user scopes w :
  let w' := snd (run user scopes w) in
  (forall u, u <> user -> JsObj.get (data w') u = JsObj.get (data w) u)
  /\ (refreshable (data w) = true -> refreshable (data w') = true).
Proof.
  cbn zeta.
  destruct (getUserCredentials_cases user scopes w)
    as [[_ H] | (tokens & w1 & _ & H1 & [H | H])]; rewrite H.
  - apply reauthenticate_data.
  - cbn [snd]. now apply tick_onlyStores_data.
  - destruct (reauthenticate_data user scopes (tick w1 (GetAccessToken tokens) false))
      as [Ha Hb].
    destruct (tick_onlyStores_data user w w1 (GetAccessToken tokens) false H1) as [Ha' Hb'].
    split.
    + intros u Hu. now rewrite Ha, Ha'.
    + auto.
Qed.

Lemma onTokensAll_onlyStores user tokens news :
  forall w, onlyStores user w (onTokensAll dbWrite user tokens news w).
Proof.
  unfold onTokensAll.
  induction news as [|n news IH]; intros w; cbn [fold_left].
  - apply onlyStores_refl.
  - eapply onlyStores_trans; [apply onTokens_onlyStores | apply IH].
Qed.




End Authorizer.

End AuthFacts.

(** X22.  The authorizer touches the entry of one user only: whatever the
    refresh, the authentication and the writes do, the credentials stored
    for every other user are the same after [getUserCredentials], and
    after any later calls of its listener for new tokens. *)
Theorem getUserCredentials_touches_one_user :
  forall (keyfilePath : string)
         (getAccessToken : nat -> Auth.Credentials -> Auth.Refresh)
         (authenticate : nat -> list string -> string -> Js.completion Auth.Credentials)
         (dbWrite : nat -> Auth.Db -> Js.completion unit)
         (user : string) (scopes : list string) (w : Auth.World) (other : string),
    other <> user ->
    JsObj.get
      (Auth.data (snd (Auth.getUserCredentials keyfilePath getAccessToken authenticate
                         dbWrite user scopes w))) other
    = JsObj.get (Auth.data w) other
    /\ forall tokens news,
        JsObj.get (Auth.data (Auth.onTokensAll dbWrite user tokens news w)) other
        = JsObj.get (Auth.data w) other.
Proof.
  intros until other. intros Hother. split.
  - now apply AuthFacts.getUserCredentials_data.
  - intros tokens news.
    destruct (AuthFacts.onTokensAll_onlyStores dbWrite user tokens news w) as [H _].
    now apply H.
Qed.

Lemma getUserCredentials_touches_one_user_witness :
  JsObj.get
    (Auth.data (snd (Auth.getUserCredentials "client_id.json" Auth.refreshFails
                       Auth.authenticates Auth.written "expired" Auth.slidesScope
                       Auth.sampleWorld))) "current"
  = Some Auth.expired.
Proof.
  exact (proj1 (getUserCredentials_touches_one_user "client_id.json" Auth.refreshFails
                  Auth.authenticates Auth.written "expired" Auth.slidesScope
                  Auth.sampleWorld "current" ltac:(discriminate))).
Defined.

(** X23.  The authorizer never stores credentials without a refresh token:
    when every entry of the database has one, so has every entry after
    [getUserCredentials], and after any later calls of its listener for
    new tokens. *)
Theorem stored_credentials_keep_refresh_token :
  forall (keyfilePath : string)
         (getAccessToken : nat -> Auth.Credentials -> Auth.Refresh)
         (authenticate : nat -> list string -> string -> Js.completion Auth.Credentials)
         (dbWrite : nat -> Auth.Db -> Js.completion unit)
         (user : string) (scopes : list string) (w : Auth.World),
    Auth.refreshable (Auth.data w) = true ->
    Auth.refreshable
      (Auth.data (snd (Auth.getUserCredentials keyfilePath getAccessToken authenticate
                         dbWrite user scopes w))) = true
    /\ forall tokens news,
        Auth.refreshable (Auth.data (Auth.onTokensAll dbWrite user tokens news w)) = true.
Proof.
  intros until w. intros Hw. split.
  - now apply AuthFacts.getUserCredentials_data.
  - intros tokens news.
    destruct (AuthFacts.onTokensAll_onlyStores dbWrite user tokens news w) as (_ & H & _).
    now apply H.
Qed.

Lemma stored_credentials_keep_refresh_token_witness :
  Auth.refreshable
    (Auth.data (Auth.onTokensAll Auth.written "expired" Auth.expired
                  [Auth.refreshed; Auth.accessOnly] Auth.sampleWorld)) = true.
Proof.
  exact (proj2 (stored_credentials_keep_refresh_token "client_id.json" Auth.refreshes
                  Auth.authenticates Auth.written "expired" Auth.slidesScope
                  Auth.sampleWorld eq_refl) Auth.expired [Auth.refreshed; Auth.accessOnly]).
Defined.

(** X24.  [authenticate] is called at most once, and not at all when the
    stored tokens could be refreshed: then the client made from the stored
    tokens is handed back. *)
Theorem valid_tokens_skip_authentication :
  forall (keyfilePath : string)
         (getAccessToken : nat -> Auth.Credentials -> Auth.Refresh)
         (authenticate : nat -> list string -> string -> Js.completion Auth.Credentials)
         (dbWrite : nat -> Auth.Db -> Js.completion unit)
         (user : string) (scopes : list string) (w : Auth.World),
    let run :=
      Auth.getUserCredentials keyfilePath getAccessToken authenticate dbWrite
                              user scopes w in
    exists delta,
      Auth.trace (snd run) = Auth.trace w ++ delta
      /\ Auth.count Auth.isAuthenticate delta <= 1
      /\ forall tokens,
          In {| Auth.call := Auth.GetAccessToken tokens; Auth.ok := true |} delta ->
          Auth.count Auth.isAuthenticate delta = 0
          /\ fst run = Js.Return (Auth.OAuth2Client tokens)
          /\ JsObj.get (Auth.data w) user = Some tokens.
Proof.
  intros. unfold run.
  destruct (AuthFacts.getUserCredentials_cases keyfilePath getAccessToken authenticate
              dbWrite user scopes w)
    as [[_ H] | (tokens & w1 & Hget & (_ & _ & d1 & Ht1 & Hd1) & [H | H])]; rewrite H.
  - destruct (AuthFacts.reauthenticate_trace keyfilePath authenticate dbWrite user scopes w)
      as (post & Hp & Hc & Hno).
    exists post. repeat split; try lia; try assumption;
      exfalso; apply (Hno tokens); assumption.
  - exists (d1 ++ [{| Auth.call := Auth.GetAccessToken tokens; Auth.ok := true |}]).
    cbn [snd fst Auth.tick Auth.trace]. rewrite Ht1, <- app_assoc.
    assert (Hc : Auth.count Auth.isAuthenticate
                   (d1 ++ [{| Auth.call := Auth.GetAccessToken tokens; Auth.ok := true |}])
                 = 0).
    { rewrite AuthFacts.count_append, (AuthFacts.writes_no_authenticate _ Hd1).
      reflexivity. }
    split; [reflexivity|]. split; [lia|].
    intros tokens' Hin. split; [exact Hc|].
    apply in_app_or in Hin. destruct Hin as [Hin | [Heq | []]].
    + exfalso. rewrite forallb_forall in Hd1. specialize (Hd1 _ Hin). discriminate.
    + inversion Heq. subst tokens'. auto.
  - destruct (AuthFacts.reauthenticate_trace keyfilePath authenticate dbWrite user scopes
                (Auth.tick w1 (Auth.GetAccessToken tokens) false))
      as (post & Hp & Hc & Hno).
    exists ((d1 ++ [{| Auth.call := Auth.GetAccessToken tokens; Auth.ok := false |}]) ++ post).
    rewrite Hp. cbn [Auth.tick Auth.trace]. rewrite Ht1, <- !app_assoc.
    split; [reflexivity|].
    rewrite !AuthFacts.count_append, (AuthFacts.writes_no_authenticate _ Hd1).
    split; [cbn; lia|].
    intros tokens' Hin. exfalso.
    apply in_app_or in Hin. destruct Hin as [Hin | Hin].
    + rewrite forallb_forall in Hd1. specialize (Hd1 _ Hin). discriminate.
    + destruct Hin as [Heq | Hin]; [discriminate|]. now apply (Hno tokens').
Qed.

Lemma valid_tokens_skip_authentication_witness :
  fst (Auth.getUserCredentials "client_id.json" Auth.refreshes Auth.authenticateFails
         Auth.written "expired" Auth.slidesScope Auth.sampleWorld)
  = Js.Return (Auth.OAuth2Client Auth.expired).
Proof.
  destruct (valid_tokens_skip_authentication "client_id.json" Auth.refreshes
              Auth.authenticateFails Auth.written "expired" Auth.slidesScope
              Auth.sampleWorld) as (delta & Ht & _ & H).
  apply (H Auth.expired).
  change (Auth.trace Auth.sampleWorld ++ delta) with delta in Ht.
  rewrite <- Ht. vm_compute. right. left. reflexivity.
Defined.



(** X26.  A refresh that fails never rejects the request by itself:
    [getUserCredentials] rejects only when [authenticate] was called, once,
    and the last call made, [authenticate] or the write of the database
    after it, has failed. *)
Theorem getUserCredentials_rejects_after_authenticate :
  forall (keyfilePath : string)
         (getAccessToken : nat -> Auth.Credentials -> Auth.Refresh)
         (authenticate : nat -> list string -> string -> Js.completion Auth.Credentials)
         (dbWrite : nat -> Auth.Db -> Js.completion unit)
         (user : string) (scopes : list string) (w : Auth.World) (e : Js.exn),
    let run :=
      Auth.getUserCredentials keyfilePath getAccessToken authenticate dbWrite
                              user scopes w in
    fst run = Js.Throw e ->
    exists before failed,
      Auth.trace (snd run) = Auth.trace w ++ before ++ [failed]
      /\ Auth.ok failed = false
      /\ Auth.isAuthenticate failed || Auth.isWrite failed = true
      /\ Auth.count Auth.isAuthenticate (before ++ [failed]) = 1.
Proof.
  intros until e. intros run. unfold run.
  assert (Hre : forall w0 pre,
             Auth.trace w0 = Auth.trace w ++ pre ->
             Auth.count Auth.isAuthenticate pre = 0 ->
             fst (Auth.reauthenticate keyfilePath authenticate dbWrite user scopes w0)
             = Js.Throw e ->
             exists before failed,
               Auth.trace
                 (snd (Auth.reauthenticate keyfilePath authenticate dbWrite user scopes w0))
               = Auth.trace w ++ before ++ [failed]
               /\ Auth.ok failed = false
               /\ Auth.isAuthenticate failed || Auth.isWrite failed = true
               /\ Auth.count Auth.isAuthenticate (before ++ [failed]) = 1).
  { intros w0 pre Hpre Hcount.
    destruct (AuthFacts.reauthenticate_cases keyfilePath authenticate dbWrite user scopes w0)
      as [[e' H] | [(c & Hc & H) | (c & Hc & H)]]; rewrite H; cbn [fst snd].
    - intros _. exists pre. eexists. cbn [Auth.tick Auth.trace]. rewrite Hpre, <- app_assoc.
      split; [reflexivity|]. split; [reflexivity|]. split; [reflexivity|].
      rewrite AuthFacts.count_append, Hcount. reflexivity.
    - discriminate.
    - rewrite AuthFacts.store_does. cbn [snd Auth.data Auth.tick Auth.trace Auth.clock].
      destruct (dbWrite _ _); cbn [Js.bind Fx.succeeded]; [discriminate|].
      intros _.
      exists (pre ++ [{| Auth.call := Auth.Authenticate scopes keyfilePath;
                         Auth.ok := true |}]).
      eexists. rewrite Hpre, <- !app_assoc.
      split; [reflexivity|]. split; [reflexivity|]. split; [reflexivity|].
      rewrite !AuthFacts.count_append, Hcount. reflexivity. }
  destruct (AuthFacts.getUserCredentials_cases keyfilePath getAccessToken authenticate
              dbWrite user scopes w)
    as [[_ H] | (tokens & w1 & Hget & (_ & _ & d1 & Ht1 & Hd1) & [H | H])]; rewrite H.
  - apply (Hre w []); [now rewrite app_nil_r | reflexivity].
  - discriminate.
  - apply (Hre _ (d1 ++ [{| Auth.call := Auth.GetAccessToken tokens; Auth.ok := false |}])).
    + cbn [Auth.tick Auth.trace]. now rewrite Ht1, app_assoc.
    + rewrite AuthFacts.count_append, (AuthFacts.writes_no_authenticate _ Hd1).
      reflexivity.
Qed.

Lemma getUserCredentials_rejects_after_authenticate_witness :
  exists before failed,
    Auth.trace (snd (Auth.getUserCredentials "client_id.json" Auth.refreshFails
                       Auth.authenticateFails Auth.written "expired" Auth.slidesScope
                       Auth.sampleWorld))
    = Auth.trace Auth.sampleWorld ++ before ++ [failed]
    /\ Auth.ok failed = false
    /\ Auth.isAuthenticate failed || Auth.isWrite failed = true
    /\ Auth.count Auth.isAuthenticate (before ++ [failed]) = 1.
Proof.
  exact (getUserCredentials_rejects_after_authenticate "client_id.json" Auth.refreshFails
           Auth.authenticateFails Auth.written "expired" Auth.slidesScope
           Auth.sampleWorld (Js.Error "access_denied") eq_refl).
Defined.


(* ====================================================================== *)
(** * Rendering a math expression: properties *)
(* ====================================================================== *)

Module MathFacts.

Import Math.

(** ** Strings *)

Lemma append_assoc (a b c : string) : ((a ++ b) ++ c = a ++ (b ++ c))%string.
Proof. induction a as [|x a IH]; cbn; [reflexivity | now rewrite IH]. Qed.

Lemma take_drop n : forall s, s = (take n s ++ Str.drop n s)%string.
Proof.
  induction n as [|n IH]; intros s; [reflexivity|].
  destruct s as [|c s]; [reflexivity|]. cbn. f_equal. apply IH.
Qed.

Lemma take_append a : forall b, take (String.length a) (a ++ b) = a.
Proof. induction a as [|c a IH]; intros b; cbn; [now destruct b | now rewrite IH]. Qed.

Lemma truthy_append a b : Str.truthy b = true -> Str.truthy (a ++ b) = true.
Proof. destruct a; [auto | reflexivity]. Qed.

(** A pattern begins [x ++ b] when it begins [x], or when [x] begins the
    pattern and [b] goes on with the rest. *)
Lemma prefix_append p : forall x b,
  String.prefix p (x ++ b)
  = String.prefix p x
    || (String.prefix x p && String.prefix (Str.drop (String.length x) p) b).
Proof.
  induction p as [|c p IH]; intros x b.
  - destruct x; destruct b; reflexivity.
  - destruct x as [|d x]; [now destruct b|].
    cbn. rewrite IH.
    destruct (ascii_dec c d) as [->|Hne].
    + now destruct (ascii_dec d d).
    + destruct (ascii_dec d c); [congruence | reflexivity].
Qed.

Lemma includes_empty p : Str.includes EmptyString p = String.prefix p EmptyString.
Proof. cbn. now rewrite orb_false_r. Qed.

Lemma includes_append p a : forall b,
  Str.includes (a ++ b) p = Str.includes a p || straddles a b p || Str.includes b p.
Proof.
  induction a as [|c a IH]; intros b.
  - cbn [append straddles]. rewrite includes_empty, orb_false_r.
    destruct p; [now destruct b | reflexivity].
  - change (Str.includes (String c a ++ b) p)
      with (String.prefix p (String c a ++ b) || Str.includes (a ++ b) p).
    change (Str.includes (String c a) p)
      with (String.prefix p (String c a) || Str.includes a p).
    rewrite prefix_append, IH. cbn [straddles].
    destruct (String.prefix p (String c a)), (Str.includes a p),
      (String.prefix (String c a) p && _), (straddles a b p); reflexivity.
Qed.

Lemma prefix_cons a p b s :
  String.prefix (String a p) (String b s)
  = if ascii_dec a b then String.prefix p s else false.
Proof. reflexivity. Qed.

(** A tag cannot begin at the end of [a] and go on in [b] when [b] does
    not begin with a letter of it. *)
Lemma no_straddle a : forall c b,
  Str.includes a "<svg" = false ->
  c <> "s"%char -> c <> "v"%char -> c <> "g"%char ->
  straddles a (String c b) "<svg" = false.
Proof.
  induction a as [|x a IH]; intros c b Ha Hs Hv Hg; [reflexivity|].
  cbn [straddles].
  change (Str.includes (String x a) "<svg")
    with (String.prefix "<svg" (String x a) || Str.includes a "<svg") in Ha.
  apply orb_false_elim in Ha. destruct Ha as [Hp Ha].
  rewrite (IH c b Ha Hs Hv Hg), orb_false_r.
  destruct (String.prefix (String x a) "<svg") eqn:E; [|reflexivity].
  apply StrFacts.prefix_split in E.
  destruct a as [|y [|z [|u [|v a]]]];
    cbn [String.length Str.drop append] in E |- *;
    inversion E; subst; clear E.
  - rewrite prefix_cons. destruct (ascii_dec "s" c); [congruence | reflexivity].
  - rewrite prefix_cons. destruct (ascii_dec "v" c); [congruence | reflexivity].
  - rewrite prefix_cons. destruct (ascii_dec "g" c); [congruence | reflexivity].
  - vm_compute in Hp. discriminate.
Qed.

(** ** The pattern *)

Lemma lit_some {R} p s (k : string -> option R) r :
  lit p s k = Some r ->
  s = (p ++ Str.drop (String.length p) s)%string
  /\ k (Str.drop (String.length p) s) = Some r.
Proof.
  unfold lit. destruct (String.prefix p s) eqn:E; [|discriminate].
  intros H. split; [now apply StrFacts.prefix_split | exact H].
Qed.

Lemma backtrack_some {R} n s (k : string -> string -> option R) r :
  backtrack n s k = Some r ->
  exists j, j <= n /\ k (take j s) (Str.drop j s) = Some r.
Proof.
  induction n as [|n IH]; cbn [backtrack]; [discriminate|].
  destruct (k (take (S n) s) (Str.drop (S n) s)) eqn:E.
  - intros H. exists (S n). split; [lia | now rewrite E].
  - intros H. destruct (IH H) as (j & Hj & Hk). exists j. split; [lia | exact Hk].
Qed.

(** What [[^c]+] takes holds no [c]. *)
Lemma take_run c s : forall j, j <= runNot c s -> indexOf c (take j s) = None.
Proof.
  induction s as [|a s IH]; intros j Hj.
  - now destruct j.
  - destruct j as [|j]; [reflexivity|].
    cbn [runNot] in Hj. cbn [take indexOf].
    destruct (Ascii.eqb a c); [lia|].
    rewrite IH by lia. reflexivity.
Qed.

(** What a match at the start says of the text. *)
Lemma matchHere_some s m :
  matchHere s = Some m ->
  exists attributes value rest,
    s = ("<svg" ++ attributes ++ styleEq ++ value ++ dq ++ rest)%string
    /\ m = {| m1 := "<svg" ++ attributes; m2 := styleEq ++ value ++ dq; m3 := value |}
    /\ indexOf gt attributes = None
    /\ indexOf quote value = None.
Proof.
  unfold matchHere. intros H.
  apply lit_some in H. destruct H as [E1 H]. rewrite E1. clear E1.
  set (s1 := Str.drop (String.length "<svg") s) in *.
  apply backtrack_some in H. destruct H as (j & Hj & H).
  rewrite (take_drop j s1).
  pose proof (take_run gt s1 j Hj) as Hattributes.
  set (attributes := take j s1) in *. set (s2 := Str.drop j s1) in *.
  apply lit_some in H. destruct H as [E2 H]. rewrite E2. clear E2.
  set (s3 := Str.drop (String.length styleEq) s2) in *.
  apply backtrack_some in H. destruct H as (i & Hi & H).
  rewrite (take_drop i s3).
  pose proof (take_run quote s3 i Hi) as Hvalue.
  set (value := take i s3) in *. set (s4 := Str.drop i s3) in *.
  apply lit_some in H. destruct H as [E4 H]. rewrite E4. clear E4.
  set (s5 := Str.drop (String.length dq) s4) in *.
  apply backtrack_some in H. destruct H as (l & _ & H).
  apply lit_some in H. destruct H as [_ H]. inversion H.
  exists attributes, value, s5. repeat split; assumption.
Qed.

Lemma matchHere_tag s m : matchHere s = Some m -> String.prefix "<svg" s = true.
Proof.
  unfold matchHere, lit. now destruct (String.prefix "<svg" s).
Qed.

Lemma matchFirst_none s : Str.includes s "<svg" = false -> matchFirst s = None.
Proof.
  induction s as [|c s IH]; intros H.
  - reflexivity.
  - change (Str.includes (String c s) "<svg")
      with (String.prefix "<svg" (String c s) || Str.includes s "<svg") in H.
    apply orb_false_elim in H. destruct H as [Hp Hs].
    cbn [matchFirst]. destruct (matchHere (String c s)) eqn:E.
    + apply matchHere_tag in E. congruence.
    + now apply IH.
Qed.

(** ** The template *)

(** The first tag of the template has no style. *)
Lemma template_tag rest : matchHere (svgTag ++ ">" ++ rest) = None.
Proof. reflexivity. Qed.

(** No match in [c :: a ++ html ++ b] when there is none at the start and
    no tag begins after it. *)
Lemma matchFirst_one_tag c a html d b :
  matchHere (String c (a ++ html ++ String d b)) = None ->
  Str.includes a "<svg" = false ->
  (forall rest, straddles a rest "<svg" = false) ->
  Str.includes html "<svg" = false ->
  d <> "s"%char -> d <> "v"%char -> d <> "g"%char ->
  Str.includes (String d b) "<svg" = false ->
  matchFirst (String c (a ++ html ++ String d b)) = None.
Proof.
  intros Hhere Ha Hab Hhtml Hs Hv Hg Hb.
  cbn [matchFirst]. rewrite Hhere.
  apply matchFirst_none.
  rewrite !includes_append, Ha, Hab, Hhtml, Hb.
  now rewrite no_straddle.
Qed.

Lemma template_no_match html :
  Str.includes html "<svg" = false -> matchFirst (svgFor html) = None.
Proof.
  intros Hhtml.
  change (svgFor html)
    with (String "<" ((Str.drop 1 svgTag ++ ">" ++ svgBefore)
                      ++ html ++ String (ascii_of_nat 10) (Str.drop 1 svgAfter)))%string.
  apply matchFirst_one_tag.
  - exact (template_tag (svgBefore ++ html ++ svgAfter)).
  - vm_compute. reflexivity.
  - intros rest. vm_compute. reflexivity.
  - exact Hhtml.
  - discriminate.
  - discriminate.
  - discriminate.
  - vm_compute. reflexivity.
Qed.

Lemma svgFor_nonempty html : Str.truthy (svgFor html) = true.
Proof. reflexivity. Qed.

Lemma mergeStyle_nonempty svg st : Str.truthy (mergeStyle svg st) = true.
Proof.
  unfold mergeStyle. destruct (matchFirst svg) as [m|].
  - apply truthy_append. reflexivity.
  - apply truthy_append. reflexivity.
Qed.

Lemma addOrMergeStyles_nonempty html style :
  Str.truthy (addOrMergeStyles (svgFor html) style) = true.
Proof.
  unfold addOrMergeStyles. destruct style as [st|]; [|apply svgFor_nonempty].
  destruct (Str.truthy st); [apply mergeStyle_nonempty | apply svgFor_nonempty].
Qed.

Lemma renderMath_runs renderToString tmpName sharpToFile image src html w :
  RemoteSvg.source (definition image) = Some src ->
  Str.truthy src = true ->
  renderToString (Str.trim src) = Js.Return html ->
  renderMath renderToString tmpName sharpToFile image w
  = Svg.renderSVG tmpName sharpToFile (mathImage image html) w.
Proof.
  intros Hsrc Htruthy Hhtml. unfold renderMath, Fx.bind, Svg.assertSource.
  rewrite Hsrc, Htruthy. cbn [Fx.ret]. now rewrite Hhtml.
Qed.

Lemma mergeStyle_template html st :
  Str.includes html "<svg" = false ->
  mergeStyle (svgFor html) st
  = (svgTag ++ " style=" ++ dq ++ st ++ dq ++ ">" ++ svgBefore ++ html ++ svgAfter)%string.
Proof.
  intros Hhtml. unfold mergeStyle. rewrite (template_no_match html Hhtml).
  assert (Hi : indexOf gt (svgFor html) = Some (String.length svgTag)) by reflexivity.
  rewrite Hi. unfold svgFor.
  now rewrite take_append, StrFacts.drop_app.
Qed.

Lemma mergeStyle_here svg st attributes value rest :
  matchFirst svg
  = Some {| m1 := "<svg" ++ attributes; m2 := styleEq ++ value ++ dq; m3 := value |} ->
  svg = ("<svg" ++ attributes ++ styleEq ++ value ++ dq ++ rest)%string ->
  mergeStyle svg st
  = ("<svg" ++ attributes ++ styleEq ++ st ++ ";" ++ value ++ dq ++ rest)%string.
Proof.
  intros Hm Hsvg. unfold mergeStyle. rewrite Hm. cbn [m1 m2 m3].
  rewrite <- StrFacts.length_app.
  assert (E1 : svg = (("<svg" ++ attributes) ++ styleEq ++ value ++ dq ++ rest)%string)
    by (rewrite Hsvg; reflexivity).
  assert (E2 : svg = ((("<svg" ++ attributes) ++ styleEq ++ value ++ dq) ++ rest)%string).
  { rewrite E1. now rewrite !append_assoc. }
  rewrite E1 at 1. rewrite take_append.
  rewrite E2. rewrite StrFacts.drop_app.
  unfold styleEq. now rewrite !append_assoc.
Qed.

End MathFacts.

(** X28.  [renderMath] puts the style of the image on the first tag of the
    svg it builds: when the html of KaTeX holds no svg tag, the text given
    to [renderSVG] is the template with the style attribute added at the
    end of its first tag, and the type of the image is svg. *)
Theorem renderMath_styles_first_tag :
  forall (renderToString : string -> Js.completion string)
         (tmpName : nat -> string -> Js.completion string)
         (sharpToFile : nat -> string -> Z -> string -> Js.completion unit)
         (image : Math.StyledImage) (src html st : string) (w : Svg.World),
    RemoteSvg.source (Math.definition image) = Some src ->
    Str.truthy src = true ->
    renderToString (Str.trim src) = Js.Return html ->
    Str.includes html "<svg" = false ->
    Math.style image = Some st ->
    Str.truthy st = true ->
    Math.renderMath renderToString tmpName sharpToFile image w
    = Svg.renderSVG tmpName sharpToFile
        (RemoteSvg.withSource (Math.definition image)
           (Math.svgTag ++ " style=" ++ Math.dq ++ st ++ Math.dq ++ ">"
            ++ Math.svgBefore ++ html ++ Math.svgAfter)) w.
Proof.
  intros until w. intros Hsrc Htruthy Hhtml Hno Hst Hsttruthy.
  rewrite (MathFacts.renderMath_runs _ _ _ image src html w Hsrc Htruthy Hhtml).
  unfold Math.mathImage, Math.addOrMergeStyles. rewrite Hst, Hsttruthy.
  now rewrite MathFacts.mergeStyle_template.
Qed.

Lemma renderMath_styles_first_tag_witness :
  Math.renderMath Math.sampleKatex Svg.tmpNames Svg.done3 Math.fraction Svg.initialWorld
  = Svg.renderSVG Svg.tmpNames Svg.done3
      (RemoteSvg.withSource (Math.definition Math.fraction)
         (Math.svgTag ++ " style=" ++ Math.dq ++ "color: red" ++ Math.dq ++ ">"
          ++ Math.svgBefore
          ++ ("<span class=" ++ Math.dq ++ "katex" ++ Math.dq ++ ">x^2</span>")
          ++ Math.svgAfter)) Svg.initialWorld.
Proof.
  exact (renderMath_styles_first_tag Math.sampleKatex Svg.tmpNames Svg.done3 Math.fraction
           " x^2 " ("<span class=" ++ Math.dq ++ "katex" ++ Math.dq ++ ">x^2</span>")
           "color: red" Svg.initialWorld
           eq_refl eq_refl eq_refl eq_refl eq_refl eq_refl).
Defined.

(** X29.  [addOrMergeStyles] merges into a style attribute that is there:
    when the pattern matches where the svg text begins, the text is an svg
    tag with attributes, none holding the end of the tag, then a style
    attribute with a value and the rest, and the result is the same text
    with the new style and a semicolon put before that value. *)
Theorem addOrMergeStyles_merges_at_start :
  forall (svg st : string) (m : Math.Match),
    Math.matchHere svg = Some m ->
    Str.truthy st = true ->
    exists attributes value rest,
      svg = ("<svg" ++ attributes ++ Math.styleEq ++ value ++ Math.dq ++ rest)%string
      /\ Math.indexOf Math.gt attributes = None
      /\ Math.indexOf Math.quote value = None
      /\ Math.addOrMergeStyles svg (Some st)
         = ("<svg" ++ attributes ++ Math.styleEq ++ st ++ ";" ++ value ++ Math.dq
            ++ rest)%string.
Proof.
  intros svg st m Hm Hst.
  destruct (MathFacts.matchHere_some svg m Hm)
    as (attributes & value & rest & Hsvg & Hmatch & Ha & Hv).
  exists attributes, value, rest. repeat split; try assumption.
  unfold Math.addOrMergeStyles. rewrite Hst.
  apply MathFacts.mergeStyle_here; [|exact Hsvg].
  rewrite <- Hmatch. destruct svg; cbn [Math.matchFirst]; now rewrite Hm.
Qed.

Lemma addOrMergeStyles_merges_at_start_witness :
  exists attributes value rest,
    Math.styledSvg
    = ("<svg" ++ attributes ++ Math.styleEq ++ value ++ Math.dq ++ rest)%string
    /\ Math.indexOf Math.gt attributes = None
    /\ Math.indexOf Math.quote value = None
    /\ Math.addOrMergeStyles Math.styledSvg (Some "color: red")
       = ("<svg" ++ attributes ++ Math.styleEq ++ "color: red" ++ ";" ++ value ++ Math.dq
          ++ rest)%string.
Proof.
  exact (addOrMergeStyles_merges_at_start Math.styledSvg "color: red"
           {| Math.m1 := "<svg width=" ++ Math.dq ++ "10" ++ Math.dq ++ " ";
              Math.m2 := Math.styleEq ++ "fill: blue" ++ Math.dq;
              Math.m3 := "fill: blue" |}
           eq_refl eq_refl).
Defined.

(** X30.  [renderMath] always gets past the assertion of [renderSVG]: the
    text it builds is never empty, with or without a style and whatever
    the pattern finds.  So for an image with a source, when KaTeX, the
    temporary name and sharp succeed, the path of the PNG is handed
    back. *)
Theorem renderMath_returns_path :
  forall (renderToString : string -> Js.completion string)
         (tmpName : nat -> string -> Js.completion string)
         (sharpToFile : nat -> string -> Z -> string -> Js.completion unit)
         (image : Math.StyledImage) (src html path : string) (w : Svg.World),
    RemoteSvg.source (Math.definition image) = Some src ->
    Str.truthy src = true ->
    renderToString (Str.trim src) = Js.Return html ->
    tmpName (Svg.clock w) ".png" = Js.Return path ->
    sharpToFile (S (Svg.clock w))
                (Math.addOrMergeStyles (Math.svgFor html) (Math.style image))
                300%Z path
    = Js.Return tt ->
    fst (Math.renderMath renderToString tmpName sharpToFile image w) = Js.Return path.
Proof.
  intros until w. intros Hsrc Htruthy Hhtml Htmp Hsharp.
  rewrite (MathFacts.renderMath_runs _ _ _ image src html w Hsrc Htruthy Hhtml).
  apply (SvgFacts.renderSVG_sharp _ _ _
           (Math.addOrMergeStyles (Math.svgFor html) (Math.style image)));
    try assumption.
  - reflexivity.
  - apply MathFacts.addOrMergeStyles_nonempty.
Qed.

Lemma renderMath_returns_path_witness :
  fst (Math.renderMath Math.sampleKatex Svg.tmpNames Svg.done3 Math.fraction
         Svg.initialWorld)
  = Js.Return "/tmp/tmp-1.png".
Proof.
  exact (renderMath_returns_path Math.sampleKatex Svg.tmpNames Svg.done3 Math.fraction
           " x^2 " ("<span class=" ++ Math.dq ++ "katex" ++ Math.dq ++ ">x^2</span>")
           "/tmp/tmp-1.png" Svg.initialWorld
           eq_refl eq_refl eq_refl eq_refl eq_refl).
Defined.
